(** * Command service of Standard-of-Iron: ledger, move resolvers, reconciler

    A shallow embedding of [src/game/systems/command_service.cpp]:
    the pending-request ledger, the single-unit and group move resolvers,
    the path-result reconciler and the attack positioning, with the
    properties the specification states about them.

    Conventions of the embedding
    - [float] is IEEE binary32, through the Standard Library's [SpecFloat]
      (precision 24, maximal exponent 128, round to nearest even).
    - [int] values (grid cells) are integers of [Z]; signed overflow is
      undefined in C++ and is outside the model.
    - [std::uint64_t] request ids are [N] with the wrap-around at [2^64]
      written out; [Engine::Core::EntityID] ([unsigned int]) is [N].
    - [std::unordered_map] is [gmap]; [std::vector] is [list].
    - A component pointer obtained from an entity is modelled by reading
      the component from the world and writing it back where the code
      assigns through the pointer. *)

From Stdlib Require Import ZArith NArith List Bool Lia.
From Stdlib Require Import Floats.SpecFloat.
From stdpp Require Import base option list gmap.

Local Open Scope Z_scope.

(** ** binary32 arithmetic *)

Abbreviation float := spec_float (only parsing).

Module F32.
Definition prec : Z := 24.
Definition emax : Z := 128.

(** [static_cast<float>(n)] for an integer [n]. *)
Definition of_Z (z : Z) : float := binary_normalize prec emax z 0 false.

Definition add : float -> float -> float := SFadd prec emax.
Definition sub : float -> float -> float := SFsub prec emax.
Definition mul : float -> float -> float := SFmul prec emax.
Definition div : float -> float -> float := SFdiv prec emax.
Definition sqrt : float -> float := SFsqrt prec emax.
Definition neg : float -> float := SFopp.
Definition ltb : float -> float -> bool := SFltb.
Definition leb : float -> float -> bool := SFleb.

(** A decimal literal [n/d] with [n] and [d] exactly representable: the
    correctly rounded quotient is the value the compiler gives the
    literal (for example [lit 1 100] is [0.01F]). *)
Definition lit (n d : Z) : float := div (of_Z n) (of_Z d).

Definition zero : float := S754_zero false.
Definition infinity : float := S754_infinity false.

(** [std::max(a, b)] is [(a < b) ? b : a]. *)
Definition max (a b : float) : float := if ltb a b then b else a.

(** [std::clamp(v, lo, hi)] is [(v < lo) ? lo : (hi < v) ? hi : v]. *)
Definition clamp (v lo hi : float) : float :=
  if ltb v lo then lo else if ltb hi v then hi else v.

(** [static_cast<int>(std::round(x))]: round half away from zero.  The
    conversion of an infinity, of a NaN or of a value outside the range of
    [int] is undefined in C++; the model gives 0 for the first two and the
    rounded integer for the last. *)
Definition round_to_int (x : float) : Z :=
  match x with
  | S754_finite s m e =>
      let mag := match e with
                 | Z0 => Zpos m
                 | Zpos p => Zpos m * 2 ^ Zpos p
                 | Zneg p => (Zpos m + 2 ^ (Zpos p - 1)) / 2 ^ Zpos p
                 end in
      if s then - mag else mag
  | _ => 0
  end.
End F32.

Arguments F32.add : simpl never.
Arguments F32.sub : simpl never.
Arguments F32.mul : simpl never.
Arguments F32.div : simpl never.
Arguments F32.sqrt : simpl never.
Arguments F32.neg : simpl never.
Arguments F32.ltb : simpl never.
Arguments F32.leb : simpl never.
Arguments F32.of_Z : simpl never.
Arguments F32.lit : simpl never.
Arguments F32.max : simpl never.
Arguments F32.clamp : simpl never.
Arguments F32.round_to_int : simpl never.

Declare Scope f32_scope.
Delimit Scope f32_scope with f32.
Infix "+" := F32.add : f32_scope.
Infix "-" := F32.sub : f32_scope.
Infix "*" := F32.mul : f32_scope.
Infix "/" := F32.div : f32_scope.
Infix "<?" := F32.ltb : f32_scope.
Infix "<=?" := F32.leb : f32_scope.

(** ** QVector3D *)

Record QVector3D := mkVec { vec_x : float; vec_y : float; vec_z : float }.

Definition vzero : QVector3D := mkVec F32.zero F32.zero F32.zero.

Definition vadd (a b : QVector3D) : QVector3D :=
  mkVec (vec_x a + vec_x b)%f32 (vec_y a + vec_y b)%f32 (vec_z a + vec_z b)%f32.

Definition vsub (a b : QVector3D) : QVector3D :=
  mkVec (vec_x a - vec_x b)%f32 (vec_y a - vec_y b)%f32 (vec_z a - vec_z b)%f32.

Definition vscale (a : QVector3D) (f : float) : QVector3D :=
  mkVec (vec_x a * f)%f32 (vec_y a * f)%f32 (vec_z a * f)%f32.

Definition vdiv (a : QVector3D) (f : float) : QVector3D :=
  mkVec (vec_x a / f)%f32 (vec_y a / f)%f32 (vec_z a / f)%f32.

Definition lengthSquared (a : QVector3D) : float :=
  (vec_x a * vec_x a + vec_y a * vec_y a + vec_z a * vec_z a)%f32.

(** [std::hypot(x, y, z)] on [float], as the C++ library computes it: the
    largest of the three magnitudes is factored out before the squares are
    summed, and a largest magnitude of zero gives zero. *)
Definition hypot3 (x y z : float) : float :=
  let x := SFabs x in
  let y := SFabs y in
  let z := SFabs z in
  let a := if (x <? y)%f32 then (if (y <? z)%f32 then z else y)
           else (if (x <? z)%f32 then z else x) in
  match a with
  | S754_zero _ => F32.zero
  | _ => (a * F32.sqrt ((x / a) * (x / a) + (y / a) * (y / a)
                        + (z / a) * (z / a)))%f32
  end.

(** [QVector3D::length()] belongs to Qt; the source includes
    [<qvectornd.h>], the header of Qt 6, where [length()] is
    [qHypot(x, y, z)], that is [std::hypot(x, y, z)]. *)
Definition vlength (a : QVector3D) : float :=
  hypot3 (vec_x a) (vec_y a) (vec_z a).

(** ** Components and entities

    [core/component.h] is not among the sources; the records list the
    fields the command service reads or writes. *)

Abbreviation EntityID := N (only parsing).
Abbreviation RequestId := N (only parsing).

(** [units/spawn_type.h] is not among the sources either: the service only
    distinguishes [Archer] (its default) and [MountedKnight]. *)
Inductive SpawnType := Archer | MountedKnight | OtherSpawnType (tag : N).

Definition is_MountedKnight (s : SpawnType) : bool :=
  match s with MountedKnight => true | _ => false end.

Record HoldModeComponent := mkHoldMode {
  active : bool;
  exitCooldown : float;
  standUpDuration : float
}.

Record AttackComponent := mkAttack {
  inMeleeLock : bool;
  range : float;
  canRanged : bool;
  meleeRange : float
}.

Record TransformComponent := mkTransform {
  position : QVector3D;
  scale : QVector3D
}.

Record AttackTargetComponent := mkAttackTarget {
  target_id : EntityID;
  shouldChase : bool
}.

Record UnitComponent := mkUnit {
  speed : float;
  spawn_type : SpawnType
}.

Record MovementComponent := mkMovement {
  hasTarget : bool;
  target_x : float;
  target_y : float;
  goalX : float;
  goalY : float;
  vx : float;
  vz : float;
  path : list (float * float);
  pathPending : bool;
  pendingRequestId : RequestId;
  timeSinceLastPathRequest : float;
  lastGoalX : float;
  lastGoalY : float
}.

Record Entity := mkEntity {
  holdMode : option HoldModeComponent;
  attack : option AttackComponent;
  transform : option TransformComponent;
  movement : option MovementComponent;
  attackTarget : option AttackTargetComponent;
  unit_component : option UnitComponent;
  building : bool
}.

(** Assignments to single fields, [mv->field = v]. *)
Module Mv.
Definition set_hasTarget (v : bool) (m : MovementComponent) :=
  mkMovement v (target_x m) (target_y m) (goalX m) (goalY m) (vx m) (vz m)
    (path m) (pathPending m) (pendingRequestId m)
    (timeSinceLastPathRequest m) (lastGoalX m) (lastGoalY m).
Definition set_target_x (v : float) (m : MovementComponent) :=
  mkMovement (hasTarget m) v (target_y m) (goalX m) (goalY m) (vx m) (vz m)
    (path m) (pathPending m) (pendingRequestId m)
    (timeSinceLastPathRequest m) (lastGoalX m) (lastGoalY m).
Definition set_target_y (v : float) (m : MovementComponent) :=
  mkMovement (hasTarget m) (target_x m) v (goalX m) (goalY m) (vx m) (vz m)
    (path m) (pathPending m) (pendingRequestId m)
    (timeSinceLastPathRequest m) (lastGoalX m) (lastGoalY m).
Definition set_goalX (v : float) (m : MovementComponent) :=
  mkMovement (hasTarget m) (target_x m) (target_y m) v (goalY m) (vx m) (vz m)
    (path m) (pathPending m) (pendingRequestId m)
    (timeSinceLastPathRequest m) (lastGoalX m) (lastGoalY m).
Definition set_goalY (v : float) (m : MovementComponent) :=
  mkMovement (hasTarget m) (target_x m) (target_y m) (goalX m) v (vx m) (vz m)
    (path m) (pathPending m) (pendingRequestId m)
    (timeSinceLastPathRequest m) (lastGoalX m) (lastGoalY m).
Definition set_vx (v : float) (m : MovementComponent) :=
  mkMovement (hasTarget m) (target_x m) (target_y m) (goalX m) (goalY m) v (vz m)
    (path m) (pathPending m) (pendingRequestId m)
    (timeSinceLastPathRequest m) (lastGoalX m) (lastGoalY m).
Definition set_vz (v : float) (m : MovementComponent) :=
  mkMovement (hasTarget m) (target_x m) (target_y m) (goalX m) (goalY m) (vx m) v
    (path m) (pathPending m) (pendingRequestId m)
    (timeSinceLastPathRequest m) (lastGoalX m) (lastGoalY m).
Definition set_path (v : list (float * float)) (m : MovementComponent) :=
  mkMovement (hasTarget m) (target_x m) (target_y m) (goalX m) (goalY m) (vx m) (vz m)
    v (pathPending m) (pendingRequestId m)
    (timeSinceLastPathRequest m) (lastGoalX m) (lastGoalY m).
Definition set_pathPending (v : bool) (m : MovementComponent) :=
  mkMovement (hasTarget m) (target_x m) (target_y m) (goalX m) (goalY m) (vx m) (vz m)
    (path m) v (pendingRequestId m)
    (timeSinceLastPathRequest m) (lastGoalX m) (lastGoalY m).
Definition set_pendingRequestId (v : RequestId) (m : MovementComponent) :=
  mkMovement (hasTarget m) (target_x m) (target_y m) (goalX m) (goalY m) (vx m) (vz m)
    (path m) (pathPending m) v
    (timeSinceLastPathRequest m) (lastGoalX m) (lastGoalY m).
Definition set_timeSinceLastPathRequest (v : float) (m : MovementComponent) :=
  mkMovement (hasTarget m) (target_x m) (target_y m) (goalX m) (goalY m) (vx m) (vz m)
    (path m) (pathPending m) (pendingRequestId m)
    v (lastGoalX m) (lastGoalY m).
Definition set_lastGoalX (v : float) (m : MovementComponent) :=
  mkMovement (hasTarget m) (target_x m) (target_y m) (goalX m) (goalY m) (vx m) (vz m)
    (path m) (pathPending m) (pendingRequestId m)
    (timeSinceLastPathRequest m) v (lastGoalY m).
Definition set_lastGoalY (v : float) (m : MovementComponent) :=
  mkMovement (hasTarget m) (target_x m) (target_y m) (goalX m) (goalY m) (vx m) (vz m)
    (path m) (pathPending m) (pendingRequestId m)
    (timeSinceLastPathRequest m) (lastGoalX m) v.
End Mv.

Module Ent.
Definition set_holdMode (v : option HoldModeComponent) (e : Entity) :=
  mkEntity v (attack e) (transform e) (movement e) (attackTarget e)
    (unit_component e) (building e).
Definition set_movement (v : option MovementComponent) (e : Entity) :=
  mkEntity (holdMode e) (attack e) (transform e) v (attackTarget e)
    (unit_component e) (building e).
Definition set_attackTarget (v : option AttackTargetComponent) (e : Entity) :=
  mkEntity (holdMode e) (attack e) (transform e) (movement e) v
    (unit_component e) (building e).
End Ent.

(** ** The service state *)

Record MoveOptions := mkOptions {
  allowDirectFallback : bool;
  clearAttackIntent : bool;
  groupMove : bool
}.

Definition Point : Type := Z * Z.

Definition Point_eqb (a b : Point) : bool :=
  (a.1 =? b.1) && (a.2 =? b.2).

Record PendingPathRequest := mkPending {
  entity_id : EntityID;
  target : QVector3D;
  options : MoveOptions;
  groupMembers : list EntityID;
  groupTargets : list QVector3D
}.

(** The pathfinding engine is an external collaborator ([pathfinding.h] is
    not among the sources).  The service uses its grid offset, its
    walkability answer and its request queue: [submitted] records the calls
    of [submitPathRequest] in order. *)
Record Pathfinding := mkPathfinding {
  gridOffsetX : float;
  gridOffsetZ : float;
  isWalkable : Z -> Z -> bool;
  submitted : list (RequestId * Point * Point)
}.

Definition submitPathRequest (request_id : RequestId) (start finish : Point)
    (pf : Pathfinding) : Pathfinding :=
  mkPathfinding (gridOffsetX pf) (gridOffsetZ pf) (isWalkable pf)
    (submitted pf ++ [(request_id, start, finish)]).

Definition setGridOffset (ox oz : float) (pf : Pathfinding) : Pathfinding :=
  mkPathfinding ox oz (isWalkable pf) (submitted pf).

(** One completed computation, as [fetchCompletedPaths] returns it. *)
Record PathResult := mkResult {
  request_id : RequestId;
  result_path : list Point
}.

(** The world together with the statics of [CommandService]. *)
Record State := mkState {
  world : gmap EntityID Entity;
  s_pathfinder : option Pathfinding;
  s_pendingRequests : gmap RequestId PendingPathRequest;
  s_entityToRequest : gmap EntityID RequestId;
  s_nextRequestId : RequestId
}.

Module St.
Definition set_world (v : gmap EntityID Entity) (s : State) :=
  mkState v (s_pathfinder s) (s_pendingRequests s) (s_entityToRequest s)
    (s_nextRequestId s).
Definition set_pathfinder (v : option Pathfinding) (s : State) :=
  mkState (world s) v (s_pendingRequests s) (s_entityToRequest s)
    (s_nextRequestId s).
Definition set_pendingRequests (v : gmap RequestId PendingPathRequest) (s : State) :=
  mkState (world s) (s_pathfinder s) v (s_entityToRequest s)
    (s_nextRequestId s).
Definition set_entityToRequest (v : gmap EntityID RequestId) (s : State) :=
  mkState (world s) (s_pathfinder s) (s_pendingRequests s) v
    (s_nextRequestId s).
Definition set_nextRequestId (v : RequestId) (s : State) :=
  mkState (world s) (s_pathfinder s) (s_pendingRequests s)
    (s_entityToRequest s) v.
End St.

(** What [command_service.h], [core/component.h] and [pathfinding.h] fix and
    the service relies on; these headers are not among the sources, so the
    values are parameters of the development. *)
Record Header := mkHeader {
  DIRECT_PATH_THRESHOLD : Z;
  WAYPOINT_SKIP_THRESHOLD_SQ : float;
  (** [MoveOptions{}] *)
  defaultMoveOptions : MoveOptions;
  (** the component [addComponent<MovementComponent>()] attaches *)
  defaultMovement : MovementComponent;
  (** walkability of the grid [Pathfinding(width, height)] constructs *)
  freshWalkable : Z -> Z -> Z -> Z -> bool
}.

Definition uint64_modulus : N := (2 ^ 64)%N.

(** [s_nextRequestId.fetch_add(1)]: the old value, and the state with the
    counter advanced modulo [2^64]. *)
Definition fetch_add (st : State) : RequestId * State :=
  (s_nextRequestId st,
   St.set_nextRequestId ((s_nextRequestId st + 1) mod uint64_modulus)%N st).

(** ** Constants of the anonymous namespace *)

Definition same_target_threshold_sq : float := F32.lit 1 100.
Definition pathfinding_request_cooldown : float := F32.of_Z 1.
Definition target_movement_threshold_sq : float := F32.of_Z 4.

(** [dx * dx + dz * dz <= same_target_threshold_sq] for
    [dx = ax - bx], [dz = az - bz]. *)
Definition within_same_target (ax az bx bz : float) : bool :=
  let dx := (ax - bx)%f32 in
  let dz := (az - bz)%f32 in
  (dx * dx + dz * dz <=? same_target_threshold_sq)%f32.

(** ** Ledger primitives *)

(** The [remove_entry] lambda, also the loop body of [clearPendingRequest]:
    erase [id] from the entity map when it maps to [request_id]. *)
Definition remove_entry (rid : RequestId)
    (m : gmap EntityID RequestId) (id : EntityID) : gmap EntityID RequestId :=
  match m !! id with
  | Some r => if (r =? rid)%N then delete id m else m
  | None => m
  end.

Definition clearPendingRequest (entity_id : EntityID) (st : State) : State :=
  match s_entityToRequest st !! entity_id with
  | None => st
  | Some rid =>
      let e2r := delete entity_id (s_entityToRequest st) in
      match s_pendingRequests st !! rid with
      | None => St.set_entityToRequest e2r st
      | Some pending =>
          let members := groupMembers pending in
          let st := St.set_pendingRequests (delete rid (s_pendingRequests st)) st in
          St.set_entityToRequest (foldl (remove_entry rid) e2r members) st
      end
  end.

(** ** Grid coordinate mapper *)

Definition worldToGrid (st : State) (world_x world_z : float) : Point :=
  match s_pathfinder st with
  | Some pf =>
      (F32.round_to_int (world_x - gridOffsetX pf)%f32,
       F32.round_to_int (world_z - gridOffsetZ pf)%f32)
  | None => (F32.round_to_int world_x, F32.round_to_int world_z)
  end.

Definition gridToWorld (st : State) (gridPos : Point) : QVector3D :=
  match s_pathfinder st with
  | Some pf =>
      mkVec (F32.of_Z gridPos.1 + gridOffsetX pf)%f32 F32.zero
            (F32.of_Z gridPos.2 + gridOffsetZ pf)%f32
  | None => mkVec (F32.of_Z gridPos.1) F32.zero (F32.of_Z gridPos.2)
  end.

(** ** World access *)

Definition put_entity (uid : EntityID) (e : Entity) (st : State) : State :=
  St.set_world (<[uid := e]> (world st)) st.

(** Assignment through a [MovementComponent *] of entity [uid]. *)
Definition update_movement (uid : EntityID)
    (f : MovementComponent -> MovementComponent) (st : State) : State :=
  St.set_world
    (alter (fun e => Ent.set_movement (f <$> movement e) e) uid (world st)) st.

Definition store_movement (uid : EntityID) (mv : MovementComponent)
    (st : State) : State :=
  update_movement uid (fun _ => mv) st.

(** A move command leaves the hold stance. *)
Definition exit_hold_mode (e : Entity) : Entity :=
  match holdMode e with
  | Some h =>
      if active h
      then Ent.set_holdMode
             (Some (mkHoldMode false (standUpDuration h) (standUpDuration h))) e
      else e
  | None => e
  end.

Definition melee_locked (e : Entity) : bool :=
  match attack e with
  | Some atk => inMeleeLock atk
  | None => false
  end.

Section Service.
Variable hdr : Header.

Definition initialize (worldWidth worldHeight : Z) (st : State) : State :=
  let pf := mkPathfinding F32.zero F32.zero
              (freshWalkable hdr worldWidth worldHeight) [] in
  let offset_x :=
    F32.neg (F32.of_Z worldWidth * F32.lit 1 2 - F32.lit 1 2)%f32 in
  let offset_z :=
    F32.neg (F32.of_Z worldHeight * F32.lit 1 2 - F32.lit 1 2)%f32 in
  mkState (world st) (Some (setGridOffset offset_x offset_z pf)) ∅ ∅ 1%N.

(** *** Single-unit move resolver: the body of the loop of [moveUnits] *)

(** Lines 125-158: entity, hold stance, melee lock, transform, movement
    component, attack intent.  [None] is a [continue]. *)
Definition resolve_unit (opts : MoveOptions) (uid : EntityID) (st : State)
    : State * option (TransformComponent * MovementComponent) :=
  match world st !! uid with
  | None => (st, None)
  | Some e =>
      let e := exit_hold_mode e in
      if melee_locked e then (put_entity uid e st, None)
      else
        match transform e with
        | None => (put_entity uid e st, None)
        | Some tr =>
            let mv := default (defaultMovement hdr) (movement e) in
            let e := Ent.set_movement (Some mv) e in
            let e := if clearAttackIntent opts
                     then Ent.set_attackTarget None e else e in
            (put_entity uid e st, Some (tr, mv))
        end
  end.

(** Lines 163-180: reuse of the request in flight.  The result is
    [matched_pending]. *)
Definition match_pending (opts : MoveOptions) (uid : EntityID)
    (tx tz : float) (mv : MovementComponent) (st : State) : bool * State :=
  if pathPending mv then
    match s_entityToRequest st !! uid with
    | Some rid =>
        match s_pendingRequests st !! rid with
        | Some req =>
            if within_same_target (vec_x (target req)) (vec_z (target req)) tx tz
            then
              let req := mkPending (entity_id req) (target req) opts
                           (groupMembers req) (groupTargets req) in
              (true, St.set_pendingRequests
                       (<[rid := req]> (s_pendingRequests st)) st)
            else (false, st)
        | None =>
            (false, St.set_entityToRequest
                      (delete uid (s_entityToRequest st)) st)
        end
    | None => (false, st)
    end
  else (false, st).

(** Lines 189-204.  The first component is [should_suppress_path_request],
    the second says that the [continue] of line 201 is taken. *)
Definition cooldown_check (mv : MovementComponent) (tx tz : float)
    : bool * bool :=
  if (timeSinceLastPathRequest mv <? pathfinding_request_cooldown)%f32 then
    let last_goal_dx := (lastGoalX mv - tx)%f32 in
    let last_goal_dz := (lastGoalY mv - tz)%f32 in
    let goal_movement_sq :=
      (last_goal_dx * last_goal_dx + last_goal_dz * last_goal_dz)%f32 in
    if (goal_movement_sq <? target_movement_threshold_sq)%f32
    then (true, hasTarget mv || pathPending mv)
    else (false, false)
  else (false, false).

(** Lines 206-224: the current target or the last waypoint already is the
    destination. *)
Definition already_satisfied (mv : MovementComponent) (tx tz : float) : bool :=
  if pathPending mv then false
  else
    let current_target_matches :=
      hasTarget mv && bool_decide (path mv = []) in
    if current_target_matches
       && within_same_target (target_x mv) (target_y mv) tx tz
    then true
    else
      match last (path mv) with
      | Some wp => within_same_target wp.1 wp.2 tx tz
      | None => false
      end.

(** The assignments of lines 232-239 (also 253-260 and 319-326). *)
Definition snap_to_target (tx tz : float) (mv : MovementComponent)
    : MovementComponent :=
  let mv := Mv.set_target_x tx mv in
  let mv := Mv.set_target_y tz mv in
  let mv := Mv.set_hasTarget true mv in
  let mv := Mv.set_path [] mv in
  let mv := Mv.set_pathPending false mv in
  let mv := Mv.set_pendingRequestId 0%N mv in
  let mv := Mv.set_vx F32.zero mv in
  Mv.set_vz F32.zero mv.

(** Lines 263-265 and 313-315. *)
Definition note_path_request (tx tz : float) (mv : MovementComponent)
    : MovementComponent :=
  let mv := Mv.set_timeSinceLastPathRequest F32.zero mv in
  let mv := Mv.set_lastGoalX tx mv in
  Mv.set_lastGoalY tz mv.

(** Lines 268-288: an entry of the entity is reused (the result is
    [skip_new_request]) or erased. *)
Definition supersede_existing (opts : MoveOptions) (uid : EntityID)
    (tx tz : float) (st : State) : bool * State :=
  match s_entityToRequest st !! uid with
  | Some rid =>
      match s_pendingRequests st !! rid with
      | Some req =>
          if within_same_target (vec_x (target req)) (vec_z (target req)) tx tz
          then
            let req := mkPending (entity_id req) (target req) opts
                         (groupMembers req) (groupTargets req) in
            (true, St.set_pendingRequests
                     (<[rid := req]> (s_pendingRequests st)) st)
          else
            let st := St.set_pendingRequests
                        (delete rid (s_pendingRequests st)) st in
            (false, St.set_entityToRequest
                      (delete uid (s_entityToRequest st)) st)
      | None =>
          (false, St.set_entityToRequest
                    (delete uid (s_entityToRequest st)) st)
      end
  | None => (false, st)
  end.

Definition manhattan (start finish : Point) : Z :=
  let dx := Z.abs (finish.1 - start.1) in
  let dz := Z.abs (finish.2 - start.2) in
  dx + dz.

(** Lines 294-315: a new asynchronous request. *)
Definition issue_request (opts : MoveOptions) (uid : EntityID)
    (tgt : QVector3D) (start finish : Point)
    (mv : MovementComponent) (st : State) : MovementComponent * State :=
  let mv := Mv.set_path [] mv in
  let mv := Mv.set_hasTarget false mv in
  let mv := Mv.set_vx F32.zero mv in
  let mv := Mv.set_vz F32.zero mv in
  let mv := Mv.set_pathPending true mv in
  let '(rid, st) := fetch_add st in
  let mv := Mv.set_pendingRequestId rid mv in
  let st := St.set_pendingRequests
              (<[rid := mkPending uid tgt opts [] []]> (s_pendingRequests st))
              st in
  let st := St.set_entityToRequest (<[uid := rid]> (s_entityToRequest st)) st in
  let st := St.set_pathfinder
              (submitPathRequest rid start finish <$> s_pathfinder st) st in
  (note_path_request (vec_x tgt) (vec_z tgt) mv, st).

(** Lines 226-328: snap, direct path or asynchronous request. *)
Definition route_unit (opts : MoveOptions) (uid : EntityID)
    (tgt : QVector3D) (tr : TransformComponent)
    (mv : MovementComponent) (st : State) : MovementComponent * State :=
  let tx := vec_x tgt in
  let tz := vec_z tgt in
  match s_pathfinder st with
  | Some _ =>
      let start := worldToGrid st (vec_x (position tr)) (vec_z (position tr)) in
      let finish := worldToGrid st (vec_x tgt) (vec_z tgt) in
      if Point_eqb start finish
      then (snap_to_target tx tz mv, clearPendingRequest uid st)
      else
        let use_direct_path :=
          manhattan start finish <=? DIRECT_PATH_THRESHOLD hdr in
        let use_direct_path :=
          if negb (allowDirectFallback opts) then false else use_direct_path in
        if use_direct_path
        then
          let mv := snap_to_target tx tz mv in
          let st := clearPendingRequest uid st in
          (note_path_request tx tz mv, st)
        else
          let '(skip_new_request, st) := supersede_existing opts uid tx tz st in
          if skip_new_request then (mv, st)
          else issue_request opts uid tgt start finish mv st
  | None => (snap_to_target tx tz mv, clearPendingRequest uid st)
  end.

(** Lines 160-224 after [resolve_unit]: [inl] is a [continue], [inr]
    reaches line 226. *)
Definition dedup_unit (opts : MoveOptions) (uid : EntityID)
    (tgt : QVector3D) (mv : MovementComponent) (st : State)
    : (MovementComponent * State) + (MovementComponent * State) :=
  let tx := vec_x tgt in
  let tz := vec_z tgt in
  let '(matched_pending, st) := match_pending opts uid tx tz mv st in
  let mv := Mv.set_goalX tx mv in
  let mv := Mv.set_goalY tz mv in
  if matched_pending then inl (mv, st)
  else
    let '(should_suppress_path_request, skip) := cooldown_check mv tx tz in
    if skip then inl (mv, st)
    else if already_satisfied mv tx tz then inl (mv, st)
    else inr (mv, st).

Definition moveUnit (opts : MoveOptions) (st : State)
    (ut : EntityID * QVector3D) : State :=
  let '(uid, tgt) := ut in
  match resolve_unit opts uid st with
  | (st, None) => st
  | (st, Some (tr, mv)) =>
      match dedup_unit opts uid tgt mv st with
      | inl (mv, st) => store_movement uid mv st
      | inr (mv, st) =>
          let '(mv, st) := route_unit opts uid tgt tr mv st in
          store_movement uid mv st
      end
  end.

(** The loop of [moveUnits] (lines 124-329) over vectors of equal size. *)
Definition moveUnits_each (opts : MoveOptions) (st : State)
    (units : list EntityID) (targets : list QVector3D) : State :=
  foldl (moveUnit opts) st (zip units targets).

(** [moveGroup] hands single members over by calling [moveUnits] with
    [groupMove] cleared and two vectors of one size, which is the loop
    [moveUnits_each]; [moveUnits] itself is defined after [moveGroup]. *)

(** *** Group move resolver *)

(** The local [struct MemberInfo].  The [transform] pointer is only read
    for its position, which the service never writes: the member keeps the
    position.  The [movement] pointer is followed through the world. *)
Record MemberInfo := mkMember {
  member_id : EntityID;
  member_position : QVector3D;
  member_target : QVector3D;
  isEngaged : bool;
  member_speed : float;
  member_spawn_type : SpawnType;
  distanceToTarget : float
}.

Definition set_distanceToTarget (d : float) (m : MemberInfo) : MemberInfo :=
  mkMember (member_id m) (member_position m) (member_target m) (isEngaged m)
    (member_speed m) (member_spawn_type m) d.

(** [QVector3D(transform->position.x, 0.0F, transform->position.z)] *)
Definition current_pos (m : MemberInfo) : QVector3D :=
  mkVec (vec_x (member_position m)) F32.zero (vec_z (member_position m)).

(** Lines 351-394: one round of the loop that builds [members]. *)
Definition collect_member (opts : MoveOptions)
    (acc : State * list MemberInfo) (ut : EntityID * QVector3D)
    : State * list MemberInfo :=
  let '(st, members) := acc in
  let '(uid, tgt) := ut in
  match world st !! uid with
  | None => acc
  | Some e =>
      let e := exit_hold_mode e in
      match transform e with
      | None => (put_entity uid e st, members)
      | Some tr =>
          let mv := default (defaultMovement hdr) (movement e) in
          let e := Ent.set_movement (Some mv) e in
          let engaged := match attackTarget e with Some _ => true | None => false end in
          let '(e, engaged) :=
            if clearAttackIntent opts
            then (Ent.set_attackTarget None e, false) else (e, engaged) in
          let speed_of :=
            match unit_component e with
            | Some u => F32.max (F32.lit 1 10) (speed u)
            | None => F32.of_Z 1
            end in
          let spawn_of :=
            match unit_component e with
            | Some u => spawn_type u
            | None => Archer
            end in
          (put_entity uid e st,
           members ++ [mkMember uid (position tr) tgt engaged speed_of spawn_of F32.zero])
      end
  end.

Definition collect_members (opts : MoveOptions) (st : State)
    (units : list EntityID) (targets : list QVector3D)
    : State * list MemberInfo :=
  foldl (collect_member opts) (st, []) (zip units targets).

(** Lines 426-439: the test made on one moving member. *)
Definition target_invalid (st : State) (pf : Pathfinding) (m : MemberInfo) : bool :=
  let target_grid :=
    worldToGrid st (vec_x (member_target m)) (vec_z (member_target m)) in
  if (target_grid.1 <? 0) || (target_grid.2 <? 0) then true
  else negb (isWalkable pf target_grid.1 target_grid.2).

Definition any_target_invalid (st : State) (pf : Pathfinding)
    (moving_members : list MemberInfo) : bool :=
  existsb (target_invalid st pf) moving_members.

Definition member_count (members : list MemberInfo) : float :=
  F32.of_Z (Z.of_nat (length members)).

Definition sum_targets (members : list MemberInfo) : QVector3D :=
  foldl (fun acc m => vadd acc (member_target m)) vzero members.

Definition sum_positions (members : list MemberInfo) : QVector3D :=
  foldl (fun acc m => vadd acc (current_pos m)) vzero members.

Definition sum_speeds (members : list MemberInfo) : float :=
  foldl (fun acc m => (acc + member_speed m)%f32) F32.zero members.

Definition to_target_of (m : MemberInfo) : float :=
  vlength (vsub (current_pos m) (member_target m)).

Definition to_centroid_of (position_centroid : QVector3D) (m : MemberInfo) : float :=
  vlength (vsub (current_pos m) position_centroid).

(** The figures of lines 452-492 that the later decisions read. *)
Record GroupStats := mkStats {
  position_centroid : QVector3D;
  avg_speed : float;
  avg_scatter : float;
  max_target_distance : float;
  near_threshold : float
}.

Definition group_stats (members : list MemberInfo) : GroupStats :=
  let n := member_count members in
  let position_centroid := vdiv (sum_positions members) n in
  let speed_sum := sum_speeds members in
  let target_distance_sum :=
    foldl (fun acc m => (acc + to_target_of m)%f32) F32.zero members in
  let centroid_distance_sum :=
    foldl (fun acc m => (acc + to_centroid_of position_centroid m)%f32)
      F32.zero members in
  let max_target_distance :=
    foldl (fun acc m => F32.max acc (to_target_of m)) F32.zero members in
  let is_empty := match members with [] => true | _ => false end in
  let avg_target_distance :=
    if is_empty then F32.zero else (target_distance_sum / n)%f32 in
  let avg_scatter :=
    if is_empty then F32.zero else (centroid_distance_sum / n)%f32 in
  let avg_speed := if is_empty then F32.zero else (speed_sum / n)%f32 in
  let near_threshold :=
    F32.clamp (avg_target_distance * F32.lit 1 2)%f32 (F32.of_Z 4) (F32.of_Z 12) in
  mkStats position_centroid avg_speed avg_scatter max_target_distance
    near_threshold.

(** Lines 518-537: [should_advance] of one member. *)
Definition should_advance (stats : GroupStats) (m : MemberInfo) : bool :=
  let scatter_threshold := F32.max (avg_scatter stats) (F32.lit 5 2) in
  let to_target := distanceToTarget m in
  let to_centroid := to_centroid_of (position_centroid stats) m in
  let near_destination := (to_target <=? near_threshold stats)%f32 in
  let far_from_group :=
    (scatter_threshold * F32.lit 3 2 <? to_centroid)%f32 in
  let fast_unit :=
    (avg_speed stats + F32.lit 1 2 <=? member_speed m)%f32
    || is_MountedKnight (member_spawn_type m) in
  let should_advance := near_destination in
  let should_advance :=
    if negb should_advance && fast_unit
       && (to_target <=? near_threshold stats * F32.lit 3 2)%f32
    then true else should_advance in
  let should_advance :=
    if negb should_advance && far_from_group
       && (to_target <=? near_threshold stats * F32.of_Z 2)%f32
    then true else should_advance in
  should_advance.

(** Lines 583-591: index of the member whose destination is closest to
    [average]; [i] is the index of the head of [members]. *)
Fixpoint elect_leader (members : list MemberInfo) (average : QVector3D)
    (i : nat) (best_dist_sq : float) (leader_index : nat) : nat :=
  match members with
  | [] => leader_index
  | m :: rest =>
      let dist_sq := lengthSquared (vsub (member_target m) average) in
      if (dist_sq <? best_dist_sq)%f32
      then elect_leader rest average (S i) dist_sq i
      else elect_leader rest average (S i) best_dist_sq leader_index
  end.

Definition leader_index_of (members : list MemberInfo) : nat :=
  let average := vdiv (sum_targets members) (member_count members) in
  elect_leader members average 0%nat F32.infinity 0%nat.

(** Lines 599-615: one round of the reset loop. *)
Definition reset_member (st : State) (m : MemberInfo) : State :=
  let st := update_movement (member_id m) (fun mv =>
              let mv := Mv.set_goalX (vec_x (member_target m)) mv in
              Mv.set_goalY (vec_z (member_target m)) mv) st in
  let st := clearPendingRequest (member_id m) st in
  update_movement (member_id m) (fun mv =>
    let mv := Mv.set_target_x (vec_x (member_position m)) mv in
    let mv := Mv.set_target_y (vec_z (member_position m)) mv in
    let mv := Mv.set_hasTarget false mv in
    let mv := Mv.set_vx F32.zero mv in
    let mv := Mv.set_vz F32.zero mv in
    let mv := Mv.set_path [] mv in
    let mv := Mv.set_pathPending false mv in
    Mv.set_pendingRequestId 0%N mv) st.

(** Lines 622-626 and 635-639. *)
Definition send_directly (st : State) (m : MemberInfo) : State :=
  update_movement (member_id m) (fun mv =>
    let mv := Mv.set_target_x (vec_x (member_target m)) mv in
    let mv := Mv.set_target_y (vec_z (member_target m)) mv in
    Mv.set_hasTarget true mv) st.

(** Lines 651-659. *)
Definition send_directly_noted (st : State) (m : MemberInfo) : State :=
  update_movement (member_id m) (fun mv =>
    let mv := Mv.set_target_x (vec_x (member_target m)) mv in
    let mv := Mv.set_target_y (vec_z (member_target m)) mv in
    let mv := Mv.set_hasTarget true mv in
    note_path_request (vec_x (member_target m)) (vec_z (member_target m)) mv) st.

(** Lines 666-673. *)
Definition mark_pending (rid : RequestId) (st : State) (m : MemberInfo) : State :=
  update_movement (member_id m) (fun mv =>
    let mv := Mv.set_pathPending true mv in
    let mv := Mv.set_pendingRequestId rid mv in
    note_path_request (vec_x (member_target m)) (vec_z (member_target m)) mv) st.

(** Lines 663-694: the shared request of the regroup set. *)
Definition register_group (opts : MoveOptions) (st : State)
    (leader : MemberInfo) (members : list MemberInfo)
    (start finish : Point) : State :=
  let '(rid, st) := fetch_add st in
  let st := foldl (mark_pending rid) st members in
  let pending :=
    mkPending (member_id leader) (member_target leader) opts
      (member_id <$> members) (member_target <$> members) in
  let st := St.set_pendingRequests
              (<[rid := pending]> (s_pendingRequests st)) st in
  let st := St.set_entityToRequest
              (foldl (fun m mem => <[member_id mem := rid]> m)
                 (s_entityToRequest st) members) st in
  St.set_pathfinder (submitPathRequest rid start finish <$> s_pathfinder st) st.

(** Lines 577-594: the elected leader, [members[leader_index]]. *)
Definition leader_of (members : list MemberInfo) : option MemberInfo :=
  match members with
  | [] => None
  | first :: _ => Some (nth (leader_index_of members) members first)
  end.

(** Lines 575-695: formation pathing of the regroup set [members]. *)
Definition formation_pathing (opts : MoveOptions) (st : State)
    (members : list MemberInfo) : State :=
  match leader_of members with
  | None => st
  | Some leader =>
      let st := foldl reset_member st members in
      match s_pathfinder st with
      | None => foldl send_directly st members
      | Some _ =>
          let start := worldToGrid st (vec_x (member_position leader))
                         (vec_z (member_position leader)) in
          let finish := worldToGrid st (vec_x (member_target leader))
                          (vec_z (member_target leader)) in
          if Point_eqb start finish then foldl send_directly st members
          else
            let use_direct_path :=
              manhattan start finish <=? DIRECT_PATH_THRESHOLD hdr in
            let use_direct_path :=
              if negb (allowDirectFallback opts) then false else use_direct_path in
            if use_direct_path then foldl send_directly_noted st members
            else register_group opts st leader members start finish
      end
  end.

Definition ungrouped (opts : MoveOptions) : MoveOptions :=
  mkOptions (allowDirectFallback opts) (clearAttackIntent opts) false.

(** Lines 446-573: [members] are the moving members, their targets
    validated.  [inl] is a [return]; [inr] carries the state and the regroup
    set with which line 575 is reached. *)
Definition moveGroup_dispatch (opts : MoveOptions) (st : State)
    (members : list MemberInfo) : State + (State * list MemberInfo) :=
  match members with
  | [] => inl st
  | _ =>
      let stats := group_stats members in
      let members := (fun m => set_distanceToTarget (to_target_of m) m) <$> members in
      if (max_target_distance stats <=? near_threshold stats)%f32
      then inl (moveUnits_each (ungrouped opts) st
                  (member_id <$> members) (member_target <$> members))
      else
        let direct_members := List.filter (should_advance stats) members in
        let regroup_members :=
          List.filter (fun m => negb (should_advance stats m)) members in
        let st :=
          match direct_members with
          | [] => st
          | _ => moveUnits_each (ungrouped opts) st
                   (member_id <$> direct_members)
                   (member_target <$> direct_members)
          end in
        match regroup_members with
        | [] => inl st
        | [single] =>
            inl (moveUnits_each (ungrouped opts) st
                   [member_id single] [member_target single])
        | _ => inr (st, regroup_members)
        end
  end.

(** Lines 348-573 of [moveGroup]. *)
Definition moveGroup_prepare (opts : MoveOptions) (st : State)
    (units : list EntityID) (targets : list QVector3D)
    : State + (State * list MemberInfo) :=
  let '(st, members) := collect_members opts st units targets in
  match members with
  | [] => inl st
  | [single] =>
      inl (moveUnits_each (ungrouped opts) st
             [member_id single] [member_target single])
  | _ =>
      let moving_members := List.filter (fun m => negb (isEngaged m)) members in
      match moving_members with
      | [] => inl st
      | _ =>
          let invalid :=
            match s_pathfinder st with
            | Some pf => any_target_invalid st pf moving_members
            | None => false
            end in
          if invalid then inl st
          else moveGroup_dispatch opts st moving_members
      end
  end.

Definition moveGroup (st : State) (units : list EntityID)
    (targets : list QVector3D) (opts : MoveOptions) : State :=
  match moveGroup_prepare opts st units targets with
  | inl st => st
  | inr (st, regroup_members) => formation_pathing opts st regroup_members
  end.

Definition moveUnits (st : State) (units : list EntityID)
    (targets : list QVector3D) (opts : MoveOptions) : State :=
  if negb (length units =? length targets)%nat then st
  else if groupMove opts && (1 <? length units)%nat
       then moveGroup st units targets opts
       else moveUnits_each opts st units targets.

(** *** Path-result reconciler *)

(** Lines 767-772: the waypoints after the start cell, in world space and
    shifted by [offset]. *)
Definition offset_waypoints (st : State) (path_points : list Point)
    (offset : QVector3D) : list (float * float) :=
  (fun p => let world_pos := gridToWorld st p in
            ((vec_x world_pos + vec_x offset)%f32,
             (vec_z world_pos + vec_z offset)%f32)) <$> drop 1 path_points.

(** Lines 774-784: drop the leading waypoints within the skip threshold of
    the position [(px, pz)]. *)
Fixpoint prune_leading (px pz : float) (waypoints : list (float * float))
    : list (float * float) :=
  match waypoints with
  | [] => []
  | wp :: rest =>
      let dx := (wp.1 - px)%f32 in
      let dz := (wp.2 - pz)%f32 in
      if (dx * dx + dz * dz <=? WAYPOINT_SKIP_THRESHOLD_SQ hdr)%f32
      then prune_leading px pz rest
      else waypoints
  end.

(** The waypoints a still-pending member is left with (lines 766-784). *)
Definition remaining_waypoints (st : State) (path_points : list Point)
    (offset : QVector3D) (tr : TransformComponent) : list (float * float) :=
  let has_path := (1 <? length path_points)%nat in
  if has_path
  then prune_leading (vec_x (position tr)) (vec_z (position tr))
         (offset_waypoints st path_points offset)
  else [].

(** Lines 751-756: the member no longer waits for this request. *)
Definition drop_pending (mv : MovementComponent) : MovementComponent :=
  let mv := Mv.set_pathPending false mv in
  Mv.set_pendingRequestId 0%N mv.

(** Lines 758-801: the member waits for this request. *)
Definition apply_path (request_info : PendingPathRequest)
    (waypoints : list (float * float)) (tgt : QVector3D)
    (mv : MovementComponent) : MovementComponent :=
  let mv := Mv.set_pathPending false mv in
  let mv := Mv.set_pendingRequestId 0%N mv in
  let mv := Mv.set_path [] mv in
  let mv := Mv.set_goalX (vec_x tgt) mv in
  let mv := Mv.set_goalY (vec_z tgt) mv in
  let mv := Mv.set_vx F32.zero mv in
  let mv := Mv.set_vz F32.zero mv in
  let mv := Mv.set_path waypoints mv in
  match waypoints with
  | front :: _ =>
      let mv := Mv.set_target_x front.1 mv in
      let mv := Mv.set_target_y front.2 mv in
      Mv.set_hasTarget true mv
  | [] =>
      if allowDirectFallback (options request_info)
      then
        let mv := Mv.set_target_x (vec_x tgt) mv in
        let mv := Mv.set_target_y (vec_z tgt) mv in
        Mv.set_hasTarget true mv
      else Mv.set_hasTarget false mv
  end.

(** The [apply_to_member] lambda (lines 731-802). *)
Definition apply_to_member (rid : RequestId) (request_info : PendingPathRequest)
    (path_points : list Point) (st : State)
    (member : EntityID) (tgt offset : QVector3D) : State :=
  match world st !! member with
  | None => st
  | Some member_entity =>
      match movement member_entity with
      | None => st
      | Some mv =>
          match transform member_entity with
          | None => st
          | Some tr =>
              if negb (pathPending mv) || negb (pendingRequestId mv =? rid)%N
              then store_movement member (drop_pending mv) st
              else
                store_movement member
                  (apply_path request_info
                     (remaining_waypoints st path_points offset tr) tgt mv) st
          end
      end
  end.

(** The [add_member] lambda (lines 824-832); the accumulator carries the
    [processed] vector. *)
Definition add_member (rid : RequestId) (request_info : PendingPathRequest)
    (path_points : list Point) (acc : State * list EntityID)
    (it : EntityID * QVector3D) : State * list EntityID :=
  let '(st, processed) := acc in
  let '(id, tgt) := it in
  if bool_decide (id ∈ processed) then acc
  else
    let offset := vsub tgt (target request_info) in
    (apply_to_member rid request_info path_points st id tgt offset,
     processed ++ [id]).

(** Lines 836-845: each follower with [groupTargets[idx]], or with the
    leader's target when that vector is too short. *)
Fixpoint member_entries (members : list EntityID) (targets : list QVector3D)
    (leader_target : QVector3D) : list (EntityID * QVector3D) :=
  match members with
  | [] => []
  | id :: rest =>
      (id, default leader_target (head targets))
        :: member_entries rest (tail targets) leader_target
  end.

(** The owner, then the followers, in the order [add_member] sees them. *)
Definition request_entries (request_info : PendingPathRequest)
    : list (EntityID * QVector3D) :=
  (entity_id request_info, target request_info)
    :: member_entries (groupMembers request_info) (groupTargets request_info)
         (target request_info).

(** Lines 707-846: one round of the loop over the results. *)
Definition process_result (st : State) (result : PathResult) : State :=
  let rid := request_id result in
  match s_pendingRequests st !! rid with
  | None => st
  | Some request_info =>
      let st := St.set_pendingRequests (delete rid (s_pendingRequests st)) st in
      let st := St.set_entityToRequest
                  (foldl (remove_entry rid)
                     (remove_entry rid (s_entityToRequest st)
                        (entity_id request_info))
                     (groupMembers request_info)) st in
      (foldl (add_member rid request_info (result_path result)) (st, [])
         (request_entries request_info)).1
  end.

(** [results] is what [s_pathfinder->fetchCompletedPaths()] hands over. *)
Definition processPathResults (st : State) (results : list PathResult) : State :=
  match s_pathfinder st with
  | None => st
  | Some _ => foldl process_result st results
  end.

(** *** Attack positioning *)

(** [QVector3D(position.x, 0.0F, position.z)] of a transform. *)
Definition ground_position (tr : TransformComponent) : QVector3D :=
  mkVec (vec_x (position tr)) F32.zero (vec_z (position tr)).

(** Lines 903-910: [range] and [is_ranged_unit]. *)
Definition attack_range (e : Entity) : float :=
  match attack e with
  | Some atk => F32.max (F32.lit 1 10) (range atk)
  | None => F32.of_Z 2
  end.

Definition is_ranged_unit (e : Entity) : bool :=
  match attack e with
  | Some atk => canRanged atk && (meleeRange atk * F32.lit 3 2 <? range atk)%f32
  | None => false
  end.

(** [desired_distance], lines 917-921 for a building and 926-929 for a
    unit. *)
Definition desired_distance (e target_ent : Entity)
    (t_trans : TransformComponent) : float :=
  if building target_ent then
    let scale_x := vec_x (scale t_trans) in
    let scale_z := vec_z (scale t_trans) in
    let target_radius := (F32.max scale_x scale_z * F32.lit 1 2)%f32 in
    (target_radius + F32.max (attack_range e - F32.lit 1 5) (F32.lit 1 5))%f32
  else
    let desired_distance :=
      F32.max (attack_range e - F32.lit 1 5)%f32 (F32.lit 1 5) in
    if is_ranged_unit e then (attack_range e * F32.lit 85 100)%f32
    else desired_distance.

(** [distance], line 913. *)
Definition attack_distance (t_trans att_trans : TransformComponent) : float :=
  vlength (vsub (ground_position t_trans) (ground_position att_trans)).

(** Lines 901-934: the position the attacker is sent to.  Both branches of
    line 916 end in the same test, written once here. *)
Definition desired_position (e target_ent : Entity)
    (t_trans att_trans : TransformComponent) : QVector3D :=
  let target_pos := ground_position t_trans in
  let attacker_pos := ground_position att_trans in
  let desired_pos := target_pos in
  let direction := vsub target_pos attacker_pos in
  let distance := vlength direction in
  if (F32.lit 1 1000 <? distance)%f32 then
    let direction := vdiv direction distance in
    let desired_distance := desired_distance e target_ent t_trans in
    if (desired_distance + F32.lit 15 100 <? distance)%f32
    then vsub target_pos (vscale direction desired_distance)
    else desired_pos
  else desired_pos.

(** Lines 943-955. *)
Definition aim_movement (desired_pos : QVector3D) (mv : MovementComponent)
    : MovementComponent :=
  let mv := Mv.set_target_x (vec_x desired_pos) mv in
  let mv := Mv.set_target_y (vec_z desired_pos) mv in
  let mv := Mv.set_goalX (vec_x desired_pos) mv in
  let mv := Mv.set_goalY (vec_z desired_pos) mv in
  let mv := Mv.set_hasTarget true mv in
  Mv.set_path [] mv.

(** Lines 857-955: one round of the loop of [attack_target]. *)
Definition attack_unit (target : EntityID) (chase : bool)
    (st : State) (unit_id : EntityID) : State :=
  match world st !! unit_id with
  | None => st
  | Some e =>
      let e := exit_hold_mode e in
      let e := Ent.set_attackTarget (Some (mkAttackTarget target chase)) e in
      let st := put_entity unit_id e st in
      if negb chase then st
      else
        match world st !! target with
        | None => st
        | Some target_ent =>
            match transform target_ent, transform e with
            | Some t_trans, Some att_trans =>
                let desired_pos := desired_position e target_ent t_trans att_trans in
                let opts := mkOptions true false (groupMove (defaultMoveOptions hdr)) in
                let st := moveUnits st [unit_id] [desired_pos] opts in
                St.set_world
                  (alter (fun e' =>
                     Ent.set_movement
                       (Some (aim_movement desired_pos
                                (default (defaultMovement hdr) (movement e')))) e')
                     unit_id (world st)) st
            | _, _ => st
            end
        end
  end.

Definition attack_target (st : State) (units : list EntityID)
    (target : EntityID) (chase : bool) : State :=
  if (target =? 0)%N then st
  else foldl (attack_unit target chase) st units.

End Service.

(** ** Notions the properties are stated with *)

(** The two maps of the ledger agree: every entity of the entity map points
    to a registered request, and every follower a request lists points back
    to that request. *)
Definition ledger_consistent (st : State) : Prop :=
  map_Forall (fun _ rid => is_Some (s_pendingRequests st !! rid))
    (s_entityToRequest st)
  /\ map_Forall
       (fun rid req =>
          Forall (fun follower => s_entityToRequest st !! follower = Some rid)
            (groupMembers req))
       (s_pendingRequests st).

#[global] Instance ledger_consistent_dec (st : State) : Decision (ledger_consistent st).
Proof. unfold ledger_consistent. apply _. Defined.

(** The destination [add_member] uses for [id]: the one of its first
    occurrence among the entries. *)
Fixpoint assigned_target (id : EntityID) (entries : list (EntityID * QVector3D))
    : option QVector3D :=
  match entries with
  | [] => None
  | (id', tgt) :: rest =>
      if (id' =? id)%N then Some tgt else assigned_target id rest
  end.

(** What [apply_to_member] does to the entity it is called for. *)
Definition reconcile_entity (hdr : Header) (rid : RequestId)
    (request_info : PendingPathRequest) (path_points : list Point)
    (st : State) (tgt offset : QVector3D) (e : Entity) : Entity :=
  match movement e, transform e with
  | Some mv, Some tr =>
      if negb (pathPending mv) || negb (pendingRequestId mv =? rid)%N
      then Ent.set_movement (Some (drop_pending mv)) e
      else Ent.set_movement
             (Some (apply_path request_info
                      (remaining_waypoints hdr st path_points offset tr) tgt mv)) e
  | _, _ => e
  end.

(** Two movement states that differ at most in [pathPending] and
    [pendingRequestId]. *)
Definition same_but_pending (a b : MovementComponent) : Prop :=
  hasTarget a = hasTarget b /\ target_x a = target_x b /\ target_y a = target_y b
  /\ goalX a = goalX b /\ goalY a = goalY b /\ vx a = vx b /\ vz a = vz b
  /\ path a = path b
  /\ timeSinceLastPathRequest a = timeSinceLastPathRequest b
  /\ lastGoalX a = lastGoalX b /\ lastGoalY a = lastGoalY b.

(** The movement component of entity [id], if both exist. *)
Definition movement_of (st : State) (id : EntityID) : option MovementComponent :=
  world st !! id ≫= movement.

(** What the abort of a group move may do to the movement component of an
    entity: nothing, or attach the default one where there was none. *)
Definition movement_kept (hdr : Header) (before after : option Entity) : Prop :=
  match before, after with
  | Some e, Some e' =>
      movement e' = movement e
      \/ (movement e = None /\ movement e' = Some (defaultMovement hdr))
  | None, None => True
  | _, _ => False
  end.

(** ** A concrete level for the examples

    A 50 x 50 grid, every cell of it walkable, with the direct-path
    threshold 4 of the specification's scenarios. *)

Definition demo_movement : MovementComponent :=
  mkMovement false F32.zero F32.zero F32.zero F32.zero F32.zero F32.zero []
    false 0%N F32.zero F32.zero F32.zero.

Definition demo_header : Header :=
  mkHeader 4 (F32.lit 1 4) (mkOptions true true false) demo_movement
    (fun w h x y => (0 <=? x) && (x <? w) && (0 <=? y) && (y <? h)).

Definition vec (x z : Z) : QVector3D := mkVec (F32.of_Z x) F32.zero (F32.of_Z z).

(** An entity with a transform only. *)
Definition soldier (x z : Z) : Entity :=
  mkEntity None None (Some (mkTransform (vec x z) (vec 1 1))) None None None false.

(** An entity with a transform and an idle movement component. *)
Definition idle_soldier (x z : Z) : Entity :=
  mkEntity None None (Some (mkTransform (vec x z) (vec 1 1)))
    (Some demo_movement) None None false.

(** The statics as the program starts: no pathfinder, empty maps, counter 1. *)
Definition static_init : State := mkState ∅ None ∅ ∅ 1%N.

Definition demo_level (w : gmap EntityID Entity) : State :=
  St.set_world w (initialize demo_header 50 50 static_init).

Definition options_async : MoveOptions := mkOptions false true false.
Definition options_default : MoveOptions := mkOptions true true false.
Definition options_group : MoveOptions := mkOptions true true true.

(** Two soldiers ordered as a group from (-10,-10) and (-9,-10) to (10,10)
    and (11,10): both regroup and share request 1. *)
Definition demo_two : State :=
  demo_level (<[1%N := soldier (-10) (-10)]> (<[2%N := soldier (-9) (-10)]> ∅)).

Definition demo_grouped : State :=
  moveUnits demo_header demo_two [1%N; 2%N] [vec 10 10; vec 11 10] options_group.

(** Then the follower 2 alone is sent to (-5,10). *)
Definition demo_superseded : State :=
  moveUnits demo_header demo_grouped [2%N] [vec (-5) 10] options_default.

(** A movement component that waits for request [rid]. *)
Definition waiting_for (rid : RequestId) : MovementComponent :=
  mkMovement false F32.zero F32.zero F32.zero F32.zero F32.zero F32.zero []
    true rid F32.zero F32.zero F32.zero.

Definition waiting_soldier (x z : Z) (rid : RequestId) : Entity :=
  mkEntity None None (Some (mkTransform (vec x z) (vec 1 1)))
    (Some (waiting_for rid)) None None false.

(** Request 5 of entity 1 towards (10,10), without direct fallback. *)
Definition demo_request_5 : PendingPathRequest :=
  mkPending 1%N (vec 10 10) options_async [] [].

(** Entity 1 waits for request 5, which is in the ledger. *)
Definition demo_waiting : State :=
  St.set_entityToRequest {[1%N := 5%N]}
    (St.set_pendingRequests {[5%N := demo_request_5]}
       (demo_level {[1%N := waiting_soldier (-10) (-10) 5%N]})).

(** Entity 1 meanwhile waits for request 7; request 5 still lists it. *)
Definition demo_stale : State :=
  St.set_entityToRequest {[1%N := 5%N]}
    (St.set_pendingRequests {[5%N := demo_request_5]}
       (demo_level {[1%N := waiting_soldier (-10) (-10) 7%N]})).

(** No request of the ledger of [st'] is new with respect to [st]. *)
Definition no_new_request (st st' : State) : Prop :=
  forall rid, is_Some (s_pendingRequests st' !! rid) ->
              is_Some (s_pendingRequests st !! rid).

(** The requests submitted to the pathfinding engine so far. *)
Definition submitted_requests (st : State) : list (RequestId * Point * Point) :=
  match s_pathfinder st with
  | Some pf => submitted pf
  | None => []
  end.

(** A soldier on cell (25,25) is sent to (2,0), two cells away, and
    directly after that to (3,0). *)
Definition demo_near : State := demo_level {[1%N := soldier 0 0]}.

Definition demo_near_moved : State :=
  moveUnits demo_header demo_near [1%N] [vec 2 0] options_default.

Definition demo_near_again : State :=
  moveUnits demo_header demo_near_moved [1%N] [vec 3 0] options_default.

(** A soldier asks for a path to (10,10) without direct fallback; the
    engine finds none; the same order is given again at once. *)
Definition demo_far : State := demo_level {[1%N := soldier (-10) (-10)]}.

Definition demo_far_requested : State :=
  moveUnits demo_header demo_far [1%N] [vec 10 10] options_async.

Definition demo_far_failed : State :=
  processPathResults demo_header demo_far_requested [mkResult 1%N []].

Definition demo_far_again : State :=
  moveUnits demo_header demo_far_failed [1%N] [vec 10 10] options_async.

(** The pathfinder of the demo level. *)
Definition demo_pf : Pathfinding :=
  mkPathfinding (F32.neg (F32.lit 49 2)) (F32.neg (F32.lit 49 2))
    (freshWalkable demo_header 50 50) [].

(** A member as the collecting loop builds it for an entity without unit
    component and attack intent, with its distance filled in. *)
Definition demo_member (id : EntityID) (x z tx tz : Z) : MemberInfo :=
  mkMember id (vec x z) (vec tx tz) false (F32.of_Z 1) Archer F32.zero.

Definition demo_measured (id : EntityID) (x z tx tz : Z) : MemberInfo :=
  set_distanceToTarget (to_target_of (demo_member id x z tx tz))
    (demo_member id x z tx tz).

(** An idle soldier is ordered, as a group with the absent entity 2, to
    (-40,0), whose cell (-16,25) is off the grid. *)
Definition demo_idle : State := demo_level {[1%N := idle_soldier 0 0]}.

Definition demo_lone_group : State :=
  moveUnits demo_header demo_idle [1%N; 2%N] [vec (-40) 0; vec 0 0] options_group.

(** Two idle soldiers; the first is ordered to the same cell off the grid. *)
Definition demo_pair : State :=
  demo_level (<[1%N := idle_soldier 0 0]> (<[2%N := idle_soldier 1 0]> ∅)).

(** [demo_two] with the default movement components attached: the state in
    which the group order of [demo_grouped] reaches formation pathing. *)
Definition demo_two_ready : State :=
  demo_level (<[1%N := idle_soldier (-10) (-10)]>
                (<[2%N := idle_soldier (-9) (-10)]> ∅)).

(** An idle attacker at (0,0) and its target at (1,0), within the stand-off
    distance 1.8 of an attacker without attack component. *)
Definition demo_duel : State :=
  demo_level (<[1%N := idle_soldier 0 0]> (<[2%N := soldier 1 0]> ∅)).

(** The ledger as the resolvers register it: consistent, and every entity
    that maps to a request is one of its [groupMembers], or its owner when
    the request has no members. *)
Definition ledger_wf (st : State) : Prop :=
  (forall e rid, s_entityToRequest st !! e = Some rid ->
     exists req, s_pendingRequests st !! rid = Some req
                 /\ (e ∈ groupMembers req
                     \/ (groupMembers req = [] /\ entity_id req = e)))
  /\ (forall rid req follower,
        s_pendingRequests st !! rid = Some req ->
        follower ∈ groupMembers req ->
        s_entityToRequest st !! follower = Some rid).

(** ** Notions for the further properties *)

(** The grid offset [initialize] computes for an axis of [n] cells. *)
Definition grid_offset_of (n : Z) : float :=
  F32.neg (F32.of_Z n * F32.lit 1 2 - F32.lit 1 2)%f32.

(** Cell [c] of an axis of [n] cells, sent to world space and back. *)
Definition axis_round_trip (n c : Z) : bool :=
  F32.round_to_int
    ((F32.of_Z c + grid_offset_of n) - grid_offset_of n)%f32 =? c.

(** What a command may do to an entity: it stays, with its transform, its
    attack, unit and building components as they were. *)
Definition entity_kept (before after : option Entity) : Prop :=
  match before, after with
  | Some e, Some e' =>
      transform e' = transform e /\ attack e' = attack e
      /\ unit_component e' = unit_component e /\ building e' = building e
  | None, None => True
  | _, _ => False
  end.

(** Two requests that differ at most in their options. *)
Definition same_but_options (a b : PendingPathRequest) : Prop :=
  entity_id a = entity_id b /\ target a = target b
  /\ groupMembers a = groupMembers b /\ groupTargets a = groupTargets b.

(** A step that allocates no request id, submits nothing and registers no
    request. *)
Definition issues_nothing (st st' : State) : Prop :=
  s_pathfinder st' = s_pathfinder st
  /\ s_nextRequestId st' = s_nextRequestId st
  /\ no_new_request st st'.

(** The hold stance is not active. *)
Definition hold_inactive (e : Entity) : Prop :=
  match holdMode e with
  | Some h => active h = false
  | None => True
  end.

(** The movement state [mv] with the goal [(x, z)] recorded. *)
Definition with_goal (x z : float) (mv : MovementComponent) : MovementComponent :=
  Mv.set_goalY z (Mv.set_goalX x mv).

(** The attack intent of an entity is as before, and a hold stance that
    was left stays left. *)
Definition intent_kept (before after : option Entity) : Prop :=
  match before, after with
  | Some e, Some e' =>
      attackTarget e' = attackTarget e /\ (hold_inactive e -> hold_inactive e')
  | None, None => True
  | _, _ => False
  end.

(** [ledger_wf] in a form that can be decided on a concrete ledger. *)
Definition ledger_wf_check (st : State) : Prop :=
  map_Forall
    (fun e rid =>
       match s_pendingRequests st !! rid with
       | Some req =>
           bool_decide (e ∈ groupMembers req)
           || (bool_decide (groupMembers req = []) && (entity_id req =? e)%N)
       | None => false
       end = true)
    (s_entityToRequest st)
  /\ map_Forall
       (fun rid req =>
          Forall (fun follower => s_entityToRequest st !! follower = Some rid)
            (groupMembers req))
       (s_pendingRequests st).

#[global] Instance ledger_wf_check_dec (st : State) : Decision (ledger_wf_check st).
Proof. unfold ledger_wf_check. apply _. Defined.

(** ** Further examples *)

Definition demo_transform (x z : Z) : TransformComponent :=
  mkTransform (vec x z) (vec 1 1).

(** The movement component of a unit that waits for request [rid] on its
    way to (x,z), and of one sent directly to (x,z). *)
Definition ordered_movement (rid : RequestId) (x z : Z) : MovementComponent :=
  mkMovement false F32.zero F32.zero (F32.of_Z x) (F32.of_Z z) F32.zero F32.zero
    [] true rid F32.zero (F32.of_Z x) (F32.of_Z z).

Definition sent_movement (x z : Z) : MovementComponent :=
  mkMovement true (F32.of_Z x) (F32.of_Z z) (F32.of_Z x) (F32.of_Z z)
    F32.zero F32.zero [] false 0%N F32.zero (F32.of_Z x) (F32.of_Z z).

Definition moving_soldier (x z : Z) (mv : MovementComponent) : Entity :=
  mkEntity None None (Some (demo_transform x z)) (Some mv) None None false.

(** [demo_far] with the default movement component attached. *)
Definition demo_far_ready : State :=
  demo_level {[1%N := idle_soldier (-10) (-10)]}.



(** An idle soldier who means to attack entity [tid]. *)
Definition engaged_soldier (x z : Z) (tid : EntityID) : Entity :=
  mkEntity None None (Some (demo_transform x z)) (Some demo_movement)
    (Some (mkAttackTarget tid true)) None false.

(** Soldier 1 is engaged with 9; 2 and 3 are idle. *)
Definition demo_engaged : State :=
  demo_level (<[1%N := engaged_soldier (-10) (-10) 9%N]>
                (<[2%N := idle_soldier (-9) (-10)]>
                   (<[3%N := idle_soldier (-8) (-10)]> ∅))).

(** A group order that leaves attack intents in place. *)
Definition options_keep : MoveOptions := mkOptions true false true.

(** The soldiers of [demo_two] and of [demo_two_ready] before
    [initialize]: there is no pathfinder. *)
Definition demo_unplaced : State := St.set_world (world demo_two) static_init.

Definition demo_unplaced_ready : State :=
  St.set_world (world demo_two_ready) static_init.

(** ** The service in use

    The calls the game makes on the service after [initialize]; a group
    order enters through [moveUnits].  The world belongs to the game, which
    may change it between two calls. *)
Inductive Call :=
  | CallMoveUnits (units : list EntityID) (targets : list QVector3D)
      (opts : MoveOptions)
  | CallClearPendingRequest (id : EntityID)
  | CallProcessPathResults (results : list PathResult)
  | CallAttackTarget (units : list EntityID) (target : EntityID) (chase : bool)
  | WorldChange (w : gmap EntityID Entity).

Definition call (hdr : Header) (st : State) (c : Call) : State :=
  match c with
  | CallMoveUnits units targets opts => moveUnits hdr st units targets opts
  | CallClearPendingRequest id => clearPendingRequest id st
  | CallProcessPathResults results => processPathResults hdr st results
  | CallAttackTarget units target chase => attack_target hdr st units target chase
  | WorldChange w => St.set_world w st
  end.

Definition run (hdr : Header) (st : State) (calls : list Call) : State :=
  foldl (call hdr) st calls.

(** The request ids handed to the pathfinding engine so far, in order.
    Each [fetch_add] of the service (lines 300-302 and 663-664) is followed
    by [submitPathRequest] with the id it returned (lines 311 and 694). *)
Definition submitted_ids (st : State) : list RequestId :=
  (fun r => r.1.1) <$> submitted_requests st.

(** The counter after one [fetch_add], and the ids [n] allocations hand
    out when the counter is [c]. *)
Definition next_id (c : RequestId) : RequestId := ((c + 1) mod uint64_modulus)%N.

Definition ids_from (c : RequestId) (n : nat) : list RequestId :=
  (fun i => Nat.iter i next_id c) <$> seq 0 n.

(** From [st] to [st'] the service allocated [n] ids: they are the ones the
    counter hands out from its value in [st], they were submitted in that
    order, and every request and entry of the ledger that is new carries
    one of them. *)
Definition allocates (st st' : State) : Prop :=
  exists n,
    submitted_ids st' = submitted_ids st ++ ids_from (s_nextRequestId st) n
    /\ s_nextRequestId st' = Nat.iter n next_id (s_nextRequestId st)
    /\ (forall rid, is_Some (s_pendingRequests st' !! rid) ->
          is_Some (s_pendingRequests st !! rid)
          \/ rid ∈ ids_from (s_nextRequestId st) n)
    /\ (forall e rid, s_entityToRequest st' !! e = Some rid ->
          s_entityToRequest st !! e = Some rid
          \/ rid ∈ ids_from (s_nextRequestId st) n).

(** An idle attacker at (0,0) and its target at (1.75,0): the distance is
    within 0.15 of the stand-off distance 1.8 of an attacker without attack
    component. *)
(** The [pendingRequestId] of every movement component of a world
    satisfies [P]. *)
Definition stamped (P : RequestId -> Prop) (w : gmap EntityID Entity) : Prop :=
  forall id e mv,
    w !! id = Some e -> movement e = Some mv -> P (pendingRequestId mv).

(** [P] holds of every id submitted to the pathfinding engine. *)
Definition covers (P : RequestId -> Prop) (st : State) : Prop :=
  forall rid, rid ∈ submitted_ids st -> P rid.

(** The worlds that the changes made by others bring in. *)
Definition world_changes (calls : list Call) : list (gmap EntityID Entity) :=
  omap (fun c => match c with WorldChange w => Some w | _ => None end) calls.

Definition standoff_transform : TransformComponent :=
  mkTransform (mkVec (F32.lit 7 4) F32.zero F32.zero) (vec 1 1).

Definition standoff_target : Entity :=
  mkEntity None None (Some standoff_transform) None None None false.

Definition demo_standoff : State :=
  demo_level (<[1%N := idle_soldier 0 0]> (<[2%N := standoff_target]> ∅)).

(** The movement state lines 943-955 leave: aimed at [pos]. *)
Definition aimed_at (pos : QVector3D) (mv : MovementComponent) : Prop :=
  hasTarget mv = true
  /\ target_x mv = vec_x pos /\ target_y mv = vec_z pos
  /\ goalX mv = vec_x pos /\ goalY mv = vec_z pos
  /\ path mv = [].

(** * Owner registry

    A shallow embedding of [src/game/systems/owner_registry.cpp].  The
    header [owner_registry.h] is not among the sources: [OwnerType] has the
    enumerators the code names, [OwnerInfo] the fields the code assigns,
    and the value a fresh [OwnerInfo] has in [team_id] is the parameter
    [default_team_id].  [int] values are integers of [Z]; the one
    arithmetic operation on them, [owner_id + 1], is written with the
    wrap-around of a 32-bit two's-complement [int], which is what the
    machine computes where C++ leaves the overflow undefined.
    [std::string] is [string], [std::vector] is [list],
    [std::unordered_map] is [gmap].  The JSON functions work on Qt values
    and are not embedded. *)

From stdpp Require Import strings pretty.

Local Open Scope Z_scope.

Module Owners.

Inductive OwnerType := Player | AI | Neutral.

(** [INT_MIN], [INT_MAX] and the value of an [int] expression whose
    mathematical value is [z]. *)
Definition int_min : Z := - 2 ^ 31.
Definition int_max : Z := 2 ^ 31 - 1.
Definition wrap_int (z : Z) : Z := (z + 2 ^ 31) mod 2 ^ 32 - 2 ^ 31.

#[global] Instance OwnerType_eq_dec : EqDecision OwnerType.
Proof. solve_decision. Defined.

Definition Color : Type := float * float * float.

Record OwnerInfo := mkOwnerInfo {
  owner_id : Z;
  type : OwnerType;
  name : string;
  team_id : Z;
  color : Color
}.

Definition set_team_id (v : Z) (o : OwnerInfo) : OwnerInfo :=
  mkOwnerInfo (owner_id o) (type o) (name o) v (color o).

Definition set_color (v : Color) (o : OwnerInfo) : OwnerInfo :=
  mkOwnerInfo (owner_id o) (type o) (name o) (team_id o) v.

Record OwnerRegistry := mkRegistry {
  m_owners : list OwnerInfo;
  m_owner_idToIndex : gmap Z nat;
  m_nextOwnerId : Z;
  m_localPlayerId : Z
}.

(** Lines 66-71. *)
Definition clear : OwnerRegistry := mkRegistry [] ∅ 1 1.

(** The [switch] of lines 81-97 and 117-133. *)
Definition color_of_id (owner_id : Z) : Color :=
  if owner_id =? 1 then (F32.lit 20 100, F32.lit 55 100, F32.lit 100 100)
  else if owner_id =? 2 then (F32.lit 100 100, F32.lit 30 100, F32.lit 30 100)
  else if owner_id =? 3 then (F32.lit 20 100, F32.lit 80 100, F32.lit 40 100)
  else if owner_id =? 4 then (F32.lit 100 100, F32.lit 80 100, F32.lit 20 100)
  else (F32.lit 8 10, F32.lit 9 10, F32.lit 1 1).

(** [name.empty() ? ("Owner" + std::to_string(owner_id)) : name] *)
Definition name_of (owner_id : Z) (name : string) : string :=
  if bool_decide (name = "") then "Owner" +:+ pretty owner_id else name.

Section Registry.
Variable default_team_id : Z.

(** The [OwnerInfo] both registering functions build. *)
Definition new_owner (owner_id : Z) (type : OwnerType) (name : string)
    : OwnerInfo :=
  mkOwnerInfo owner_id type (name_of owner_id name) default_team_id
    (color_of_id owner_id).

(** Lines 73-104; the result is the id and the registry afterwards. *)
Definition registerOwner (type : OwnerType) (name : string) (r : OwnerRegistry)
    : Z * OwnerRegistry :=
  let owner_id := m_nextOwnerId r in
  let info := new_owner owner_id type name in
  let index := length (m_owners r) in
  (owner_id,
   mkRegistry (m_owners r ++ [info])
     (<[owner_id := index]> (m_owner_idToIndex r))
     (wrap_int (owner_id + 1)) (m_localPlayerId r)).

(** Lines 106-142. *)
Definition registerOwnerWithId (owner_id : Z) (type : OwnerType)
    (name : string) (r : OwnerRegistry) : OwnerRegistry :=
  match m_owner_idToIndex r !! owner_id with
  | Some _ => r
  | None =>
      let info := new_owner owner_id type name in
      let index := length (m_owners r) in
      mkRegistry (m_owners r ++ [info])
        (<[owner_id := index]> (m_owner_idToIndex r))
        (if m_nextOwnerId r <=? owner_id then wrap_int (owner_id + 1)
         else m_nextOwnerId r)
        (m_localPlayerId r)
  end.

End Registry.

Definition setLocalPlayerId (player_id : Z) (r : OwnerRegistry) : OwnerRegistry :=
  mkRegistry (m_owners r) (m_owner_idToIndex r) (m_nextOwnerId r) player_id.

Definition getLocalPlayerId (r : OwnerRegistry) : Z := m_localPlayerId r.

(** [m_owner_idToIndex.find(owner_id)] followed by [m_owners[it->second]].
    An index outside the vector would be undefined behaviour; the registry
    never holds one (see [registry_wf]), and the model answers as for an
    unknown owner. *)
Definition find_owner (r : OwnerRegistry) (owner_id : Z) : option OwnerInfo :=
  match m_owner_idToIndex r !! owner_id with
  | Some index => m_owners r !! index
  | None => None
  end.

Definition isPlayer (r : OwnerRegistry) (owner_id : Z) : bool :=
  match find_owner r owner_id with
  | Some info => bool_decide (type info = Player)
  | None => false
  end.

Definition isAI (r : OwnerRegistry) (owner_id : Z) : bool :=
  match find_owner r owner_id with
  | Some info => bool_decide (type info = AI)
  | None => false
  end.

Definition getOwnerType (r : OwnerRegistry) (owner_id : Z) : OwnerType :=
  match find_owner r owner_id with
  | Some info => type info
  | None => Neutral
  end.

Definition getOwnerName (r : OwnerRegistry) (owner_id : Z) : string :=
  match find_owner r owner_id with
  | Some info => name info
  | None => "Unknown"
  end.

Definition getAllOwners (r : OwnerRegistry) : list OwnerInfo := m_owners r.

Definition getPlayerOwnerIds (r : OwnerRegistry) : list Z :=
  owner_id <$> List.filter (fun owner => bool_decide (type owner = Player))
                 (m_owners r).

Definition getAIOwnerIds (r : OwnerRegistry) : list Z :=
  owner_id <$> List.filter (fun owner => bool_decide (type owner = AI))
                 (m_owners r).

(** Assignment to a field of [m_owners[it->second]]. *)
Definition update_owner (f : OwnerInfo -> OwnerInfo) (owner_id : Z)
    (r : OwnerRegistry) : OwnerRegistry :=
  match m_owner_idToIndex r !! owner_id with
  | Some index =>
      mkRegistry (alter f index (m_owners r)) (m_owner_idToIndex r)
        (m_nextOwnerId r) (m_localPlayerId r)
  | None => r
  end.

Definition setOwnerTeam (owner_id team_id : Z) (r : OwnerRegistry)
    : OwnerRegistry :=
  update_owner (set_team_id team_id) owner_id r.

Definition getOwnerTeam (r : OwnerRegistry) (owner_id : Z) : Z :=
  match find_owner r owner_id with
  | Some info => team_id info
  | None => 0
  end.

Definition areAllies (r : OwnerRegistry) (owner_id1 owner_id2 : Z) : bool :=
  if owner_id1 =? owner_id2 then true
  else
    let team1 := getOwnerTeam r owner_id1 in
    let team2 := getOwnerTeam r owner_id2 in
    team1 =? team2.

Definition areEnemies (r : OwnerRegistry) (owner_id1 owner_id2 : Z) : bool :=
  if owner_id1 =? owner_id2 then false
  else if areAllies r owner_id1 owner_id2 then false
  else true.

Definition getAlliesOf (r : OwnerRegistry) (owner_id : Z) : list Z :=
  let my_team := getOwnerTeam r owner_id in
  if my_team =? 0 then []
  else
    Owners.owner_id
      <$> List.filter (fun owner => negb (Owners.owner_id owner =? owner_id)
                                    && (team_id owner =? my_team))
            (m_owners r).

Definition getEnemiesOf (r : OwnerRegistry) (owner_id : Z) : list Z :=
  Owners.owner_id
    <$> List.filter (fun owner => areEnemies r owner_id (Owners.owner_id owner))
          (m_owners r).

Definition setOwnerColor (owner_id : Z) (red g b : float) (r : OwnerRegistry)
    : OwnerRegistry :=
  update_owner (set_color (red, g, b)) owner_id r.

Definition getOwnerColor (r : OwnerRegistry) (owner_id : Z) : Color :=
  match find_owner r owner_id with
  | Some info => color info
  | None => (F32.lit 8 10, F32.lit 9 10, F32.lit 1 1)
  end.

(** The registry as its functions keep it: the map and the vector describe
    each other, and every registered id is below [m_nextOwnerId]. *)
Definition registry_wf (r : OwnerRegistry) : Prop :=
  (forall id index, m_owner_idToIndex r !! id = Some index ->
     exists info, m_owners r !! index = Some info /\ owner_id info = id)
  /\ (forall index info, m_owners r !! index = Some info ->
        m_owner_idToIndex r !! owner_id info = Some index)
  /\ (forall id, is_Some (m_owner_idToIndex r !! id) -> id < m_nextOwnerId r).

(** The registries the public functions produce from the cleared one
    while no id reaches [INT_MAX]: [registerOwner] is called with the
    counter below [INT_MAX], and [registerOwnerWithId] with an [int] below
    [INT_MAX], so that [owner_id + 1] does not overflow. *)
Inductive reachable (default_team_id : Z) : OwnerRegistry -> Prop :=
  | reach_clear : reachable default_team_id clear
  | reach_register r type name :
      reachable default_team_id r ->
      m_nextOwnerId r < int_max ->
      reachable default_team_id (registerOwner default_team_id type name r).2
  | reach_register_id r id type name :
      reachable default_team_id r ->
      int_min <= id < int_max ->
      reachable default_team_id
        (registerOwnerWithId default_team_id id type name r)
  | reach_local r id :
      reachable default_team_id r ->
      reachable default_team_id (setLocalPlayerId id r)
  | reach_team r id team :
      reachable default_team_id r ->
      reachable default_team_id (setOwnerTeam id team r)
  | reach_color r id red g b :
      reachable default_team_id r ->
      reachable default_team_id (setOwnerColor id red g b r).

End Owners.

(** A registry with the local player "Hero" and one AI owner. *)
Definition demo_registry : Owners.OwnerRegistry :=
  (Owners.registerOwner 0 Owners.AI ""
     (Owners.registerOwner 0 Owners.Player "Hero" Owners.clear).2).2.

(** * Visibility job

    A shallow embedding of [VisibilityService::executeJob] of
    [src/game/map/visibility_service.cpp] and of the two helpers it calls.
    The header [visibility_service.h] is not among the sources:
    [VisionSource], [JobPayload] and [JobResult] have the fields the code
    reads and writes, and the bytes the enumerators [Visible] and
    [Explored] of [VisibilityState] are cast to are the parameters
    [visible_val] and [explored_val].  A byte of the cell vector is an
    integer of [Z]; a vector is a [list], read with [!!] and written with
    [<[_:=_]>] at an index that the code keeps in range. *)

Module Visibility.

Record VisionSource := mkSource {
  center_x : Z;
  center_z : Z;
  cell_radius : Z;
  expanded_range_sq : float
}.

Record JobPayload := mkPayload {
  width : Z;
  height : Z;
  tile_size : float;
  cells : list Z;
  sources : list VisionSource;
  generation : N
}.

Record JobResult := mkJobResult {
  result_cells : list Z;
  result_generation : N;
  changed : bool
}.

(** Lines 27-29. *)
Definition inBoundsStatic (grid_x grid_z width height : Z) : bool :=
  (0 <=? grid_x) && (grid_x <? width) && (0 <=? grid_z) && (grid_z <? height).

(** Lines 31-33. *)
Definition indexStatic (grid_x grid_z width : Z) : Z := grid_z * width + grid_x.

(** The values of [dz] and of [dx]: from [-cell_radius] to [cell_radius]. *)
Definition offsets (cell_radius : Z) : list Z :=
  seqZ (- cell_radius) (2 * cell_radius + 1).

(** Lines 208-219: one round of the loop over [dx]. *)
Definition mark_cell (p : JobPayload) (source : VisionSource)
    (grid_z : Z) (world_dz : float) (current_visible : list Z) (dx : Z)
    : list Z :=
  let grid_x := center_x source + dx in
  if negb (inBoundsStatic grid_x grid_z (width p) (height p))
  then current_visible
  else
    let world_dx := (F32.of_Z dx * tile_size p)%f32 in
    let dist_sq := (world_dx * world_dx + world_dz * world_dz)%f32 in
    if (dist_sq <=? expanded_range_sq source)%f32
    then
      let idx := indexStatic grid_x grid_z (width p) in
      <[Z.to_nat idx := 1]> current_visible
    else current_visible.

(** Lines 201-220: one round of the loop over [dz]. *)
Definition mark_row (p : JobPayload) (source : VisionSource)
    (current_visible : list Z) (dz : Z) : list Z :=
  let grid_z := center_z source + dz in
  if negb (inBoundsStatic (center_x source) grid_z (width p) (height p))
  then current_visible
  else
    let world_dz := (F32.of_Z dz * tile_size p)%f32 in
    foldl (mark_cell p source grid_z world_dz) current_visible
      (offsets (cell_radius source)).

(** Lines 200-221: one round of the loop over the sources. *)
Definition mark_source (p : JobPayload) (current_visible : list Z)
    (source : VisionSource) : list Z :=
  foldl (mark_row p source) current_visible (offsets (cell_radius source)).

(** Lines 197-221: [current_visible] after the loop over the sources. *)
Definition visible_now (p : JobPayload) : list Z :=
  let cell_count := width p * height p in
  foldl (mark_source p) (replicate (Z.to_nat cell_count) 0) (sources p).

Section Job.
Variable visible_val explored_val : Z.

(** Lines 224-240: one round of the second loop; the accumulator carries
    [payload.cells] and [changed].  The code reads [payload.cells[idx]]
    for every [idx] below [cell_count]; a shorter vector would be undefined
    behaviour, and the model leaves such a round without effect. *)
Definition settle_cell (current_visible : list Z) (acc : list Z * bool)
    (idx : nat) : list Z * bool :=
  let '(cells, changed) := acc in
  let now_visible := default 0 (current_visible !! idx) in
  match cells !! idx with
  | None => acc
  | Some cell =>
      if negb (now_visible =? 0) then
        if negb (cell =? visible_val)
        then (<[idx := visible_val]> cells, true)
        else acc
      else if cell =? visible_val
           then (<[idx := explored_val]> cells, true)
           else acc
  end.

(** Lines 195-243. *)
Definition executeJob (payload : JobPayload) : JobResult :=
  let cell_count := width payload * height payload in
  let current_visible := visible_now payload in
  let '(cells, changed) :=
    foldl (settle_cell current_visible) (cells payload, false)
      (seq 0 (Z.to_nat cell_count)) in
  mkJobResult cells (generation payload) changed.

End Job.

(** What the second loop makes of a cell. *)
Definition settled (visible_val explored_val : Z) (now_visible cell : Z) : Z :=
  if negb (now_visible =? 0) then visible_val
  else if cell =? visible_val then explored_val else cell.

(** Cell [idx] lies in the square of [source]: in its row range and column
    range, and inside the grid. *)
Definition in_square (p : JobPayload) (source : VisionSource) (idx : nat) : Prop :=
  exists dx dz,
    - cell_radius source <= dx <= cell_radius source
    /\ - cell_radius source <= dz <= cell_radius source
    /\ inBoundsStatic (center_x source + dx) (center_z source + dz)
         (width p) (height p) = true
    /\ idx = Z.to_nat (indexStatic (center_x source + dx) (center_z source + dz)
                         (width p)).

(** The marks of [current_visible]: every cell that is not 0 satisfies
    [within]. *)
Definition marks_within (within : nat -> Prop) (current_visible : list Z) : Prop :=
  forall i x, current_visible !! i = Some x -> x ≠ 0 -> within i.

(** [current_visible[idx]], for an index of the vector. *)
Definition now_at (current_visible : list Z) (idx : nat) : Z :=
  default 0 (current_visible !! idx).

End Visibility.

(** A 3 x 2 grid, all unseen (0), with one source on cell (1,0) that sees
    one cell far; [Visible] is 2 and [Explored] is 1. *)
Definition demo_payload : Visibility.JobPayload :=
  Visibility.mkPayload 3 2 (F32.of_Z 1) [0; 0; 2; 0; 1; 2]
    [Visibility.mkSource 1 0 1 (F32.of_Z 1)] 7%N.
(** * Properties *)

(** ** Frame facts: what each step leaves alone *)

Lemma update_movement_lookup uid f st :
  world (update_movement uid f st) !! uid
  = (fun e => Ent.set_movement (f <$> movement e) e) <$> world st !! uid.
Proof. unfold update_movement. simpl. apply lookup_alter_eq. Qed.

Lemma update_movement_other uid f st id :
  id ≠ uid -> world (update_movement uid f st) !! id = world st !! id.
Proof.
  intros Hne. unfold update_movement. simpl.
  apply lookup_alter_ne. congruence.
Qed.

Lemma store_movement_other uid mv st id :
  id ≠ uid -> world (store_movement uid mv st) !! id = world st !! id.
Proof. apply update_movement_other. Qed.

Lemma clearPendingRequest_world id st :
  world (clearPendingRequest id st) = world st.
Proof.
  unfold clearPendingRequest.
  destruct (s_entityToRequest st !! id) as [rid|]; [|done].
  destruct (s_pendingRequests st !! rid); done.
Qed.

Lemma clearPendingRequest_pathfinder id st :
  s_pathfinder (clearPendingRequest id st) = s_pathfinder st.
Proof.
  unfold clearPendingRequest.
  destruct (s_entityToRequest st !! id) as [rid|]; [|done].
  destruct (s_pendingRequests st !! rid); done.
Qed.

Lemma clearPendingRequest_counter id st :
  s_nextRequestId (clearPendingRequest id st) = s_nextRequestId st.
Proof.
  unfold clearPendingRequest.
  destruct (s_entityToRequest st !! id) as [rid|]; [|done].
  destruct (s_pendingRequests st !! rid); done.
Qed.

Lemma gridToWorld_pathfinder st st' p :
  s_pathfinder st = s_pathfinder st' -> gridToWorld st p = gridToWorld st' p.
Proof. unfold gridToWorld. by intros ->. Qed.

Lemma worldToGrid_pathfinder st st' x z :
  s_pathfinder st = s_pathfinder st' -> worldToGrid st x z = worldToGrid st' x z.
Proof. unfold worldToGrid. by intros ->. Qed.

(** ** The reconciler *)

Section Reconciler.
Variable hdr : Header.
Variable rid : RequestId.
Variable request_info : PendingPathRequest.
Variable path_points : list Point.

Lemma remaining_waypoints_pathfinder st st' offset tr :
  s_pathfinder st = s_pathfinder st' ->
  remaining_waypoints hdr st path_points offset tr
  = remaining_waypoints hdr st' path_points offset tr.
Proof.
  intros Hpf. unfold remaining_waypoints, offset_waypoints.
  destruct (1 <? length path_points)%nat; [|done].
  f_equal. apply list_fmap_ext. intros _ p _.
  by rewrite (gridToWorld_pathfinder st st' p Hpf).
Qed.

Lemma apply_to_member_lookup st member tgt offset :
  world (apply_to_member hdr rid request_info path_points st member tgt offset)
    !! member
  = reconcile_entity hdr rid request_info path_points st tgt offset
      <$> world st !! member.
Proof.
  unfold apply_to_member, reconcile_entity.
  destruct (world st !! member) as [e|] eqn:He; [|by rewrite He].
  simpl. destruct (movement e) as [mv|] eqn:Hmv; [|by rewrite He].
  destruct (transform e) as [tr|] eqn:Htr; [|by rewrite He].
  destruct (negb (pathPending mv) || negb (pendingRequestId mv =? rid)%N);
    unfold store_movement; rewrite update_movement_lookup, He; simpl;
    by rewrite Hmv.
Qed.

Lemma apply_to_member_other st member tgt offset id :
  id ≠ member ->
  world (apply_to_member hdr rid request_info path_points st member tgt offset)
    !! id = world st !! id.
Proof.
  intros Hne. unfold apply_to_member.
  destruct (world st !! member) as [e|]; [|done].
  destruct (movement e) as [mv|]; [|done].
  destruct (transform e) as [tr|]; [|done].
  destruct (negb (pathPending mv) || negb (pendingRequestId mv =? rid)%N);
    by apply store_movement_other.
Qed.

(** [apply_to_member] writes to the world only. *)
Lemma apply_to_member_frame st member tgt offset :
  let st' := apply_to_member hdr rid request_info path_points st member tgt offset in
  s_pathfinder st' = s_pathfinder st
  /\ s_pendingRequests st' = s_pendingRequests st
  /\ s_entityToRequest st' = s_entityToRequest st
  /\ s_nextRequestId st' = s_nextRequestId st.
Proof.
  unfold apply_to_member.
  destruct (world st !! member) as [e|]; [|done].
  destruct (movement e) as [mv|]; [|done].
  destruct (transform e) as [tr|]; [|done].
  destruct (negb (pathPending mv) || negb (pendingRequestId mv =? rid)%N); done.
Qed.

Lemma reconcile_entity_pathfinder st st' tgt offset e :
  s_pathfinder st = s_pathfinder st' ->
  reconcile_entity hdr rid request_info path_points st tgt offset e
  = reconcile_entity hdr rid request_info path_points st' tgt offset e.
Proof.
  intros Hpf. unfold reconcile_entity.
  destruct (movement e) as [mv|]; [|done].
  destruct (transform e) as [tr|]; [|done].
  by rewrite (remaining_waypoints_pathfinder st st' offset tr Hpf).
Qed.

Lemma fold_add_member_frame entries : forall st processed,
  let st' := (foldl (add_member hdr rid request_info path_points)
                (st, processed) entries).1 in
  s_pathfinder st' = s_pathfinder st
  /\ s_pendingRequests st' = s_pendingRequests st
  /\ s_entityToRequest st' = s_entityToRequest st
  /\ s_nextRequestId st' = s_nextRequestId st.
Proof.
  induction entries as [|[id tgt] rest IH]; intros st processed; [done|].
  simpl. destruct (bool_decide (id ∈ processed)); [apply IH|].
  destruct (IH (apply_to_member hdr rid request_info path_points st id tgt
                  (vsub tgt (target request_info))) (processed ++ [id]))
    as (H1 & H2 & H3 & H4).
  destruct (apply_to_member_frame st id tgt (vsub tgt (target request_info)))
    as (G1 & G2 & G3 & G4).
  simpl in *. repeat split; congruence.
Qed.

(** The entity [id] after the loop over the entries: reconciled once, with
    the destination of its first occurrence, unless it was processed
    before. *)
Lemma fold_add_member_lookup entries : forall st processed id,
  world (foldl (add_member hdr rid request_info path_points)
           (st, processed) entries).1 !! id
  = if bool_decide (id ∈ processed) then world st !! id
    else match assigned_target id entries with
         | Some tgt =>
             reconcile_entity hdr rid request_info path_points st tgt
               (vsub tgt (target request_info)) <$> world st !! id
         | None => world st !! id
         end.
Proof.
  induction entries as [|[id' tgt'] rest IH]; intros st processed id.
  { simpl. by destruct (bool_decide (id ∈ processed)). }
  simpl. destruct (bool_decide (id' ∈ processed)) eqn:Hin'.
  - rewrite IH. destruct (bool_decide (id ∈ processed)) eqn:Hin; [done|].
    destruct (N.eqb_spec id' id) as [->|Hne]; [congruence|done].
  - rewrite IH.
    set (st1 := apply_to_member hdr rid request_info path_points st id' tgt'
                  (vsub tgt' (target request_info))).
    apply bool_decide_eq_false in Hin'.
    destruct (N.eqb_spec id' id) as [->|Hne].
    + rewrite bool_decide_eq_true_2
        by (apply elem_of_app; right; apply list_elem_of_singleton; done).
      rewrite bool_decide_eq_false_2 by done.
      apply apply_to_member_lookup.
    + assert (Hw : world st1 !! id = world st !! id)
        by (apply apply_to_member_other; congruence).
      assert (Hpf : s_pathfinder st1 = s_pathfinder st)
        by apply apply_to_member_frame.
      destruct (bool_decide (id ∈ processed)) eqn:Hin.
      * apply bool_decide_eq_true in Hin.
        rewrite bool_decide_eq_true_2 by (apply elem_of_app; by left).
        exact Hw.
      * apply bool_decide_eq_false in Hin.
        rewrite bool_decide_eq_false_2
          by (intros [?|?%list_elem_of_singleton]%elem_of_app; congruence).
        rewrite Hw. destruct (assigned_target id rest) as [tgt|]; [|done].
        destruct (world st !! id); [|done]. simpl.
        by rewrite (reconcile_entity_pathfinder st1 st _ _ _ Hpf).
Qed.

End Reconciler.

Section ReconcilerRound.
Variable hdr : Header.

Lemma process_result_absent st result :
  s_pendingRequests st !! request_id result = None ->
  process_result hdr st result = st.
Proof. intros H. unfold process_result. by rewrite H. Qed.

Lemma process_result_pending st result :
  s_pendingRequests (process_result hdr st result)
  = delete (request_id result) (s_pendingRequests st).
Proof.
  unfold process_result.
  destruct (s_pendingRequests st !! request_id result) as [req|] eqn:Hreq.
  - match goal with |- context [foldl ?f (?s, ?p) ?l] =>
      destruct (fold_add_member_frame hdr (request_id result) req
                  (result_path result) l s p) as (_ & H & _)
    end.
    simpl in H. exact H.
  - by rewrite delete_id.
Qed.

Lemma process_result_pathfinder st result :
  s_pathfinder (process_result hdr st result) = s_pathfinder st.
Proof.
  unfold process_result.
  destruct (s_pendingRequests st !! request_id result) as [req|]; [|done].
  match goal with |- context [foldl ?f (?s, ?p) ?l] =>
    destruct (fold_add_member_frame hdr (request_id result) req
                (result_path result) l s p) as (H & _)
  end.
  simpl in H. exact H.
Qed.

(** The world after one round of the reconciler. *)
Lemma process_result_lookup st result req id :
  s_pendingRequests st !! request_id result = Some req ->
  world (process_result hdr st result) !! id
  = match assigned_target id (request_entries req) with
    | Some tgt =>
        reconcile_entity hdr (request_id result) req (result_path result) st
          tgt (vsub tgt (target req)) <$> world st !! id
    | None => world st !! id
    end.
Proof.
  intros Hreq. unfold process_result. rewrite Hreq.
  rewrite fold_add_member_lookup.
  rewrite bool_decide_eq_false_2 by apply not_elem_of_nil.
  simpl. destruct (assigned_target id (request_entries req)) as [tgt|]; [|done].
  destruct (world st !! id) as [e|]; done.
Qed.

Lemma foldl_process_result_pathfinder results : forall st,
  s_pathfinder (foldl (process_result hdr) st results) = s_pathfinder st.
Proof.
  induction results as [|r rest IH]; intros st; [done|].
  simpl. rewrite IH. apply process_result_pathfinder.
Qed.

Lemma foldl_process_result_keeps_absent results : forall st rid,
  s_pendingRequests st !! rid = None ->
  s_pendingRequests (foldl (process_result hdr) st results) !! rid = None.
Proof.
  induction results as [|r rest IH]; intros st rid Hnone; [done|].
  simpl. apply IH. rewrite process_result_pending.
  apply lookup_delete_None. by right.
Qed.

(** A request id met among the results is no longer in the ledger. *)
Lemma foldl_process_result_consumes results : forall st rid,
  rid ∈ request_id <$> results ->
  s_pendingRequests (foldl (process_result hdr) st results) !! rid = None.
Proof.
  induction results as [|r rest IH]; intros st rid Hin.
  { by apply elem_of_nil in Hin. }
  simpl in *. apply elem_of_cons in Hin as [->|Hin].
  - apply foldl_process_result_keeps_absent.
    rewrite process_result_pending. apply lookup_delete_eq.
  - by apply IH.
Qed.

Lemma assigned_target_listed id entries :
  id ∈ entries.*1 -> is_Some (assigned_target id entries).
Proof.
  induction entries as [|[id' tgt] rest IH]; intros Hin.
  { by apply elem_of_nil in Hin. }
  simpl in *. destruct (N.eqb_spec id' id) as [->|Hne]; [by eexists|].
  apply IH. apply elem_of_cons in Hin as [?|?]; [congruence|done].
Qed.

(** The owner is reconciled with the destination of the request. *)
Lemma assigned_target_owner req :
  assigned_target (entity_id req) (request_entries req) = Some (target req).
Proof. unfold request_entries. simpl. by rewrite N.eqb_refl. Qed.

End ReconcilerRound.

Section ReconcilerClaims.
Variable hdr : Header.

(** C2 (amended).  When a reconciled request lists an entity that no longer
    waits for it ([pathPending] false or another [pendingRequestId]), the
    round leaves every field of its movement state as it was except
    [pathPending] and [pendingRequestId]: an entity with a transform gets
    them reset to false and 0, an entity without a transform is not
    written at all. *)
Theorem C2_stale_member_loses_only_pending st result req id e mv :
  s_pendingRequests st !! request_id result = Some req ->
  id ∈ (request_entries req).*1 ->
  world st !! id = Some e ->
  movement e = Some mv ->
  pathPending mv = false \/ pendingRequestId mv ≠ request_id result ->
  exists mv',
    movement_of (process_result hdr st result) id = Some mv'
    /\ same_but_pending mv' mv
    /\ (is_Some (transform e) ->
        pathPending mv' = false /\ pendingRequestId mv' = 0%N)
    /\ (transform e = None -> mv' = mv).
Proof.
  intros Hreq Hin He Hmv Hstale.
  destruct (assigned_target_listed id _ Hin) as [tgt Htgt].
  unfold movement_of.
  rewrite (process_result_lookup hdr st result req id Hreq), Htgt, He.
  simpl. unfold reconcile_entity. rewrite Hmv.
  destruct (transform e) as [tr|] eqn:Htr.
  - assert (Hcond : negb (pathPending mv)
                    || negb (pendingRequestId mv =? request_id result)%N = true).
    { destruct Hstale as [->|Hne]; [done|].
      apply orb_true_iff. right. apply negb_true_iff. by apply N.eqb_neq. }
    rewrite Hcond. simpl. exists (drop_pending mv).
    split; [done|]. split; [by repeat split|]. split; [done|]. intros [=].
  - exists mv. rewrite Hmv.
    split; [done|]. split; [by repeat split|]. split; [|done].
    by intros [? [=]].
Qed.


(** C6.  A result whose request id was met among results already processed
    changes nothing when it is processed again: neither the world nor the
    ledger. *)
Theorem C6_second_reconciliation_is_noop st results result :
  request_id result ∈ request_id <$> results ->
  processPathResults hdr (processPathResults hdr st results) [result]
  = processPathResults hdr st results.
Proof.
  intros Hin. unfold processPathResults.
  destruct (s_pathfinder st) as [pf|] eqn:Hpf; [|by rewrite Hpf].
  rewrite foldl_process_result_pathfinder, Hpf. simpl.
  apply process_result_absent. by apply foldl_process_result_consumes.
Qed.

(** The same holds inside one batch: a result that repeats the request id
    of an earlier one of the batch is skipped. *)
Lemma repeated_result_in_batch_is_skipped st results result :
  request_id result ∈ request_id <$> results ->
  processPathResults hdr st (results ++ [result])
  = processPathResults hdr st results.
Proof.
  intros Hin. unfold processPathResults.
  destruct (s_pathfinder st); [|done].
  rewrite foldl_snoc. apply process_result_absent.
  by apply foldl_process_result_consumes.
Qed.

End ReconcilerClaims.

Lemma C2_witness :
  (s_pendingRequests demo_stale !! 5%N = Some demo_request_5
   /\ 1%N ∈ (request_entries demo_request_5).*1
   /\ world demo_stale !! 1%N = Some (waiting_soldier (-10) (-10) 7%N)
   /\ movement (waiting_soldier (-10) (-10) 7%N) = Some (waiting_for 7%N)
   /\ (pathPending (waiting_for 7%N) = false
       \/ pendingRequestId (waiting_for 7%N) ≠ 5%N))
  /\ exists mv',
       movement_of (process_result demo_header demo_stale (mkResult 5%N [])) 1%N
       = Some mv'
       /\ same_but_pending mv' (waiting_for 7%N)
       /\ (is_Some (transform (waiting_soldier (-10) (-10) 7%N)) ->
           pathPending mv' = false /\ pendingRequestId mv' = 0%N)
       /\ (transform (waiting_soldier (-10) (-10) 7%N) = None ->
           mv' = waiting_for 7%N).
Proof.
  assert (H1 : s_pendingRequests demo_stale !! 5%N = Some demo_request_5)
    by (vm_compute; reflexivity).
  assert (H2 : 1%N ∈ (request_entries demo_request_5).*1)
    by (simpl; apply elem_of_cons; by left).
  assert (H3 : world demo_stale !! 1%N = Some (waiting_soldier (-10) (-10) 7%N))
    by (vm_compute; reflexivity).
  assert (H4 : movement (waiting_soldier (-10) (-10) 7%N) = Some (waiting_for 7%N))
    by reflexivity.
  assert (H5 : pathPending (waiting_for 7%N) = false
               \/ pendingRequestId (waiting_for 7%N) ≠ 5%N)
    by (right; simpl; lia).
  split; [by repeat split|].
  exact (C2_stale_member_loses_only_pending demo_header demo_stale
           (mkResult 5%N []) demo_request_5 1%N _ _ H1 H2 H3 H4 H5).
Defined.

(** C2, as stated, fails: entity 1 waits for request 7 when the result of
    request 5, which lists it, is reconciled; the round clears its
    [pathPending] and [pendingRequestId]. *)
Lemma C2_counterexample :
  s_pendingRequests demo_stale !! 5%N = Some demo_request_5
  /\ entity_id demo_request_5 = 1%N
  /\ movement_of demo_stale 1%N = Some (waiting_for 7%N)
  /\ movement_of (processPathResults demo_header demo_stale [mkResult 5%N []]) 1%N
     = Some (drop_pending (waiting_for 7%N))
  /\ movement_of (processPathResults demo_header demo_stale [mkResult 5%N []]) 1%N
     ≠ movement_of demo_stale 1%N.
Proof.
  repeat split; try (vm_compute; reflexivity).
  vm_compute. intros [=].
Qed.


Lemma C6_witness :
  request_id (mkResult 5%N []) ∈ request_id <$> [mkResult 5%N [(15, 15)]]
  /\ processPathResults demo_header
       (processPathResults demo_header demo_waiting [mkResult 5%N [(15, 15)]])
       [mkResult 5%N []]
     = processPathResults demo_header demo_waiting [mkResult 5%N [(15, 15)]].
Proof.
  assert (H : request_id (mkResult 5%N [])
              ∈ request_id <$> [mkResult 5%N [(15, 15)]])
    by (simpl; apply elem_of_cons; by left).
  split; [exact H|].
  exact (C6_second_reconciliation_is_noop demo_header demo_waiting _ _ H).
Defined.

(** ** The request-id counter *)

Lemma fetch_add_id st : (fetch_add st).1 = s_nextRequestId st.
Proof. reflexivity. Qed.

Lemma fetch_add_counter st :
  s_nextRequestId (fetch_add st).2
  = ((s_nextRequestId st + 1) mod uint64_modulus)%N.
Proof. reflexivity. Qed.

Lemma initialize_counter hdr w h st :
  s_nextRequestId (initialize hdr w h st) = 1%N.
Proof. reflexivity. Qed.


(** ** The single-unit move resolver *)

Lemma no_new_request_refl st : no_new_request st st.
Proof. by intros rid. Qed.

Lemma no_new_request_trans st1 st2 st3 :
  no_new_request st1 st2 -> no_new_request st2 st3 -> no_new_request st1 st3.
Proof. intros H12 H23 rid H. by apply H12, H23. Qed.

Lemma foldl_remove_entry_None rid members : forall m id,
  m !! id = None -> foldl (remove_entry rid) m members !! id = None.
Proof.
  induction members as [|f rest IH]; intros m id Hnone; [done|].
  simpl. apply IH. unfold remove_entry.
  destruct (m !! f) as [r|]; [|done].
  destruct (r =? rid)%N; [|done].
  apply lookup_delete_None. by right.
Qed.

(** [clearPendingRequest] leaves the entity without an entry, and the
    request its entry named is no longer registered. *)
Lemma clearPendingRequest_unmapped id st :
  s_entityToRequest (clearPendingRequest id st) !! id = None.
Proof.
  unfold clearPendingRequest.
  destruct (s_entityToRequest st !! id) as [rid|] eqn:He; [|done].
  destruct (s_pendingRequests st !! rid); simpl.
  - apply foldl_remove_entry_None, lookup_delete_eq.
  - apply lookup_delete_eq.
Qed.

Lemma clearPendingRequest_request_gone id st rid :
  s_entityToRequest st !! id = Some rid ->
  s_pendingRequests (clearPendingRequest id st) !! rid = None.
Proof.
  intros He. unfold clearPendingRequest. rewrite He.
  destruct (s_pendingRequests st !! rid) eqn:Hp; simpl; [|done].
  apply lookup_delete_eq.
Qed.

Lemma clearPendingRequest_no_new id st :
  no_new_request st (clearPendingRequest id st).
Proof.
  intros r. unfold clearPendingRequest.
  destruct (s_entityToRequest st !! id) as [rid|]; [|done].
  destruct (s_pendingRequests st !! rid); simpl; [|done].
  rewrite lookup_delete_is_Some. tauto.
Qed.

Section SingleUnit.
Variable hdr : Header.

Lemma moveUnits_single st uid tgt opts :
  moveUnits hdr st [uid] [tgt] opts = moveUnit hdr opts st (uid, tgt).
Proof. unfold moveUnits. simpl. by rewrite andb_false_r. Qed.

Lemma moveUnits_ungrouped st units targets opts :
  length units = length targets ->
  groupMove opts = false ->
  moveUnits hdr st units targets opts = moveUnits_each hdr opts st units targets.
Proof.
  intros Hlen Hgrp. unfold moveUnits.
  rewrite Hlen, Nat.eqb_refl, Hgrp. reflexivity.
Qed.

Lemma exit_hold_mode_fields e :
  attack (exit_hold_mode e) = attack e
  /\ transform (exit_hold_mode e) = transform e
  /\ movement (exit_hold_mode e) = movement e
  /\ attackTarget (exit_hold_mode e) = attackTarget e
  /\ unit_component (exit_hold_mode e) = unit_component e
  /\ building (exit_hold_mode e) = building e.
Proof.
  unfold exit_hold_mode. destruct (holdMode e) as [h|]; [|done].
  by destruct (active h).
Qed.

(** What [resolve_unit] hands on. *)
Lemma resolve_unit_statics opts uid st :
  let st1 := (resolve_unit hdr opts uid st).1 in
  s_pathfinder st1 = s_pathfinder st
  /\ s_pendingRequests st1 = s_pendingRequests st
  /\ s_entityToRequest st1 = s_entityToRequest st
  /\ s_nextRequestId st1 = s_nextRequestId st.
Proof.
  unfold resolve_unit.
  destruct (world st !! uid) as [e|]; [|done].
  destruct (melee_locked (exit_hold_mode e)); [done|].
  destruct (transform (exit_hold_mode e)); done.
Qed.

Lemma resolve_unit_resolved opts uid st st1 tr mv :
  resolve_unit hdr opts uid st = (st1, Some (tr, mv)) ->
  exists e e1,
    world st !! uid = Some e
    /\ transform e = Some tr
    /\ melee_locked e = false
    /\ world st1 = <[uid := e1]> (world st)
    /\ movement e1 = Some mv
    /\ transform e1 = Some tr
    /\ attack e1 = attack e
    /\ unit_component e1 = unit_component e
    /\ building e1 = building e.
Proof.
  unfold resolve_unit. intros H.
  destruct (world st !! uid) as [e|]; [|by inversion H].
  destruct (exit_hold_mode_fields e) as (Ha & Ht & Hm & Hat & Hu & Hb).
  destruct (melee_locked (exit_hold_mode e)) eqn:Hlock; [by inversion H|].
  destruct (transform (exit_hold_mode e)) as [tr'|] eqn:Htr; [|by inversion H].
  inversion H; subst. clear H.
  exists e. eexists. split; [done|]. split; [congruence|].
  split; [unfold melee_locked in *; by rewrite <- Ha|].
  split; [reflexivity|].
  destruct (clearAttackIntent opts); simpl; repeat split; congruence.
Qed.

Lemma resolve_unit_dropped opts uid st st1 :
  resolve_unit hdr opts uid st = (st1, None) ->
  (world st !! uid = None /\ st1 = st)
  \/ exists e e1,
       world st !! uid = Some e
       /\ world st1 = <[uid := e1]> (world st)
       /\ movement e1 = movement e
       /\ transform e1 = transform e
       /\ attack e1 = attack e
       /\ attackTarget e1 = attackTarget e
       /\ unit_component e1 = unit_component e
       /\ building e1 = building e.
Proof.
  unfold resolve_unit. intros H.
  destruct (world st !! uid) as [e|]; [|left; by inversion H].
  right. destruct (exit_hold_mode_fields e) as (Ha & Ht & Hm & Hat & Hu & Hb).
  exists e, (exit_hold_mode e).
  destruct (melee_locked (exit_hold_mode e)).
  { inversion H; subst. by repeat split. }
  destruct (transform (exit_hold_mode e)); [by inversion H|].
  inversion H; subst. by repeat split.
Qed.

Lemma match_pending_frame opts uid tx tz mv st :
  let st' := (match_pending opts uid tx tz mv st).2 in
  world st' = world st
  /\ s_pathfinder st' = s_pathfinder st
  /\ s_nextRequestId st' = s_nextRequestId st
  /\ no_new_request st st'.
Proof.
  unfold match_pending.
  destruct (pathPending mv); [|repeat split; by intros ?].
  destruct (s_entityToRequest st !! uid) as [rid|]; [|repeat split; by intros ?].
  destruct (s_pendingRequests st !! rid) as [req|] eqn:Hreq;
    [|repeat split; by intros ?].
  destruct (within_same_target _ _ _ _); [|repeat split; by intros ?].
  simpl. repeat split. intros r. simpl.
  rewrite lookup_insert_is_Some. intros [<-|[_ ?]]; [by eexists|done].
Qed.

Lemma dedup_unit_frame opts uid tgt mv st r :
  dedup_unit opts uid tgt mv st = r ->
  let st' := match r with inl p => p.2 | inr p => p.2 end in
  world st' = world st
  /\ s_pathfinder st' = s_pathfinder st
  /\ s_nextRequestId st' = s_nextRequestId st
  /\ no_new_request st st'.
Proof.
  unfold dedup_unit. intros <-.
  pose proof (match_pending_frame opts uid (vec_x tgt) (vec_z tgt) mv st) as Hf.
  destruct (match_pending opts uid (vec_x tgt) (vec_z tgt) mv st) as [matched st'].
  simpl in Hf. destruct matched; [exact Hf|].
  destruct (cooldown_check _ _ _) as [flag skip].
  destruct skip; [exact Hf|].
  destruct (already_satisfied _ _ _); exact Hf.
Qed.

(** With a short way and the direct fallback allowed, [route_unit] snaps or
    takes the direct path. *)
Lemma route_unit_direct opts uid tgt tr mv st :
  allowDirectFallback opts = true ->
  manhattan (worldToGrid st (vec_x (position tr)) (vec_z (position tr)))
            (worldToGrid st (vec_x tgt) (vec_z tgt))
    <= DIRECT_PATH_THRESHOLD hdr ->
  exists mv',
    route_unit hdr opts uid tgt tr mv st = (mv', clearPendingRequest uid st)
    /\ hasTarget mv' = true
    /\ target_x mv' = vec_x tgt /\ target_y mv' = vec_z tgt
    /\ path mv' = [] /\ pathPending mv' = false /\ pendingRequestId mv' = 0%N.
Proof.
  intros Hallow Hman. unfold route_unit.
  destruct (s_pathfinder st) as [pf|] eqn:Hpf.
  - destruct (Point_eqb _ _); [eexists; by repeat split|].
    rewrite Hallow. simpl.
    apply Z.leb_le in Hman. rewrite Hman.
    eexists; by repeat split.
  - eexists; by repeat split.
Qed.

End SingleUnit.

Section DirectPath.
Variable hdr : Header.

Lemma match_pending_entry opts uid tx tz mv st rid :
  s_entityToRequest st !! uid = Some rid ->
  s_entityToRequest (match_pending opts uid tx tz mv st).2 !! uid = Some rid
  \/ s_pendingRequests st !! rid = None.
Proof.
  intros He. unfold match_pending.
  destruct (pathPending mv); [|by left].
  rewrite He.
  destruct (s_pendingRequests st !! rid) as [req|]; [|by right].
  destruct (within_same_target _ _ _ _); by left.
Qed.

Lemma dedup_unit_entry opts uid tgt mv st mv' st' rid :
  dedup_unit opts uid tgt mv st = inr (mv', st') ->
  s_entityToRequest st !! uid = Some rid ->
  s_entityToRequest st' !! uid = Some rid
  \/ s_pendingRequests st !! rid = None.
Proof.
  unfold dedup_unit. intros H He.
  pose proof (match_pending_entry opts uid (vec_x tgt) (vec_z tgt) mv st rid He)
    as Hm.
  destruct (match_pending opts uid (vec_x tgt) (vec_z tgt) mv st) as [matched st2].
  simpl in Hm. destruct matched; [done|].
  destruct (cooldown_check _ _ _) as [flag skip].
  destruct skip; [done|].
  destruct (already_satisfied _ _ _); [done|].
  by inversion H; subst.
Qed.

(** C4 (amended).  For a single-unit move with a pathfinder, the direct
    fallback allowed and the start and end cells at Manhattan distance at
    most [DIRECT_PATH_THRESHOLD]: no request is submitted, no id is
    allocated and no ledger entry is created; and when the command is not
    dropped before the decision (the entity exists with a transform, is not
    in melee lock, no request in flight is reused, the cooldown does not
    stop it and its target is not already the destination), the immediate
    target is the destination, the path is empty, nothing is pending, and
    the entity has no entry in the ledger any more. *)
Theorem C4_short_way_moves_directly opts st uid tgt :
  is_Some (s_pathfinder st) ->
  allowDirectFallback opts = true ->
  (forall e tr, world st !! uid = Some e -> transform e = Some tr ->
     manhattan (worldToGrid st (vec_x (position tr)) (vec_z (position tr)))
               (worldToGrid st (vec_x tgt) (vec_z tgt))
       <= DIRECT_PATH_THRESHOLD hdr) ->
  let st' := moveUnits hdr st [uid] [tgt] opts in
  (submitted_requests st' = submitted_requests st
   /\ s_nextRequestId st' = s_nextRequestId st
   /\ no_new_request st st')
  /\ forall st1 tr mv mv2 st2,
       resolve_unit hdr opts uid st = (st1, Some (tr, mv)) ->
       dedup_unit opts uid tgt mv st1 = inr (mv2, st2) ->
       exists mv',
         movement_of st' uid = Some mv'
         /\ hasTarget mv' = true
         /\ target_x mv' = vec_x tgt /\ target_y mv' = vec_z tgt
         /\ path mv' = [] /\ pathPending mv' = false
         /\ pendingRequestId mv' = 0%N
         /\ s_entityToRequest st' !! uid = None
         /\ forall rid, s_entityToRequest st !! uid = Some rid ->
                        s_pendingRequests st' !! rid = None.
Proof.
  intros _ Hallow Hman st'. subst st'. rewrite moveUnits_single.
  unfold moveUnit.
  pose proof (resolve_unit_statics hdr opts uid st) as (Rp & Rq & Re & Rc).
  destruct (resolve_unit hdr opts uid st) as [st1 [[tr mv]|]] eqn:Hres;
    simpl in Rp, Rq, Re, Rc.
  2:{ split; [|intros ? ? ? ? ? [=]].
      unfold submitted_requests. rewrite Rp, Rc. repeat split.
      intros r. by rewrite Rq. }
  destruct (resolve_unit_resolved hdr opts uid st st1 tr mv Hres)
    as (e & e1 & He & Htr & _ & Hw1 & Hmv1 & _).
  pose proof (dedup_unit_frame opts uid tgt mv st1 _ eq_refl) as Hd.
  destruct (dedup_unit opts uid tgt mv st1) as [[mv2 st2]|[mv2 st2]] eqn:Hdedup;
    simpl in Hd; destruct Hd as (Dw & Dp & Dc & Dn).
  { split; [|intros ? ? ? ? ? [= <- <- <-] Hd2; by rewrite Hdedup in Hd2].
    unfold submitted_requests. simpl. rewrite Dp, Rp, Dc, Rc. repeat split.
    intros r Hr. simpl in Hr. apply Dn in Hr. rewrite Rq in Hr. exact Hr. }
  assert (Hman2 :
    manhattan (worldToGrid st2 (vec_x (position tr)) (vec_z (position tr)))
              (worldToGrid st2 (vec_x tgt) (vec_z tgt))
      <= DIRECT_PATH_THRESHOLD hdr).
  { rewrite !(worldToGrid_pathfinder st2 st) by congruence. eauto. }
  destruct (route_unit_direct hdr opts uid tgt tr mv2 st2 Hallow Hman2)
    as (mv' & Hroute & Hh & Hx & Hy & Hpath & Hpend & Hid).
  rewrite Hroute.
  assert (Hnew : no_new_request st (clearPendingRequest uid st2)).
  { intros r Hr. apply clearPendingRequest_no_new, Dn in Hr.
    rewrite Rq in Hr. exact Hr. }
  split.
  { unfold submitted_requests. simpl.
    rewrite clearPendingRequest_pathfinder, clearPendingRequest_counter.
    rewrite Dp, Rp, Dc, Rc. by repeat split. }
  intros st1' tr' mv0 mv2' st2' [= <- <- <-] Hd2.
  rewrite Hdedup in Hd2. injection Hd2 as <- <-.
  exists mv'. unfold movement_of. unfold store_movement.
  rewrite update_movement_lookup, clearPendingRequest_world, Dw, Hw1.
  rewrite lookup_insert_eq. simpl. rewrite Hmv1. simpl.
  repeat (split; [done|]). split.
  { apply clearPendingRequest_unmapped. }
  intros rid Hrid. rewrite <- Re in Hrid.
  destruct (dedup_unit_entry opts uid tgt mv st1 mv2 st2 rid Hdedup Hrid)
    as [Hkeep|Hgone].
  - by apply clearPendingRequest_request_gone.
  - destruct (s_pendingRequests (clearPendingRequest uid st2) !! rid) eqn:Hl;
      [|done].
    assert (Hs : is_Some (s_pendingRequests st !! rid))
      by (apply Hnew; by eexists).
    rewrite <- Rq, Hgone in Hs. by destruct Hs.
Qed.

End DirectPath.

(** ** Entities under the single-unit resolver *)

Lemma movement_of_update uid f st id :
  movement_of (update_movement uid f st) id
  = if decide (id = uid) then f <$> movement_of st id else movement_of st id.
Proof.
  unfold movement_of. destruct (decide (id = uid)) as [->|Hne].
  - rewrite update_movement_lookup. by destruct (world st !! uid).
  - by rewrite update_movement_other.
Qed.

Lemma update_movement_statics uid f st :
  let st' := update_movement uid f st in
  s_pathfinder st' = s_pathfinder st
  /\ s_pendingRequests st' = s_pendingRequests st
  /\ s_entityToRequest st' = s_entityToRequest st
  /\ s_nextRequestId st' = s_nextRequestId st.
Proof. done. Qed.

Lemma update_movement_entity uid f st id e :
  world st !! id = Some e ->
  exists e', world (update_movement uid f st) !! id = Some e'
             /\ transform e' = transform e
             /\ (is_Some (movement e) -> is_Some (movement e')).
Proof.
  intros He. destruct (decide (id = uid)) as [->|Hne].
  - rewrite update_movement_lookup, He. simpl. eexists. split; [done|].
    split; [done|]. simpl. intros [mv ->]. by eexists.
  - rewrite update_movement_other by done. eauto.
Qed.

Section SingleUnitEntities.
Variable hdr : Header.

Lemma supersede_existing_world opts uid tx tz st :
  world (supersede_existing opts uid tx tz st).2 = world st.
Proof.
  unfold supersede_existing.
  destruct (s_entityToRequest st !! uid) as [rid|]; [|done].
  destruct (s_pendingRequests st !! rid) as [req|]; [|done].
  by destruct (within_same_target _ _ _ _).
Qed.

Lemma route_unit_world opts uid tgt tr mv st :
  world (route_unit hdr opts uid tgt tr mv st).2 = world st.
Proof.
  unfold route_unit.
  destruct (s_pathfinder st); [|apply clearPendingRequest_world].
  destruct (Point_eqb _ _); [apply clearPendingRequest_world|].
  destruct (if negb (allowDirectFallback opts) then false else _);
    [apply clearPendingRequest_world|].
  pose proof (supersede_existing_world opts uid (vec_x tgt) (vec_z tgt) st) as Hw.
  destruct (supersede_existing opts uid (vec_x tgt) (vec_z tgt) st) as [skip st2].
  simpl in Hw. by destruct skip.
Qed.

(** [moveUnit] keeps every entity, its transform, and its movement
    component if it has one. *)
Lemma moveUnit_entity opts st ut id e :
  world st !! id = Some e ->
  exists e', world (moveUnit hdr opts st ut) !! id = Some e'
             /\ transform e' = transform e
             /\ (is_Some (movement e) -> is_Some (movement e')).
Proof.
  intros He. destruct ut as [uid tgt]. unfold moveUnit.
  destruct (resolve_unit hdr opts uid st) as [st1 [[tr mv]|]] eqn:Hres.
  - destruct (resolve_unit_resolved hdr opts uid st st1 tr mv Hres)
      as (e0 & e1 & He0 & Htr & _ & Hw1 & Hmv1 & Htr1 & _).
    assert (H1 : exists e1', world st1 !! id = Some e1'
                   /\ transform e1' = transform e
                   /\ (is_Some (movement e) -> is_Some (movement e1'))).
    { rewrite Hw1. destruct (decide (id = uid)) as [->|Hne].
      - rewrite lookup_insert_eq. exists e1. split; [done|].
        split; [congruence|]. intros _. by eexists.
      - rewrite lookup_insert_ne by done. eauto. }
    destruct H1 as (e1' & He1' & Ht1' & Hm1').
    pose proof (dedup_unit_frame opts uid tgt mv st1 _ eq_refl) as Hd.
    destruct (dedup_unit opts uid tgt mv st1) as [[mv2 st2]|[mv2 st2]];
      simpl in Hd; destruct Hd as (Dw & _).
    + rewrite <- Dw in He1'.
      destruct (update_movement_entity uid (fun _ => mv2) st2 id e1' He1')
        as (e' & ? & ? & ?).
      exists e'. split; [done|]. split; [congruence|]. auto.
    + pose proof (route_unit_world opts uid tgt tr mv2 st2) as Rw.
      destruct (route_unit hdr opts uid tgt tr mv2 st2) as [mv3 st3].
      simpl in Rw. rewrite <- Dw, <- Rw in He1'.
      destruct (update_movement_entity uid (fun _ => mv3) st3 id e1' He1')
        as (e' & ? & ? & ?).
      exists e'. split; [done|]. split; [congruence|]. auto.
  - destruct (resolve_unit_dropped hdr opts uid st st1 Hres)
      as [[_ ->]|(e0 & e1 & He0 & Hw1 & Hmv1 & Htr1 & _)]; [eauto|].
    rewrite Hw1. destruct (decide (id = uid)) as [->|Hne].
    + rewrite lookup_insert_eq. exists e1.
      assert (e0 = e) by congruence. subst e0.
      split; [done|]. split; [done|]. by rewrite Hmv1.
    + rewrite lookup_insert_ne by done. eauto.
Qed.

Lemma moveUnits_each_entity opts units targets : forall st id e,
  world st !! id = Some e ->
  exists e', world (moveUnits_each hdr opts st units targets) !! id = Some e'
             /\ transform e' = transform e
             /\ (is_Some (movement e) -> is_Some (movement e')).
Proof.
  unfold moveUnits_each. generalize (zip units targets). clear units targets.
  intros uts. induction uts as [|ut rest IH]; intros st id e He.
  { simpl. eauto. }
  simpl. destruct (moveUnit_entity opts st ut id e He) as (e1 & He1 & Ht1 & Hm1).
  destruct (IH _ id e1 He1) as (e' & He' & Ht' & Hm').
  exists e'. split; [done|]. split; [congruence|]. auto.
Qed.

Lemma moveUnits_each_keeps_movement opts units targets st id :
  is_Some (movement_of st id) ->
  is_Some (movement_of (moveUnits_each hdr opts st units targets) id).
Proof.
  unfold movement_of. intros [mv Hmv].
  destruct (world st !! id) as [e|] eqn:He; [|done]. simpl in Hmv.
  destruct (moveUnits_each_entity opts units targets st id e He)
    as (e' & -> & _ & Hm).
  simpl. apply Hm. by eexists.
Qed.

End SingleUnitEntities.

(** ** The ledger under cancellation and reconciliation

    [clearPendingRequest] and the reconciler erase a request together with
    the entries of all its members: a ledger as the resolvers register it
    stays consistent under both. *)

Lemma ledger_wf_consistent st : ledger_wf st -> ledger_consistent st.
Proof.
  intros [HA HB]. split.
  - intros e rid He. destruct (HA e rid He) as (req & -> & _). by eexists.
  - intros rid req Hreq. apply Forall_forall. intros f Hf. eauto.
Qed.

Lemma remove_entry_subseteq rid m f e r :
  remove_entry rid m f !! e = Some r -> m !! e = Some r.
Proof.
  unfold remove_entry. destruct (m !! f) as [r'|]; [|done].
  destruct (r' =? rid)%N; [|done].
  intros H. by apply lookup_delete_Some in H as [_ ?].
Qed.

Lemma remove_entry_other rid m f e r :
  m !! e = Some r -> r ≠ rid -> remove_entry rid m f !! e = Some r.
Proof.
  intros He Hr. unfold remove_entry.
  destruct (m !! f) as [r'|] eqn:Hf; [|done].
  destruct (N.eqb_spec r' rid) as [->|?]; [|done].
  rewrite lookup_delete_ne; [done|]. intros ->. congruence.
Qed.

Lemma foldl_remove_entry_subseteq rid members : forall m e r,
  foldl (remove_entry rid) m members !! e = Some r -> m !! e = Some r.
Proof.
  induction members as [|f rest IH]; intros m e r H; [done|].
  simpl in H. by apply IH, remove_entry_subseteq in H.
Qed.

Lemma foldl_remove_entry_other rid members : forall m e r,
  m !! e = Some r -> r ≠ rid ->
  foldl (remove_entry rid) m members !! e = Some r.
Proof.
  induction members as [|f rest IH]; intros m e r He Hr; [done|].
  simpl. apply IH; [|done]. by apply remove_entry_other.
Qed.

(** The entries of the members of the erased request are erased. *)
Lemma foldl_remove_entry_member rid members : forall m e,
  e ∈ members -> foldl (remove_entry rid) m members !! e ≠ Some rid.
Proof.
  induction members as [|f rest IH]; intros m e Hin.
  { by apply elem_of_nil in Hin. }
  simpl. destruct (decide (e = f)) as [->|Hne].
  - destruct (remove_entry rid m f !! f) as [r|] eqn:Hf.
    + intros H. apply foldl_remove_entry_subseteq in H.
      unfold remove_entry in H, Hf.
      destruct (m !! f) as [r'|] eqn:Hm; [|congruence].
      destruct (N.eqb_spec r' rid) as [->|?].
      * by rewrite lookup_delete_eq in Hf.
      * congruence.
    + by rewrite foldl_remove_entry_None.
  - apply IH. apply elem_of_cons in Hin as [?|?]; [done|done].
Qed.

Lemma clearPendingRequest_cascades id st rid req follower :
  s_entityToRequest st !! id = Some rid ->
  s_pendingRequests st !! rid = Some req ->
  follower ∈ groupMembers req ->
  s_entityToRequest (clearPendingRequest id st) !! follower ≠ Some rid.
Proof.
  intros Hid Hreq Hf. unfold clearPendingRequest. rewrite Hid, Hreq. simpl.
  by apply foldl_remove_entry_member.
Qed.

Lemma clearPendingRequest_keeps_wf id st :
  ledger_wf st -> ledger_wf (clearPendingRequest id st).
Proof.
  intros [HA HB]. unfold clearPendingRequest.
  destruct (s_entityToRequest st !! id) as [rid|] eqn:Hid; [|done].
  destruct (HA id rid Hid) as (req & Hreq & Hown). rewrite Hreq.
  split; simpl.
  - intros e r He.
    pose proof (foldl_remove_entry_subseteq _ _ _ _ _ He) as He0.
    apply lookup_delete_Some in He0 as [Hne He0].
    destruct (HA e r He0) as (req' & Hreq' & Hown').
    assert (Hr : r ≠ rid).
    { intros ->. assert (req' = req) by congruence. subst req'.
      destruct Hown' as [Hin|[Hnil Howner]].
      - by apply (foldl_remove_entry_member rid (groupMembers req)
                    (delete id (s_entityToRequest st)) e Hin).
      - destruct Hown as [Hin|[_ Howner']]; [|congruence].
        rewrite Hnil in Hin. by apply elem_of_nil in Hin. }
    exists req'. by rewrite lookup_delete_ne.
  - intros r req' f Hreq' Hf.
    apply lookup_delete_Some in Hreq' as [Hr Hreq'].
    pose proof (HB r req' f Hreq' Hf) as He.
    assert (Hfid : f ≠ id) by (intros ->; congruence).
    apply foldl_remove_entry_other; [|done].
    by rewrite lookup_delete_ne.
Qed.

(** Cancelling the follower through [clearPendingRequest] instead keeps
    the ledger of [demo_grouped] consistent. *)
Example cancel_follower_keeps_ledger :
  ledger_consistent (clearPendingRequest 2%N demo_grouped)
  /\ s_entityToRequest (clearPendingRequest 2%N demo_grouped) = ∅
  /\ s_pendingRequests (clearPendingRequest 2%N demo_grouped) = ∅.
Proof.
  split; [apply (bool_decide_unpack _); vm_compute; exact I|].
  split; vm_compute; reflexivity.
Qed.

Section LedgerRounds.
Variable hdr : Header.

Lemma initialize_wf w h st : ledger_wf (initialize hdr w h st).
Proof. split; simpl; intros ? ? ?; [|intros ?]; by rewrite lookup_empty. Qed.

Lemma process_result_entities st result req :
  s_pendingRequests st !! request_id result = Some req ->
  s_entityToRequest (process_result hdr st result)
  = foldl (remove_entry (request_id result))
      (remove_entry (request_id result) (s_entityToRequest st) (entity_id req))
      (groupMembers req).
Proof.
  intros Hreq. unfold process_result. rewrite Hreq.
  match goal with |- context [foldl ?f (?s, ?p) ?l] =>
    destruct (fold_add_member_frame hdr (request_id result) req
                (result_path result) l s p) as (_ & _ & H & _)
  end.
  simpl in H. exact H.
Qed.

Lemma process_result_keeps_wf st result :
  ledger_wf st -> ledger_wf (process_result hdr st result).
Proof.
  intros [HA HB].
  destruct (s_pendingRequests st !! request_id result) as [req|] eqn:Hreq.
  2:{ by rewrite process_result_absent. }
  set (rid := request_id result) in *.
  split.
  - intros e r. rewrite process_result_pending,
      (process_result_entities st result req Hreq). fold rid. intros He.
    pose proof (remove_entry_subseteq _ _ _ _ _
                  (foldl_remove_entry_subseteq _ _ _ _ _ He)) as He0.
    destruct (HA e r He0) as (req' & Hreq' & Hown').
    assert (Hr : r ≠ rid).
    { intros ->. assert (req' = req) by congruence. subst req'.
      destruct Hown' as [Hin|[_ <-]].
      - by apply (foldl_remove_entry_member rid (groupMembers req)
                    (remove_entry rid (s_entityToRequest st) (entity_id req))
                    e Hin).
      - apply foldl_remove_entry_subseteq in He.
        unfold remove_entry in He. rewrite He0, N.eqb_refl in He.
        by rewrite lookup_delete_eq in He. }
    exists req'. by rewrite lookup_delete_ne.
  - intros r req' f. rewrite process_result_pending,
      (process_result_entities st result req Hreq). fold rid.
    intros Hreq' Hf. apply lookup_delete_Some in Hreq' as [Hr Hreq'].
    apply foldl_remove_entry_other; [|done].
    apply remove_entry_other; [|done]. eauto.
Qed.

(** The reconciler keeps a ledger as the resolvers register it consistent. *)
Lemma processPathResults_keeps_wf results : forall st,
  ledger_wf st -> ledger_wf (processPathResults hdr st results).
Proof.
  intros st Hwf. unfold processPathResults.
  destruct (s_pathfinder st); [|done].
  revert st Hwf. induction results as [|r rest IH]; intros st Hwf; [done|].
  simpl. by apply IH, process_result_keeps_wf.
Qed.

(** The part of the cooldown rule the code does implement: when the
    [continue] of line 201 is taken, the command only records the goal
    (after the hold stance, the attack intent and a stale entry of the
    entity have been dealt with); no id is allocated, nothing is registered
    or submitted. *)
Lemma cooldown_continue_records_goal_only opts st uid tgt st1 tr mv flag :
  resolve_unit hdr opts uid st = (st1, Some (tr, mv)) ->
  cooldown_check (Mv.set_goalY (vec_z tgt) (Mv.set_goalX (vec_x tgt) mv))
    (vec_x tgt) (vec_z tgt) = (flag, true) ->
  let st' := moveUnits hdr st [uid] [tgt] opts in
  movement_of st' uid
  = Some (Mv.set_goalY (vec_z tgt) (Mv.set_goalX (vec_x tgt) mv))
  /\ submitted_requests st' = submitted_requests st
  /\ s_nextRequestId st' = s_nextRequestId st
  /\ no_new_request st st'.
Proof.
  intros Hres Hcool st'. subst st'. rewrite moveUnits_single.
  unfold moveUnit. rewrite Hres.
  pose proof (resolve_unit_statics hdr opts uid st) as (Rp & Rq & Re & Rc).
  rewrite Hres in Rp, Rq, Re, Rc. simpl in Rp, Rq, Re, Rc.
  destruct (resolve_unit_resolved hdr opts uid st st1 tr mv Hres)
    as (e & e1 & He & Htr & _ & Hw1 & Hmv1 & _).
  unfold dedup_unit.
  pose proof (match_pending_frame opts uid (vec_x tgt) (vec_z tgt) mv st1)
    as (Mw & Mp & Mc & Mn).
  destruct (match_pending opts uid (vec_x tgt) (vec_z tgt) mv st1)
    as [matched st2].
  simpl in Mw, Mp, Mc, Mn.
  assert (Hgoal : forall st3 m, world st3 = world st1 ->
            movement_of (store_movement uid m st3) uid = Some m).
  { intros st3 m Hw3. unfold store_movement. rewrite movement_of_update.
    rewrite decide_True by done. unfold movement_of.
    rewrite Hw3, Hw1, lookup_insert_eq. simpl. by rewrite Hmv1. }
  assert (Hrest : submitted_requests (store_movement uid
                    (Mv.set_goalY (vec_z tgt) (Mv.set_goalX (vec_x tgt) mv)) st2)
                  = submitted_requests st
                  /\ s_nextRequestId st2 = s_nextRequestId st
                  /\ no_new_request st st2).
  { unfold submitted_requests. simpl. rewrite Mp, Rp, Mc, Rc.
    repeat split. intros r Hr. apply Mn in Hr. by rewrite Rq in Hr. }
  destruct matched.
  - split; [by apply Hgoal|exact Hrest].
  - rewrite Hcool. split; [by apply Hgoal|exact Hrest].
Qed.

End LedgerRounds.

(** The scenario of the specification: the result of a request is a path of
    three cells; the start cell is left out, the other two become the
    waypoints in world space, and the first of them the immediate target. *)
Example reconcile_scenario :
  let st := processPathResults demo_header demo_far_requested
              [mkResult 1%N [(15, 15); (20, 20); (35, 35)]] in
  (path <$> movement_of st 1%N)
  = Some [(F32.neg (F32.lit 9 2), F32.neg (F32.lit 9 2));
          (F32.lit 21 2, F32.lit 21 2)]
  /\ (pathPending <$> movement_of st 1%N) = Some false
  /\ (hasTarget <$> movement_of st 1%N) = Some true
  /\ (target_x <$> movement_of st 1%N) = Some (F32.neg (F32.lit 9 2))
  /\ s_pendingRequests st = ∅ /\ s_entityToRequest st = ∅.
Proof. repeat split; vm_compute; reflexivity. Qed.

(** ** The examples of the single-unit resolver *)

(** C4, as stated, fails: the soldier of [demo_near_moved] stands on cell
    (25,25), has a transform and is not in melee lock; the order to (3,0),
    cell (28,25), is three cells away with the direct fallback allowed; it
    comes within the cooldown of the order to (2,0), one world unit from
    it, and is dropped: the immediate target stays (2,0). *)
Lemma C4_counterexample :
  is_Some (s_pathfinder demo_near_moved)
  /\ allowDirectFallback options_default = true
  /\ worldToGrid demo_near_moved (F32.of_Z 0) (F32.of_Z 0) = (25, 25)
  /\ worldToGrid demo_near_moved (F32.of_Z 3) (F32.of_Z 0) = (28, 25)
  /\ manhattan (25, 25) (28, 25) <= DIRECT_PATH_THRESHOLD demo_header
  /\ exists mv',
       movement_of demo_near_again 1%N = Some mv'
       /\ target_x mv' = F32.of_Z 2
       /\ target_x mv' ≠ vec_x (vec 3 0).
Proof.
  split; [by eexists|]. split; [reflexivity|].
  split; [vm_compute; reflexivity|]. split; [vm_compute; reflexivity|].
  split; [vm_compute; intros [=]|].
  eexists. split; [vm_compute; reflexivity|].
  split; [vm_compute; reflexivity|]. vm_compute. intros [=].
Qed.

Lemma C4_witness :
  (is_Some (s_pathfinder demo_near)
   /\ allowDirectFallback options_default = true
   /\ (forall e tr, world demo_near !! 1%N = Some e -> transform e = Some tr ->
         manhattan
           (worldToGrid demo_near (vec_x (position tr)) (vec_z (position tr)))
           (worldToGrid demo_near (vec_x (vec 2 0)) (vec_z (vec 2 0)))
         <= DIRECT_PATH_THRESHOLD demo_header))
  /\ let st' := moveUnits demo_header demo_near [1%N] [vec 2 0] options_default in
     (submitted_requests st' = submitted_requests demo_near
      /\ s_nextRequestId st' = s_nextRequestId demo_near
      /\ no_new_request demo_near st')
     /\ forall st1 tr mv mv2 st2,
          resolve_unit demo_header options_default 1%N demo_near
          = (st1, Some (tr, mv)) ->
          dedup_unit options_default 1%N (vec 2 0) mv st1 = inr (mv2, st2) ->
          exists mv',
            movement_of st' 1%N = Some mv'
            /\ hasTarget mv' = true
            /\ target_x mv' = vec_x (vec 2 0) /\ target_y mv' = vec_z (vec 2 0)
            /\ path mv' = [] /\ pathPending mv' = false
            /\ pendingRequestId mv' = 0%N
            /\ s_entityToRequest st' !! 1%N = None
            /\ forall rid, s_entityToRequest demo_near !! 1%N = Some rid ->
                           s_pendingRequests st' !! rid = None.
Proof.
  assert (H1 : is_Some (s_pathfinder demo_near)) by (by eexists).
  assert (H2 : allowDirectFallback options_default = true) by reflexivity.
  assert (H3 : forall e tr, world demo_near !! 1%N = Some e ->
                 transform e = Some tr ->
                 manhattan
                   (worldToGrid demo_near (vec_x (position tr)) (vec_z (position tr)))
                   (worldToGrid demo_near (vec_x (vec 2 0)) (vec_z (vec 2 0)))
                 <= DIRECT_PATH_THRESHOLD demo_header).
  { intros e tr He Htr. vm_compute in He. injection He as <-.
    vm_compute in Htr. injection Htr as <-. vm_compute. intros [=]. }
  split; [by repeat split|].
  exact (C4_short_way_moves_directly demo_header options_default demo_near
           1%N (vec 2 0) H1 H2 H3).
Defined.

(** The scenario of the specification: a unit two cells from its
    destination with the direct fallback allowed gets the destination as
    its immediate target; nothing is submitted and the ledger stays
    empty. *)
Example direct_move_scenario :
  (target_x <$> movement_of demo_near_moved 1%N) = Some (F32.of_Z 2)
  /\ (hasTarget <$> movement_of demo_near_moved 1%N) = Some true
  /\ submitted_requests demo_near_moved = []
  /\ s_pendingRequests demo_near_moved = ∅
  /\ s_entityToRequest demo_near_moved = ∅.
Proof. repeat split; vm_compute; reflexivity. Qed.

(** C3: the code at the failing input.  The soldier of [demo_far_failed]
    asked for a path to (10,10) in this very tick
    ([timeSinceLastPathRequest] is 0), has no target and waits for nothing.
    The same order again sets [should_suppress_path_request]
    ([cooldown_check] answers [(true, false)]), and yet request 2 is
    allocated, registered and submitted. *)
Theorem C3_suppressed_request_is_issued :
  (exists mv,
     movement_of demo_far_failed 1%N = Some mv
     /\ hasTarget mv = false /\ pathPending mv = false
     /\ F32.ltb (timeSinceLastPathRequest mv) pathfinding_request_cooldown = true
     /\ lastGoalX mv = F32.of_Z 10 /\ lastGoalY mv = F32.of_Z 10
     /\ cooldown_check mv (F32.of_Z 10) (F32.of_Z 10) = (true, false))
  /\ submitted_requests demo_far_failed = [(1%N, (15, 15), (35, 35))]
  /\ s_pendingRequests demo_far_failed = ∅
  /\ submitted_requests demo_far_again
     = [(1%N, (15, 15), (35, 35)); (2%N, (15, 15), (35, 35))]
  /\ s_pendingRequests demo_far_again !! 2%N
     = Some (mkPending 1%N (vec 10 10) options_async [] [])
  /\ s_nextRequestId demo_far_again = 3%N.
Proof.
  split.
  { eexists. split; [vm_compute; reflexivity|].
    repeat split; vm_compute; reflexivity. }
  repeat split; vm_compute; reflexivity.
Qed.

(** C1: the code at the failing input.  After the group order of
    [demo_grouped] the ledger is consistent: request 1 is owned by the
    leader 1 and lists 1 and 2, and both map to it.  The single order to
    the follower 2 erases request 1 and the entry of 2 only; the leader
    keeps its entry to the erased request and goes on waiting for it. *)
Theorem C1_superseding_follower_leaves_dangling_entry :
  ledger_consistent demo_two
  /\ ledger_consistent demo_grouped
  /\ (groupMembers <$> s_pendingRequests demo_grouped !! 1%N) = Some [1%N; 2%N]
  /\ s_entityToRequest demo_superseded !! 1%N = Some 1%N
  /\ s_pendingRequests demo_superseded !! 1%N = None
  /\ (pendingRequestId <$> movement_of demo_superseded 1%N) = Some 1%N
  /\ (pathPending <$> movement_of demo_superseded 1%N) = Some true
  /\ ~ ledger_consistent demo_superseded.
Proof.
  split; [apply (bool_decide_unpack _); vm_compute; exact I|].
  split; [apply (bool_decide_unpack _); vm_compute; exact I|].
  repeat (split; [vm_compute; reflexivity|]).
  apply (bool_decide_eq_false_1 _). vm_compute. reflexivity.
Qed.

(** ** The group move resolver *)

Section GroupMove.
Variable hdr : Header.

Lemma movement_kept_refl o : movement_kept hdr o o.
Proof. destruct o; simpl; auto. Qed.

Lemma movement_kept_trans a b c :
  movement_kept hdr a b -> movement_kept hdr b c -> movement_kept hdr a c.
Proof.
  destruct a as [ea|], b as [eb|], c as [ec|]; simpl; try tauto.
  intros [H1|[H1 H1']] [H2|[H2 H2']]; try (left; congruence);
    try (right; split; congruence).
Qed.

Lemma movement_kept_is_Some a b :
  movement_kept hdr a b -> is_Some (a ≫= movement) -> is_Some (b ≫= movement).
Proof.
  destruct a as [ea|], b as [eb|]; simpl; try tauto.
  intros [->|[-> ->]]; [done|by eexists].
Qed.

(** One round of the collecting loop. *)
Lemma collect_member_frame opts acc ut :
  let acc' := collect_member hdr opts acc ut in
  s_pathfinder acc'.1 = s_pathfinder acc.1
  /\ s_pendingRequests acc'.1 = s_pendingRequests acc.1
  /\ s_entityToRequest acc'.1 = s_entityToRequest acc.1
  /\ s_nextRequestId acc'.1 = s_nextRequestId acc.1
  /\ (forall id, movement_kept hdr (world acc.1 !! id) (world acc'.1 !! id))
  /\ (acc'.2 = acc.2
      \/ exists m, acc'.2 = acc.2 ++ [m]
                   /\ member_id m = ut.1
                   /\ is_Some (movement_of acc'.1 (member_id m))).
Proof.
  destruct acc as [st members], ut as [uid tgt]. unfold collect_member.
  destruct (world st !! uid) as [e|] eqn:He.
  2:{ simpl. repeat split; auto using movement_kept_refl. }
  destruct (exit_hold_mode_fields e) as (Ha & Ht & Hm & Hat & Hu & Hb).
  destruct (transform (exit_hold_mode e)) as [tr|] eqn:Htr.
  2:{ simpl. repeat split; auto. intros id.
      destruct (decide (id = uid)) as [->|Hne].
      - rewrite lookup_insert_eq, He. simpl. by left.
      - rewrite lookup_insert_ne by done. apply movement_kept_refl. }
  assert (Hkept : forall e1, movement e1
                  = Some (default (defaultMovement hdr) (movement (exit_hold_mode e))) ->
            forall id, movement_kept hdr (world st !! id)
                         (<[uid := e1]> (world st) !! id)).
  { intros e1 He1 id. destruct (decide (id = uid)) as [->|Hne].
    - rewrite lookup_insert_eq, He. simpl. rewrite He1, Hm.
      destruct (movement e); simpl; [by left|by right].
    - rewrite lookup_insert_ne by done. apply movement_kept_refl. }
  destruct (clearAttackIntent opts); simpl.
  - repeat split; auto. right. eexists. split; [reflexivity|]. split; [done|].
    unfold movement_of. simpl. rewrite lookup_insert_eq. by eexists.
  - repeat split; auto. right. eexists. split; [reflexivity|]. split; [done|].
    unfold movement_of. simpl. rewrite lookup_insert_eq. by eexists.
Qed.

(** The collecting loop writes to the world only, there only attaches
    default movement components, and every member it collects has a
    movement component. *)
Lemma foldl_collect_member_frame opts uts : forall acc,
  (forall m, m ∈ acc.2 -> is_Some (movement_of acc.1 (member_id m))) ->
  let acc' := foldl (collect_member hdr opts) acc uts in
  s_pathfinder acc'.1 = s_pathfinder acc.1
  /\ s_pendingRequests acc'.1 = s_pendingRequests acc.1
  /\ s_entityToRequest acc'.1 = s_entityToRequest acc.1
  /\ s_nextRequestId acc'.1 = s_nextRequestId acc.1
  /\ (forall id, movement_kept hdr (world acc.1 !! id) (world acc'.1 !! id))
  /\ (forall m, m ∈ acc'.2 -> is_Some (movement_of acc'.1 (member_id m)))
  /\ (length acc'.2 <= length acc.2 + length uts)%nat.
Proof.
  induction uts as [|ut rest IH]; intros acc Hacc.
  { simpl. repeat split; auto using movement_kept_refl. lia. }
  simpl.
  destruct (collect_member_frame opts acc ut) as (F1 & F2 & F3 & F4 & F5 & F6).
  set (acc1 := collect_member hdr opts acc ut) in *.
  assert (Hacc1 : forall m, m ∈ acc1.2 -> is_Some (movement_of acc1.1 (member_id m))).
  { intros m Hm. destruct F6 as [Heq|(m' & Heq & _ & Hmv)]; rewrite Heq in Hm.
    - apply (movement_kept_is_Some _ _ (F5 (member_id m))). by apply Hacc.
    - apply elem_of_app in Hm as [Hm|Hm%list_elem_of_singleton].
      + apply (movement_kept_is_Some _ _ (F5 (member_id m))). by apply Hacc.
      + by subst. }
  destruct (IH acc1 Hacc1) as (G1 & G2 & G3 & G4 & G5 & G6 & G7).
  repeat split; try congruence; auto.
  - intros id. eapply movement_kept_trans; [apply F5|apply G5].
  - destruct F6 as [Heq|(m' & Heq & _)]; rewrite Heq in G7;
      [|rewrite length_app in G7; simpl in G7]; lia.
Qed.

Lemma collect_members_frame opts st units targets :
  let r := collect_members hdr opts st units targets in
  s_pathfinder r.1 = s_pathfinder st
  /\ s_pendingRequests r.1 = s_pendingRequests st
  /\ s_entityToRequest r.1 = s_entityToRequest st
  /\ s_nextRequestId r.1 = s_nextRequestId st
  /\ (forall id, movement_kept hdr (world st !! id) (world r.1 !! id))
  /\ (forall m, m ∈ r.2 -> is_Some (movement_of r.1 (member_id m)))
  /\ (length r.2 <= length units)%nat.
Proof.
  unfold collect_members.
  destruct (foldl_collect_member_frame opts (zip units targets) (st, []))
    as (G1 & G2 & G3 & G4 & G5 & G6 & G7).
  { intros m Hm. by apply elem_of_nil in Hm. }
  repeat split; auto. simpl in G7.
  rewrite length_zip_with in G7. lia.
Qed.

(** C5 (amended).  A group order given while a pathfinder is present, with
    as many targets as units, that collects at least two members, one of
    them not engaged and with a destination cell whose coordinate is
    negative or which the pathfinder does not report walkable, is aborted:
    the ledger, the id counter and the pathfinder with its queue are as
    before, and no entity has its movement component changed, except that
    a member without one has the default one attached. *)
Theorem C5_group_abort_changes_no_movement opts st units targets pf st1 members m :
  groupMove opts = true ->
  length units = length targets ->
  s_pathfinder st = Some pf ->
  collect_members hdr opts st units targets = (st1, members) ->
  (2 <= length members)%nat ->
  m ∈ members ->
  isEngaged m = false ->
  target_invalid st pf m = true ->
  let st' := moveUnits hdr st units targets opts in
  s_pendingRequests st' = s_pendingRequests st
  /\ s_entityToRequest st' = s_entityToRequest st
  /\ s_nextRequestId st' = s_nextRequestId st
  /\ s_pathfinder st' = s_pathfinder st
  /\ forall id, movement_kept hdr (world st !! id) (world st' !! id).
Proof.
  intros Hgrp Hlen Hpf Hcollect Hmany Hin Hfree Hinvalid st'.
  destruct (collect_members_frame opts st units targets)
    as (F1 & F2 & F3 & F4 & F5 & _ & F7).
  rewrite Hcollect in F1, F2, F3, F4, F5, F7. simpl in *.
  assert (Hst' : st' = st1).
  { subst st'. unfold moveUnits.
    rewrite Hlen, Nat.eqb_refl, Hgrp. simpl.
    assert (Hunits : (1 <? length targets)%nat = true)
      by (apply Nat.ltb_lt; lia).
    rewrite Hunits. unfold moveGroup, moveGroup_prepare. rewrite Hcollect.
    destruct members as [|m1 [|m2 rest]]; [simpl in Hmany; lia ..|].
    set (ms := m1 :: m2 :: rest) in *.
    assert (Hmoving : In m (List.filter (fun m => negb (isEngaged m)) ms)).
    { apply filter_In. split; [by apply list_elem_of_In|by rewrite Hfree]. }
    destruct (List.filter (fun m => negb (isEngaged m)) ms) as [|m0 l] eqn:Hfil;
      [done|].
    rewrite F1, Hpf.
    assert (Hany : any_target_invalid st1 pf (m0 :: l) = true).
    { unfold any_target_invalid. apply existsb_exists. exists m.
      split; [done|]. unfold target_invalid in *.
      rewrite (worldToGrid_pathfinder st1 st) by congruence. done. }
    by rewrite Hany. }
  rewrite Hst'. by repeat split.
Qed.

End GroupMove.

(** ** Formation pathing *)

Section Formation.
Variable hdr : Header.

Lemma reset_member_frame st m :
  let st' := reset_member st m in
  s_pathfinder st' = s_pathfinder st
  /\ s_nextRequestId st' = s_nextRequestId st
  /\ no_new_request st st'
  /\ forall id, is_Some (movement_of st id) -> is_Some (movement_of st' id).
Proof.
  unfold reset_member. simpl.
  rewrite clearPendingRequest_pathfinder, clearPendingRequest_counter. simpl.
  repeat split.
  - intros r Hr. simpl in Hr. by apply clearPendingRequest_no_new in Hr.
  - intros id Hid. rewrite movement_of_update.
    assert (Hmid : is_Some (movement_of
              (clearPendingRequest (member_id m)
                 (update_movement (member_id m)
                    (fun mv => Mv.set_goalY (vec_z (member_target m))
                                 (Mv.set_goalX (vec_x (member_target m)) mv)) st))
              id)).
    { unfold movement_of. rewrite clearPendingRequest_world.
      fold (movement_of (update_movement (member_id m)
              (fun mv => Mv.set_goalY (vec_z (member_target m))
                           (Mv.set_goalX (vec_x (member_target m)) mv)) st) id).
      rewrite movement_of_update. destruct (decide (id = member_id m)); [|done].
      destruct Hid as [mv ->]. by eexists. }
    destruct (decide (id = member_id m)); [|done].
    destruct Hmid as [mv ->]. by eexists.
Qed.

Lemma foldl_reset_member_frame members : forall st,
  let st' := foldl reset_member st members in
  s_pathfinder st' = s_pathfinder st
  /\ s_nextRequestId st' = s_nextRequestId st
  /\ no_new_request st st'
  /\ forall id, is_Some (movement_of st id) -> is_Some (movement_of st' id).
Proof.
  induction members as [|m rest IH]; intros st.
  { simpl. repeat split; auto using no_new_request_refl. }
  simpl. destruct (reset_member_frame st m) as (F1 & F2 & F3 & F4).
  destruct (IH (reset_member st m)) as (G1 & G2 & G3 & G4).
  repeat split; try congruence; auto.
  eapply no_new_request_trans; eauto.
Qed.

(** A member is waiting for request [rid]. *)
Lemma mark_pending_sets rid st m :
  is_Some (movement_of st (member_id m)) ->
  exists mv, movement_of (mark_pending rid st m) (member_id m) = Some mv
             /\ pathPending mv = true /\ pendingRequestId mv = rid.
Proof.
  intros [mv Hmv]. unfold mark_pending. rewrite movement_of_update.
  rewrite decide_True by done. rewrite Hmv. simpl. eexists. by repeat split.
Qed.

Lemma mark_pending_keeps rid st m id :
  (exists mv, movement_of st id = Some mv
              /\ pathPending mv = true /\ pendingRequestId mv = rid) ->
  exists mv, movement_of (mark_pending rid st m) id = Some mv
             /\ pathPending mv = true /\ pendingRequestId mv = rid.
Proof.
  intros (mv & Hmv & Hp & Hr). unfold mark_pending. rewrite movement_of_update.
  destruct (decide (id = member_id m)); [|eauto].
  rewrite Hmv. simpl. eexists. by repeat split.
Qed.

Lemma mark_pending_keeps_movement rid st m id :
  is_Some (movement_of st id) -> is_Some (movement_of (mark_pending rid st m) id).
Proof.
  intros [mv Hmv]. unfold mark_pending. rewrite movement_of_update.
  destruct (decide (id = member_id m)); rewrite Hmv; by eexists.
Qed.

Lemma foldl_mark_pending_statics rid members : forall st,
  let st' := foldl (mark_pending rid) st members in
  s_pathfinder st' = s_pathfinder st
  /\ s_pendingRequests st' = s_pendingRequests st
  /\ s_entityToRequest st' = s_entityToRequest st
  /\ s_nextRequestId st' = s_nextRequestId st.
Proof.
  induction members as [|m rest IH]; intros st; [done|].
  simpl. destruct (IH (mark_pending rid st m)) as (G1 & G2 & G3 & G4).
  by repeat split.
Qed.

Lemma foldl_mark_pending_all rid members : forall st,
  (forall m, m ∈ members -> is_Some (movement_of st (member_id m))) ->
  forall m, m ∈ members ->
  exists mv, movement_of (foldl (mark_pending rid) st members) (member_id m) = Some mv
             /\ pathPending mv = true /\ pendingRequestId mv = rid.
Proof.
  induction members as [|x rest IH] using rev_ind; intros st Hall m Hin.
  { by apply elem_of_nil in Hin. }
  rewrite foldl_snoc.
  assert (Hrest : forall m', m' ∈ rest -> is_Some (movement_of st (member_id m'))).
  { intros m' Hm'. apply Hall, elem_of_app. by left. }
  assert (Hkeep : forall id, is_Some (movement_of st id) ->
            is_Some (movement_of (foldl (mark_pending rid) st rest) id)).
  { clear. revert st. induction rest as [|y rest IH]; intros st id H; [done|].
    simpl. apply IH. by apply mark_pending_keeps_movement. }
  apply elem_of_app in Hin as [Hin|Hin%list_elem_of_singleton].
  - apply mark_pending_keeps. by apply IH.
  - subst x. apply mark_pending_sets, Hkeep, Hall, elem_of_app.
    right. by apply list_elem_of_singleton.
Qed.

Lemma foldl_insert_members (rid : RequestId) members :
  forall (m0 : gmap EntityID RequestId) m,
  m ∈ members ->
  foldl (fun acc mem => <[member_id mem := rid]> acc) m0 members !! member_id m
  = Some rid.
Proof.
  induction members as [|x rest IH] using rev_ind; intros m0 m Hin.
  { by apply elem_of_nil in Hin. }
  rewrite foldl_snoc.
  destruct (decide (member_id x = member_id m)) as [->|Hne].
  - apply lookup_insert_eq.
  - rewrite lookup_insert_ne by done. apply IH.
    apply elem_of_app in Hin as [Hin|Hin%list_elem_of_singleton]; [done|].
    congruence.
Qed.

Lemma leader_of_member members leader :
  leader_of members = Some leader -> leader ∈ members.
Proof.
  unfold leader_of. destruct members as [|first rest]; [done|].
  intros [= <-]. apply list_elem_of_In.
  destruct (nth_in_or_default (leader_index_of (first :: rest)) (first :: rest) first)
    as [Hin|Heq]; [exact Hin|].
  change (In (nth (leader_index_of (first :: rest)) (first :: rest) first)
            (first :: rest)).
  rewrite Heq. by left.
Qed.

(** [moveGroup_dispatch] hands over at least two members, taken from its
    input up to [distanceToTarget], and keeps the movement components. *)
Lemma moveGroup_dispatch_formation opts st members st2 regroup :
  moveGroup_dispatch hdr opts st members = inr (st2, regroup) ->
  (2 <= length regroup)%nat
  /\ (forall m, m ∈ regroup -> exists m0, m0 ∈ members /\ member_id m0 = member_id m)
  /\ (forall id, is_Some (movement_of st id) -> is_Some (movement_of st2 id)).
Proof.
  unfold moveGroup_dispatch. destruct members as [|m0 rest0]; [done|].
  cbv zeta.
  destruct (F32.leb _ _); [done|].
  set (stats := group_stats (m0 :: rest0)).
  set (members' := (fun m => set_distanceToTarget (to_target_of m) m)
                     <$> (m0 :: rest0)).
  set (direct := List.filter (should_advance stats) members').
  destruct (List.filter (fun m => negb (should_advance stats m)) members')
    as [|a [|b r]] eqn:Hreg; [done|done|].
  intros [= <- <-]. split; [simpl; lia|]. split.
  - intros m Hm. apply list_elem_of_In in Hm. rewrite <- Hreg in Hm.
    apply filter_In in Hm as [Hm _]. apply list_elem_of_In in Hm.
    unfold members' in Hm. apply list_elem_of_fmap in Hm as (m1 & -> & Hm1).
    exists m1. by split.
  - intros id Hid. destruct direct; [done|].
    by apply moveUnits_each_keeps_movement.
Qed.

(** What [moveGroup_prepare] hands to formation pathing: at least two
    members, each with a movement component. *)
Lemma moveGroup_prepare_formation opts st units targets st2 regroup :
  moveGroup_prepare hdr opts st units targets = inr (st2, regroup) ->
  (2 <= length regroup)%nat
  /\ forall m, m ∈ regroup -> is_Some (movement_of st2 (member_id m)).
Proof.
  unfold moveGroup_prepare.
  destruct (collect_members_frame hdr opts st units targets)
    as (_ & _ & _ & _ & _ & Hmv & _).
  destruct (collect_members hdr opts st units targets) as [st1 members].
  simpl in Hmv.
  destruct members as [|m1 [|m2 rest]]; [done|done|].
  set (ms := m1 :: m2 :: rest) in *.
  destruct (List.filter (fun m => negb (isEngaged m)) ms) as [|m0 l] eqn:Hfil;
    [done|].
  destruct (match s_pathfinder st1 with
            | Some pf => any_target_invalid st1 pf (m0 :: l)
            | None => false
            end); [done|].
  intros Hd.
  destruct (moveGroup_dispatch_formation opts st1 (m0 :: l) st2 regroup Hd)
    as (Hlen & Hsub & Hkeep).
  split; [done|]. intros m Hm.
  destruct (Hsub m Hm) as (m' & Hm' & <-).
  apply Hkeep, Hmv. apply list_elem_of_In.
  apply list_elem_of_In in Hm'. rewrite <- Hfil in Hm'.
  by apply filter_In in Hm' as [? _].
Qed.

(** C7 (amended).  When a group move reaches formation pathing with the
    regroup set [members] (at least two) in state [st2], a pathfinder is
    present and neither the snap nor the direct-path shortcut applies to
    the leader's cells, the formation step allocates exactly one request id
    [rid], leaves every regroup member waiting for [rid], registers one
    ledger entry under [rid] and no other, owned by the elected leader,
    whose [groupMembers] and [groupTargets] list every regroup member, the
    leader included, with its own destination, maps every member to [rid],
    and submits exactly one request, for the leader's start and end
    cells. *)
Theorem C7_formation_registers_one_request
    opts st units targets st2 members pf leader :
  moveGroup_prepare hdr opts st units targets = inr (st2, members) ->
  s_pathfinder st2 = Some pf ->
  leader_of members = Some leader ->
  let start := worldToGrid st2 (vec_x (member_position leader))
                 (vec_z (member_position leader)) in
  let finish := worldToGrid st2 (vec_x (member_target leader))
                  (vec_z (member_target leader)) in
  Point_eqb start finish = false ->
  allowDirectFallback opts = false
  \/ DIRECT_PATH_THRESHOLD hdr < manhattan start finish ->
  let st' := moveGroup hdr st units targets opts in
  let rid := s_nextRequestId st2 in
  (2 <= length members)%nat
  /\ leader ∈ members
  /\ s_nextRequestId st' = ((rid + 1) mod uint64_modulus)%N
  /\ (forall m, m ∈ members ->
        exists mv, movement_of st' (member_id m) = Some mv
                   /\ pathPending mv = true /\ pendingRequestId mv = rid)
  /\ s_pendingRequests st' !! rid
     = Some (mkPending (member_id leader) (member_target leader) opts
               (member_id <$> members) (member_target <$> members))
  /\ (forall r, r ≠ rid -> is_Some (s_pendingRequests st' !! r) ->
                is_Some (s_pendingRequests st2 !! r))
  /\ (forall m, m ∈ members -> s_entityToRequest st' !! member_id m = Some rid)
  /\ submitted_requests st' = submitted_requests st2 ++ [(rid, start, finish)].
Proof.
  intros Hprep Hpf Hleader start finish Hdiff Hfar st' rid.
  destruct (moveGroup_prepare_formation opts st units targets st2 members Hprep)
    as (Hlen & Hmv).
  split; [done|]. split; [by apply leader_of_member|].
  subst st'. unfold moveGroup. rewrite Hprep.
  unfold formation_pathing. rewrite Hleader.
  destruct (foldl_reset_member_frame members st2) as (R1 & R2 & R3 & R4).
  set (st3 := foldl reset_member st2 members) in *.
  rewrite R1, Hpf.
  rewrite !(worldToGrid_pathfinder st3 st2) by done.
  fold start finish. rewrite Hdiff.
  assert (Hdirect : (if negb (allowDirectFallback opts) then false
                     else manhattan start finish <=? DIRECT_PATH_THRESHOLD hdr)
                    = false).
  { destruct Hfar as [->|Hfar]; [done|].
    destruct (negb (allowDirectFallback opts)); [done|]. by apply Z.leb_gt. }
  rewrite Hdirect. unfold register_group, fetch_add. cbv zeta.
  rewrite R2. fold rid.
  destruct (foldl_mark_pending_statics rid members
              (St.set_nextRequestId ((rid + 1) mod uint64_modulus)%N st3))
    as (M1 & M2 & M3 & M4).
  assert (Hall : forall m, m ∈ members ->
            exists mv,
              movement_of
                (foldl (mark_pending rid)
                   (St.set_nextRequestId ((rid + 1) mod uint64_modulus)%N st3)
                   members) (member_id m) = Some mv
              /\ pathPending mv = true /\ pendingRequestId mv = rid).
  { apply foldl_mark_pending_all. intros m' Hm'. apply R4. by apply Hmv. }
  set (st4 := foldl (mark_pending rid) _ members) in *.
  simpl in M1, M2, M3, M4.
  split; [exact M4|]. split; [exact Hall|].
  split; [apply lookup_insert_eq|]. split.
  { intros r Hne. simpl. rewrite lookup_insert_ne by done. rewrite M2. apply R3. }
  split; [intros m Hm; by apply foldl_insert_members|].
  unfold submitted_requests. simpl. by rewrite M1, R1, Hpf.
Qed.

End Formation.

(** ** Attack positioning *)

Section Attack.
Variable hdr : Header.

Lemma desired_position_ext e e' t t' t_trans att_trans :
  attack e' = attack e ->
  building t' = building t ->
  desired_position e' t' t_trans att_trans
  = desired_position e t t_trans att_trans.
Proof.
  intros Ha Hb.
  unfold desired_position, desired_distance, attack_range, is_ranged_unit.
  by rewrite Ha, Hb.
Qed.

(** Within the margin the attacker is sent to the position of the target
    itself. *)
Lemma desired_position_in_range e target_ent t_trans att_trans :
  F32.ltb (desired_distance e target_ent t_trans + F32.lit 15 100)%f32
          (attack_distance t_trans att_trans) = false ->
  desired_position e target_ent t_trans att_trans = ground_position t_trans.
Proof.
  intros Hin. unfold desired_position.
  destruct (F32.ltb (F32.lit 1 1000) _); [|done].
  unfold attack_distance in Hin. by rewrite Hin.
Qed.

End Attack.

(** ** The examples of the group move resolver and of the attack order *)

Lemma C5_witness :
  (groupMove options_group = true
   /\ length [1%N; 2%N] = length [vec (-40) 0; vec 5 5]
   /\ s_pathfinder demo_pair = Some demo_pf
   /\ collect_members demo_header options_group demo_pair [1%N; 2%N]
        [vec (-40) 0; vec 5 5]
      = (demo_pair, [demo_member 1 0 0 (-40) 0; demo_member 2 1 0 5 5])
   /\ (2 <= length [demo_member 1 0 0 (-40) 0; demo_member 2 1 0 5 5])%nat
   /\ demo_member 1 0 0 (-40) 0
        ∈ [demo_member 1 0 0 (-40) 0; demo_member 2 1 0 5 5]
   /\ isEngaged (demo_member 1 0 0 (-40) 0) = false
   /\ target_invalid demo_pair demo_pf (demo_member 1 0 0 (-40) 0) = true)
  /\ let st' := moveUnits demo_header demo_pair [1%N; 2%N]
                  [vec (-40) 0; vec 5 5] options_group in
     s_pendingRequests st' = s_pendingRequests demo_pair
     /\ s_entityToRequest st' = s_entityToRequest demo_pair
     /\ s_nextRequestId st' = s_nextRequestId demo_pair
     /\ s_pathfinder st' = s_pathfinder demo_pair
     /\ forall id,
          movement_kept demo_header (world demo_pair !! id) (world st' !! id).
Proof.
  assert (H1 : groupMove options_group = true) by reflexivity.
  assert (H2 : length [1%N; 2%N] = length [vec (-40) 0; vec 5 5]) by reflexivity.
  assert (H3 : s_pathfinder demo_pair = Some demo_pf)
    by (vm_compute; reflexivity).
  assert (H4 : collect_members demo_header options_group demo_pair [1%N; 2%N]
                 [vec (-40) 0; vec 5 5]
               = (demo_pair, [demo_member 1 0 0 (-40) 0; demo_member 2 1 0 5 5]))
    by (vm_compute; reflexivity).
  assert (H5 : (2 <= length [demo_member 1 0 0 (-40) 0;
                             demo_member 2 1 0 5 5])%nat) by (simpl; lia).
  assert (H6 : demo_member 1 0 0 (-40) 0
                 ∈ [demo_member 1 0 0 (-40) 0; demo_member 2 1 0 5 5])
    by (apply elem_of_cons; by left).
  assert (H7 : isEngaged (demo_member 1 0 0 (-40) 0) = false) by reflexivity.
  assert (H8 : target_invalid demo_pair demo_pf (demo_member 1 0 0 (-40) 0) = true)
    by (vm_compute; reflexivity).
  split; [by repeat split|].
  exact (C5_group_abort_changes_no_movement demo_header options_group demo_pair
           _ _ demo_pf demo_pair _ _ H1 H2 H3 H4 H5 H6 H7 H8).
Defined.

(** C5, as stated, fails: the group order of [demo_lone_group] names the
    soldier 1 and the absent entity 2; one member is collected, it is not
    engaged and its destination cell (-16,25) has a negative coordinate.
    The order is handed to the single-unit resolver, which never looks at
    the walkability of the destination: the soldier starts to wait for
    request 1, which is registered and submitted. *)
Lemma C5_counterexample :
  groupMove options_group = true
  /\ s_pathfinder demo_idle = Some demo_pf
  /\ collect_members demo_header options_group demo_idle [1%N; 2%N]
       [vec (-40) 0; vec 0 0]
     = (demo_idle, [demo_member 1 0 0 (-40) 0])
  /\ isEngaged (demo_member 1 0 0 (-40) 0) = false
  /\ worldToGrid demo_idle (F32.of_Z (-40)) (F32.of_Z 0) = (-16, 25)
  /\ target_invalid demo_idle demo_pf (demo_member 1 0 0 (-40) 0) = true
  /\ movement_of demo_idle 1%N = Some demo_movement
  /\ movement_of demo_lone_group 1%N ≠ movement_of demo_idle 1%N
  /\ (pathPending <$> movement_of demo_lone_group 1%N) = Some true
  /\ is_Some (s_pendingRequests demo_lone_group !! 1%N)
  /\ submitted_requests demo_lone_group = [(1%N, (25, 25), (-16, 25))].
Proof.
  repeat (split; [vm_compute; reflexivity|]).
  split; [vm_compute; intros [=]|].
  split; [vm_compute; reflexivity|].
  split; [vm_compute; by eexists|].
  vm_compute; reflexivity.
Qed.

Lemma C7_witness :
  (moveGroup_prepare demo_header options_group demo_two [1%N; 2%N]
     [vec 10 10; vec 11 10]
   = inr (demo_two_ready,
          [demo_measured 1 (-10) (-10) 10 10; demo_measured 2 (-9) (-10) 11 10])
   /\ s_pathfinder demo_two_ready = Some demo_pf
   /\ leader_of [demo_measured 1 (-10) (-10) 10 10;
                 demo_measured 2 (-9) (-10) 11 10]
      = Some (demo_measured 1 (-10) (-10) 10 10)
   /\ Point_eqb (15, 15) (35, 35) = false
   /\ (allowDirectFallback options_group = false
       \/ DIRECT_PATH_THRESHOLD demo_header < manhattan (15, 15) (35, 35)))
  /\ let members := [demo_measured 1 (-10) (-10) 10 10;
                     demo_measured 2 (-9) (-10) 11 10] in
     let leader := demo_measured 1 (-10) (-10) 10 10 in
     let st' := moveGroup demo_header demo_two [1%N; 2%N]
                  [vec 10 10; vec 11 10] options_group in
     let rid := s_nextRequestId demo_two_ready in
     (2 <= length members)%nat
     /\ leader ∈ members
     /\ s_nextRequestId st' = ((rid + 1) mod uint64_modulus)%N
     /\ (forall m, m ∈ members ->
           exists mv, movement_of st' (member_id m) = Some mv
                      /\ pathPending mv = true /\ pendingRequestId mv = rid)
     /\ s_pendingRequests st' !! rid
        = Some (mkPending (member_id leader) (member_target leader) options_group
                  (member_id <$> members) (member_target <$> members))
     /\ (forall r, r ≠ rid -> is_Some (s_pendingRequests st' !! r) ->
                   is_Some (s_pendingRequests demo_two_ready !! r))
     /\ (forall m, m ∈ members -> s_entityToRequest st' !! member_id m = Some rid)
     /\ submitted_requests st'
        = submitted_requests demo_two_ready ++ [(rid, (15, 15), (35, 35))].
Proof.
  assert (H1 : moveGroup_prepare demo_header options_group demo_two [1%N; 2%N]
                 [vec 10 10; vec 11 10]
               = inr (demo_two_ready,
                      [demo_measured 1 (-10) (-10) 10 10;
                       demo_measured 2 (-9) (-10) 11 10]))
    by (vm_compute; reflexivity).
  assert (H2 : s_pathfinder demo_two_ready = Some demo_pf)
    by (vm_compute; reflexivity).
  assert (H3 : leader_of [demo_measured 1 (-10) (-10) 10 10;
                          demo_measured 2 (-9) (-10) 11 10]
               = Some (demo_measured 1 (-10) (-10) 10 10))
    by (vm_compute; reflexivity).
  assert (H4 : Point_eqb (15, 15) (35, 35) = false) by reflexivity.
  assert (H5 : allowDirectFallback options_group = false
               \/ DIRECT_PATH_THRESHOLD demo_header < manhattan (15, 15) (35, 35))
    by (right; vm_compute; reflexivity).
  split; [by repeat split|].
  exact (C7_formation_registers_one_request demo_header options_group demo_two
           [1%N; 2%N] [vec 10 10; vec 11 10] demo_two_ready _ demo_pf _
           H1 H2 H3 H4 H5).
Defined.

(** C7, as stated, fails: the group order of [demo_grouped] reaches
    formation pathing with the regroup set of the soldiers 1 and 2, elects
    1 and takes no shortcut; the entry it registers is owned by 1 and lists
    1 itself among its [groupMembers]. *)
Lemma C7_counterexample :
  moveGroup_prepare demo_header options_group demo_two [1%N; 2%N]
    [vec 10 10; vec 11 10]
  = inr (demo_two_ready,
         [demo_measured 1 (-10) (-10) 10 10; demo_measured 2 (-9) (-10) 11 10])
  /\ (member_id <$> leader_of [demo_measured 1 (-10) (-10) 10 10;
                               demo_measured 2 (-9) (-10) 11 10]) = Some 1%N
  /\ exists req,
       s_pendingRequests demo_grouped !! 1%N = Some req
       /\ entity_id req = 1%N
       /\ groupMembers req = [1%N; 2%N]
       /\ entity_id req ∈ groupMembers req.
Proof.
  split; [vm_compute; reflexivity|]. split; [vm_compute; reflexivity|].
  eexists. split; [vm_compute; reflexivity|].
  split; [reflexivity|]. split; [reflexivity|].
  simpl. apply elem_of_cons. by left.
Qed.

(** * Further properties of the command service *)

(** ** Grid and world coordinates *)

(** Checked by evaluation: every cell of every axis of 1 to 256 cells. *)
Lemma axes_round_trip_256 :
  forallb (fun n => forallb (axis_round_trip n) (seqZ 0 n)) (seqZ 1 256) = true.
Proof. vm_compute. reflexivity. Qed.

Lemma axis_round_trip_ok n c :
  1 <= n <= 256 -> 0 <= c < n -> axis_round_trip n c = true.
Proof.
  intros Hn Hc.
  pose proof (proj1 (forallb_forall _ _) axes_round_trip_256 n) as H.
  assert (Hin : In n (seqZ 1 256))
    by (apply list_elem_of_In, elem_of_seqZ; lia).
  pose proof (proj1 (forallb_forall _ _) (H Hin) c) as H2.
  apply H2, list_elem_of_In, elem_of_seqZ. lia.
Qed.

(** X1.  On a grid of at most 256 x 256 cells set up by [initialize], a
    cell of the grid sent to world space by [gridToWorld] and back by
    [worldToGrid] is the same cell. *)
Theorem X1_grid_to_world_and_back hdr w h st x z :
  1 <= w <= 256 -> 1 <= h <= 256 -> 0 <= x < w -> 0 <= z < h ->
  let st' := initialize hdr w h st in
  worldToGrid st' (vec_x (gridToWorld st' (x, z)))
    (vec_z (gridToWorld st' (x, z))) = (x, z).
Proof.
  intros Hw Hh Hx Hz st'. subst st'.
  unfold worldToGrid, gridToWorld, initialize. simpl.
  pose proof (axis_round_trip_ok w x Hw Hx) as Ax.
  pose proof (axis_round_trip_ok h z Hh Hz) as Az.
  unfold axis_round_trip, grid_offset_of in Ax, Az.
  apply Z.eqb_eq in Ax, Az. by rewrite Ax, Az.
Qed.

Lemma X1_witness :
  (1 <= 50 <= 256 /\ 1 <= 50 <= 256 /\ 0 <= 49 < 50 /\ 0 <= 0 < 50)
  /\ let st' := initialize demo_header 50 50 static_init in
     worldToGrid st' (vec_x (gridToWorld st' (49, 0)))
       (vec_z (gridToWorld st' (49, 0))) = (49, 0).
Proof.
  assert (H1 : 1 <= 50 <= 256) by lia.
  assert (H2 : 0 <= 49 < 50) by lia.
  assert (H3 : 0 <= 0 < 50) by lia.
  split; [by repeat split|].
  exact (X1_grid_to_world_and_back demo_header 50 50 static_init 49 0
           H1 H1 H2 H3).
Defined.

(** ** Cancellation *)

(** X2.  On a ledger as the resolvers register it, cancelling the request
    of an entity erases that request and every entry that points to it,
    and nothing else: the other requests and the entries to them stay, the
    ledger stays well formed, and the world, the pathfinder and the id
    counter are not touched. *)
Theorem X2_cancel_erases_one_request_and_its_entries id st rid :
  ledger_wf st ->
  s_entityToRequest st !! id = Some rid ->
  let st' := clearPendingRequest id st in
  ledger_wf st'
  /\ s_pendingRequests st' = delete rid (s_pendingRequests st)
  /\ (forall e, s_entityToRequest st' !! e ≠ Some rid)
  /\ (forall e r, r ≠ rid -> s_entityToRequest st !! e = Some r ->
                  s_entityToRequest st' !! e = Some r)
  /\ world st' = world st
  /\ s_pathfinder st' = s_pathfinder st
  /\ s_nextRequestId st' = s_nextRequestId st.
Proof.
  intros Hwf Hid st'.
  split; [by apply clearPendingRequest_keeps_wf|].
  destruct Hwf as [HA HB].
  destruct (HA id rid Hid) as (req & Hreq & Hown).
  subst st'. unfold clearPendingRequest. rewrite Hid, Hreq. simpl.
  split; [done|]. split.
  { intros e He.
    pose proof (foldl_remove_entry_subseteq _ _ _ _ _ He) as He0.
    apply lookup_delete_Some in He0 as [Hne He0].
    destruct (HA e rid He0) as (req' & Hreq' & Hown').
    assert (req' = req) by congruence. subst req'.
    destruct Hown' as [Hin|[Hnil Howner]].
    - by apply (foldl_remove_entry_member rid (groupMembers req)
                  (delete id (s_entityToRequest st)) e Hin).
    - destruct Hown as [Hin|[_ Howner']]; [|congruence].
      rewrite Hnil in Hin. by apply elem_of_nil in Hin. }
  split; [|done].
  intros e r Hr He. apply foldl_remove_entry_other; [|done].
  rewrite lookup_delete_ne; [done|]. intros ->. congruence.
Qed.

(** X3.  Cancelling twice is cancelling once. *)
Theorem X3_cancel_is_idempotent id st :
  clearPendingRequest id (clearPendingRequest id st) = clearPendingRequest id st.
Proof.
  pose proof (clearPendingRequest_unmapped id st) as H.
  unfold clearPendingRequest at 1. by rewrite H.
Qed.

(** X4.  Cancellation is soft: a result that arrives for the request an
    entity's cancellation erased is discarded by the reconciler, which
    leaves the whole state as it is. *)
Theorem X4_result_after_cancel_is_discarded hdr id st rid result :
  s_entityToRequest st !! id = Some rid ->
  request_id result = rid ->
  processPathResults hdr (clearPendingRequest id st) [result]
  = clearPendingRequest id st.
Proof.
  intros Hid <-. unfold processPathResults.
  destruct (s_pathfinder (clearPendingRequest id st)); [|done].
  simpl. apply process_result_absent.
  by apply clearPendingRequest_request_gone.
Qed.

(** ** Commands that are dropped *)

Lemma issues_nothing_refl st : issues_nothing st st.
Proof. repeat split. apply no_new_request_refl. Qed.

Lemma issues_nothing_trans st1 st2 st3 :
  issues_nothing st1 st2 -> issues_nothing st2 st3 -> issues_nothing st1 st3.
Proof.
  intros (A1 & A2 & A3) (B1 & B2 & B3). repeat split; try congruence.
  eapply no_new_request_trans; eauto.
Qed.

Lemma exit_hold_mode_inactive e : hold_inactive (exit_hold_mode e).
Proof.
  unfold hold_inactive, exit_hold_mode.
  destruct (holdMode e) as [h|] eqn:Hh; [|by rewrite Hh].
  destruct (active h) eqn:Ha; simpl; [done|by rewrite Hh].
Qed.

Section Dropped.
Variable hdr : Header.


Lemma dedup_unit_goal opts uid tgt mv st r :
  dedup_unit opts uid tgt mv st = r ->
  (match r with inl p => p.1 | inr p => p.1 end)
  = with_goal (vec_x tgt) (vec_z tgt) mv.
Proof.
  unfold dedup_unit. intros <-.
  destruct (match_pending opts uid (vec_x tgt) (vec_z tgt) mv st) as [matched st'].
  destruct matched; [done|].
  destruct (cooldown_check _ _ _) as [flag skip].
  destruct skip; [done|].
  by destruct (already_satisfied _ _ _).
Qed.

Lemma match_pending_requests opts uid tx tz mv st rid req' :
  s_pendingRequests (match_pending opts uid tx tz mv st).2 !! rid = Some req' ->
  exists req, s_pendingRequests st !! rid = Some req /\ same_but_options req' req.
Proof.
  unfold match_pending.
  destruct (pathPending mv); [|intros H; exists req'; by repeat split].
  destruct (s_entityToRequest st !! uid) as [r|];
    [|intros H; exists req'; by repeat split].
  destruct (s_pendingRequests st !! r) as [req|] eqn:Hreq;
    [|intros H; exists req'; by repeat split].
  destruct (within_same_target _ _ _ _);
    [|intros H; exists req'; by repeat split].
  simpl. destruct (decide (r = rid)) as [->|Hne].
  - rewrite lookup_insert_eq. intros [= <-]. exists req. by repeat split.
  - rewrite lookup_insert_ne by done. intros H. exists req'. by repeat split.
Qed.

Lemma dedup_unit_requests opts uid tgt mv st r rid req' :
  dedup_unit opts uid tgt mv st = r ->
  s_pendingRequests (match r with inl p => p.2 | inr p => p.2 end) !! rid
  = Some req' ->
  exists req, s_pendingRequests st !! rid = Some req /\ same_but_options req' req.
Proof.
  unfold dedup_unit. intros <-.
  pose proof (match_pending_requests opts uid (vec_x tgt) (vec_z tgt) mv st rid req')
    as Hm.
  destruct (match_pending opts uid (vec_x tgt) (vec_z tgt) mv st) as [matched st'].
  simpl in Hm. destruct matched; [exact Hm|].
  destruct (cooldown_check _ _ _) as [flag skip].
  destruct skip; [exact Hm|].
  destruct (already_satisfied _ _ _); exact Hm.
Qed.

(** X6.  A single-unit order that is dropped after the entity was resolved
    (a request in flight with the same target is reused, the cooldown stops
    it, or the target already is the destination) only records the goal in
    the movement state: no id is allocated, nothing is submitted, no
    request is registered, and the requests of the ledger keep their owner,
    target and members. *)
Theorem X6_dropped_order_records_goal_only opts st uid tgt st1 tr mv mv2 st2 :
  resolve_unit hdr opts uid st = (st1, Some (tr, mv)) ->
  dedup_unit opts uid tgt mv st1 = inl (mv2, st2) ->
  let st' := moveUnits hdr st [uid] [tgt] opts in
  movement_of st' uid = Some (with_goal (vec_x tgt) (vec_z tgt) mv)
  /\ issues_nothing st st'
  /\ forall rid req', s_pendingRequests st' !! rid = Some req' ->
       exists req, s_pendingRequests st !! rid = Some req
                   /\ same_but_options req' req.
Proof.
  intros Hres Hdedup st'. subst st'. rewrite moveUnits_single.
  unfold moveUnit. rewrite Hres, Hdedup.
  pose proof (resolve_unit_statics hdr opts uid st) as (Rp & Rq & Re & Rc).
  rewrite Hres in Rp, Rq, Re, Rc. simpl in Rp, Rq, Re, Rc.
  destruct (resolve_unit_resolved hdr opts uid st st1 tr mv Hres)
    as (e & e1 & He & Htr & _ & Hw1 & Hmv1 & _).
  pose proof (dedup_unit_frame opts uid tgt mv st1 _ Hdedup) as (Dw & Dp & Dc & Dn).
  pose proof (dedup_unit_goal opts uid tgt mv st1 _ Hdedup) as Hgoal.
  simpl in Dw, Dp, Dc, Dn, Hgoal. subst mv2.
  split.
  { unfold store_movement. rewrite movement_of_update, decide_True by done.
    unfold movement_of. rewrite Dw, Hw1, lookup_insert_eq. simpl.
    by rewrite Hmv1. }
  split.
  { repeat split; simpl; try congruence.
    intros r Hr. simpl in Hr. apply Dn in Hr. by rewrite Rq in Hr. }
  intros rid req' Hreq'. simpl in Hreq'.
  destruct (dedup_unit_requests opts uid tgt mv st1 _ rid req' Hdedup Hreq')
    as (req & Hreq & Hsame).
  exists req. by rewrite <- Rq.
Qed.

End Dropped.

(** ** Orders that are carried out *)

Lemma entity_kept_refl o : entity_kept o o.
Proof. destruct o; simpl; auto. Qed.

Lemma entity_kept_trans a b c :
  entity_kept a b -> entity_kept b c -> entity_kept a c.
Proof.
  destruct a, b, c; simpl; try tauto.
  intros (A1 & A2 & A3 & A4) (B1 & B2 & B3 & B4). repeat split; congruence.
Qed.

Lemma update_movement_kept uid f st id :
  entity_kept (world st !! id) (world (update_movement uid f st) !! id).
Proof.
  destruct (decide (id = uid)) as [->|Hne].
  - rewrite update_movement_lookup. by destruct (world st !! uid).
  - rewrite update_movement_other by done. apply entity_kept_refl.
Qed.

Lemma insert_entity_kept (w : gmap EntityID Entity) uid e e1 id :
  w !! uid = Some e ->
  transform e1 = transform e -> attack e1 = attack e ->
  unit_component e1 = unit_component e -> building e1 = building e ->
  entity_kept (w !! id) (<[uid := e1]> w !! id).
Proof.
  intros He Ht Ha Hu Hb. destruct (decide (id = uid)) as [->|Hne].
  - rewrite lookup_insert_eq, He. by repeat split.
  - rewrite lookup_insert_ne by done. apply entity_kept_refl.
Qed.

Section Carried.
Variable hdr : Header.

Lemma resolve_unit_resolves opts uid st e tr :
  world st !! uid = Some e ->
  melee_locked e = false ->
  transform e = Some tr ->
  exists st1,
    resolve_unit hdr opts uid st
    = (st1, Some (tr, default (defaultMovement hdr) (movement e))).
Proof.
  intros He Hlock Htr. unfold resolve_unit. rewrite He.
  destruct (exit_hold_mode_fields e) as (Ha & Ht & Hm & Hat & Hu & Hb).
  assert (Hlock' : melee_locked (exit_hold_mode e) = false)
    by (unfold melee_locked in *; by rewrite Ha).
  rewrite Hlock', Ht, Htr, Hm. by eexists.
Qed.

Lemma route_unit_goal opts uid tgt tr mv st :
  goalX (route_unit hdr opts uid tgt tr mv st).1 = goalX mv
  /\ goalY (route_unit hdr opts uid tgt tr mv st).1 = goalY mv.
Proof.
  unfold route_unit.
  destruct (s_pathfinder st); [|done].
  destruct (Point_eqb _ _); [done|].
  destruct (if negb (allowDirectFallback opts) then false else _); [done|].
  destruct (supersede_existing opts uid (vec_x tgt) (vec_z tgt) st) as [skip st2].
  by destruct skip.
Qed.

(** X7.  The goal is always the destination last ordered: for an entity
    that exists, has a transform and is not in melee lock, a single-unit
    order leaves [goalX] and [goalY] at the destination, whatever else the
    resolver decides. *)
Theorem X7_goal_is_last_ordered_destination opts st uid tgt e tr :
  world st !! uid = Some e ->
  melee_locked e = false ->
  transform e = Some tr ->
  exists mv',
    movement_of (moveUnits hdr st [uid] [tgt] opts) uid = Some mv'
    /\ goalX mv' = vec_x tgt /\ goalY mv' = vec_z tgt.
Proof.
  intros He Hlock Htr. rewrite moveUnits_single. unfold moveUnit.
  destruct (resolve_unit_resolves opts uid st e tr He Hlock Htr) as (st1 & Hres).
  rewrite Hres.
  destruct (resolve_unit_resolved hdr opts uid st st1 tr _ Hres)
    as (e0 & e1 & _ & _ & _ & Hw1 & Hmv1 & _).
  set (mv := default (defaultMovement hdr) (movement e)) in *.
  pose proof (dedup_unit_frame opts uid tgt mv st1 _ eq_refl) as Hd.
  pose proof (dedup_unit_goal opts uid tgt mv st1 _ eq_refl) as Hg.
  assert (Hstore : forall m st3, world st3 = world st1 ->
            movement_of (store_movement uid m st3) uid = Some m).
  { intros m st3 Hw3. unfold store_movement.
    rewrite movement_of_update, decide_True by done.
    unfold movement_of. rewrite Hw3, Hw1, lookup_insert_eq. simpl.
    by rewrite Hmv1. }
  destruct (dedup_unit opts uid tgt mv st1) as [[mv2 st2]|[mv2 st2]];
    simpl in Hd, Hg; destruct Hd as (Dw & _); subst mv2.
  - exists (with_goal (vec_x tgt) (vec_z tgt) mv). by rewrite Hstore.
  - pose proof (route_unit_world hdr opts uid tgt tr
                  (with_goal (vec_x tgt) (vec_z tgt) mv) st2) as Rw.
    pose proof (route_unit_goal opts uid tgt tr
                  (with_goal (vec_x tgt) (vec_z tgt) mv) st2) as (Gx & Gy).
    destruct (route_unit hdr opts uid tgt tr
                (with_goal (vec_x tgt) (vec_z tgt) mv) st2) as [mv3 st3].
    simpl in Rw, Gx, Gy. exists mv3. rewrite Hstore by congruence.
    by repeat split.
Qed.

Lemma supersede_existing_not_reused opts uid tx tz st :
  (supersede_existing opts uid tx tz st).1 = false ->
  let s := (supersede_existing opts uid tx tz st).2 in
  s_entityToRequest s !! uid = None
  /\ (forall r0, s_entityToRequest st !! uid = Some r0 ->
                 s_pendingRequests s !! r0 = None)
  /\ world s = world st
  /\ issues_nothing st s.
Proof.
  unfold supersede_existing.
  destruct (s_entityToRequest st !! uid) as [rid|] eqn:He.
  2:{ intros _. simpl. repeat split; auto using no_new_request_refl.
      intros ? [=]. }
  destruct (s_pendingRequests st !! rid) as [req|] eqn:Hreq.
  - destruct (within_same_target _ _ _ _); [done|]. intros _. simpl.
    split; [apply lookup_delete_eq|]. split.
    { intros r0 [= <-]. apply lookup_delete_eq. }
    repeat split. intros r Hr. simpl in Hr.
    apply lookup_delete_is_Some in Hr. tauto.
  - intros _. simpl. split; [apply lookup_delete_eq|]. split.
    { by intros r0 [= <-]. }
    repeat split. by intros r.
Qed.

(** The state after an order that issues a request. *)
Lemma far_order_issues_request
    opts st uid tgt st1 tr mv mv2 st2 pf :
  resolve_unit hdr opts uid st = (st1, Some (tr, mv)) ->
  dedup_unit opts uid tgt mv st1 = inr (mv2, st2) ->
  s_pathfinder st = Some pf ->
  let start := worldToGrid st (vec_x (position tr)) (vec_z (position tr)) in
  let finish := worldToGrid st (vec_x tgt) (vec_z tgt) in
  Point_eqb start finish = false ->
  allowDirectFallback opts = false
  \/ DIRECT_PATH_THRESHOLD hdr < manhattan start finish ->
  (supersede_existing opts uid (vec_x tgt) (vec_z tgt) st2).1 = false ->
  let st' := moveUnits hdr st [uid] [tgt] opts in
  let rid := s_nextRequestId st in
  (exists mv',
     movement_of st' uid = Some mv'
     /\ pathPending mv' = true /\ pendingRequestId mv' = rid
     /\ hasTarget mv' = false /\ path mv' = []
     /\ goalX mv' = vec_x tgt /\ goalY mv' = vec_z tgt
     /\ lastGoalX mv' = vec_x tgt /\ lastGoalY mv' = vec_z tgt)
  /\ s_pendingRequests st' !! rid = Some (mkPending uid tgt opts [] [])
  /\ s_entityToRequest st' !! uid = Some rid
  /\ (forall r0, s_entityToRequest st !! uid = Some r0 -> r0 ≠ rid ->
                 s_pendingRequests st' !! r0 = None)
  /\ s_nextRequestId st' = ((rid + 1) mod uint64_modulus)%N
  /\ submitted_requests st' = submitted_requests st ++ [(rid, start, finish)].
Proof.
  intros Hres Hdedup Hpf start finish Hdiff Hfar Hnew st' rid.
  subst st'. rewrite moveUnits_single. unfold moveUnit. rewrite Hres, Hdedup.
  pose proof (resolve_unit_statics hdr opts uid st) as (Rp & Rq & Re & Rc).
  rewrite Hres in Rp, Rq, Re, Rc. simpl in Rp, Rq, Re, Rc.
  destruct (resolve_unit_resolved hdr opts uid st st1 tr mv Hres)
    as (e & e1 & He & Htr & _ & Hw1 & Hmv1 & _).
  pose proof (dedup_unit_frame opts uid tgt mv st1 _ Hdedup) as (Dw & Dp & Dc & Dn).
  pose proof (dedup_unit_goal opts uid tgt mv st1 _ Hdedup) as Hgoal.
  simpl in Dw, Dp, Dc, Dn, Hgoal. subst mv2.
  unfold route_unit. rewrite Dp, Rp, Hpf.
  rewrite !(worldToGrid_pathfinder st2 st) by congruence.
  fold start finish. rewrite Hdiff.
  assert (Hdirect : (if negb (allowDirectFallback opts) then false
                     else manhattan start finish <=? DIRECT_PATH_THRESHOLD hdr)
                    = false).
  { destruct Hfar as [->|Hfar]; [done|].
    destruct (negb (allowDirectFallback opts)); [done|]. by apply Z.leb_gt. }
  rewrite Hdirect.
  destruct (supersede_existing_not_reused opts uid (vec_x tgt) (vec_z tgt) st2 Hnew)
    as (Se & Sgone & Sw & Sp & Sc & Sn).
  destruct (supersede_existing opts uid (vec_x tgt) (vec_z tgt) st2)
    as [skip st3].
  simpl in Hnew, Se, Sgone, Sw, Sp, Sc, Sn. subst skip.
  unfold issue_request, fetch_add. cbv zeta.
  assert (Hrid : s_nextRequestId st3 = rid) by (unfold rid; congruence).
  rewrite Hrid. split.
  { eexists. split.
    - unfold store_movement. rewrite movement_of_update, decide_True by done.
      unfold movement_of. simpl. rewrite Sw, Dw, Hw1, lookup_insert_eq. simpl.
      rewrite Hmv1. reflexivity.
    - by repeat split. }
  simpl. split; [apply lookup_insert_eq|]. split; [apply lookup_insert_eq|].
  split.
  { intros r0 Hr0 Hne. rewrite lookup_insert_ne by done.
    rewrite <- Re in Hr0.
    destruct (dedup_unit_entry opts uid tgt mv st1 _ st2 r0 Hdedup Hr0)
      as [Hkeep|Hgone]; [by apply Sgone|].
    destruct (s_pendingRequests st3 !! r0) eqn:Hl; [|done].
    assert (Hs : is_Some (s_pendingRequests st1 !! r0))
      by (apply Dn, Sn; by eexists).
    rewrite Hgone in Hs. by destruct Hs. }
  split; [done|].
  unfold submitted_requests. simpl. by rewrite Sp, Dp, Rp, Hpf.
Qed.

(** X8.  A single-unit order that reaches the decision with a pathfinder,
    distinct start and end cells, no direct path (fallback forbidden or the
    cells farther apart than [DIRECT_PATH_THRESHOLD]) and no request in
    flight to reuse, issues one request: the id is the counter's value, the
    counter advances, the entity waits for that id without target or path,
    the ledger holds the request with the entity as owner and no members,
    the entity maps to it, the request it mapped to before is erased, and
    one search for the start and end cells is appended to the queue. *)
Theorem X8_far_order_issues_one_request
    opts st uid tgt st1 tr mv mv2 st2 pf :
  resolve_unit hdr opts uid st = (st1, Some (tr, mv)) ->
  dedup_unit opts uid tgt mv st1 = inr (mv2, st2) ->
  s_pathfinder st = Some pf ->
  let start := worldToGrid st (vec_x (position tr)) (vec_z (position tr)) in
  let finish := worldToGrid st (vec_x tgt) (vec_z tgt) in
  Point_eqb start finish = false ->
  allowDirectFallback opts = false
  \/ DIRECT_PATH_THRESHOLD hdr < manhattan start finish ->
  (supersede_existing opts uid (vec_x tgt) (vec_z tgt) st2).1 = false ->
  let st' := moveUnits hdr st [uid] [tgt] opts in
  let rid := s_nextRequestId st in
  (exists mv',
     movement_of st' uid = Some mv'
     /\ pathPending mv' = true /\ pendingRequestId mv' = rid
     /\ hasTarget mv' = false /\ path mv' = []
     /\ goalX mv' = vec_x tgt /\ goalY mv' = vec_z tgt
     /\ lastGoalX mv' = vec_x tgt /\ lastGoalY mv' = vec_z tgt)
  /\ s_pendingRequests st' !! rid = Some (mkPending uid tgt opts [] [])
  /\ s_entityToRequest st' !! uid = Some rid
  /\ (forall r0, s_entityToRequest st !! uid = Some r0 -> r0 ≠ rid ->
                 s_pendingRequests st' !! r0 = None)
  /\ s_nextRequestId st' = ((rid + 1) mod uint64_modulus)%N
  /\ submitted_requests st' = submitted_requests st ++ [(rid, start, finish)].
Proof. apply far_order_issues_request. Qed.

End Carried.

(** ** Orders of any size *)

Lemma foldl_entity_kept {A} (step : State -> A -> State) :
  (forall s a id, entity_kept (world s !! id) (world (step s a) !! id)) ->
  forall l st id, entity_kept (world st !! id) (world (foldl step st l) !! id).
Proof.
  intros Hstep l. induction l as [|a rest IH]; intros st id.
  { apply entity_kept_refl. }
  simpl. eapply entity_kept_trans; [apply Hstep|apply IH].
Qed.

Lemma foldl_issues_nothing {A} (step : State -> A -> State) (P : State -> Prop) :
  (forall s a, P s -> issues_nothing s (step s a) /\ P (step s a)) ->
  forall l st, P st -> issues_nothing st (foldl step st l) /\ P (foldl step st l).
Proof.
  intros Hstep l. induction l as [|a rest IH]; intros st HP.
  { split; [apply issues_nothing_refl|done]. }
  simpl. destruct (Hstep st a HP) as [H1 HP1].
  destruct (IH _ HP1) as [H2 HP2].
  split; [eapply issues_nothing_trans; eauto|done].
Qed.

Lemma update_movement_issues_nothing uid f st :
  issues_nothing st (update_movement uid f st).
Proof. repeat split. by intros r. Qed.

Lemma clearPendingRequest_issues_nothing id st :
  issues_nothing st (clearPendingRequest id st).
Proof.
  repeat split; auto using clearPendingRequest_pathfinder,
    clearPendingRequest_counter, clearPendingRequest_no_new.
Qed.

Section AnyOrder.
Variable hdr : Header.

Lemma moveUnit_kept opts st ut id :
  entity_kept (world st !! id) (world (moveUnit hdr opts st ut) !! id).
Proof.
  destruct ut as [uid tgt]. unfold moveUnit.
  destruct (resolve_unit hdr opts uid st) as [st1 [[tr mv]|]] eqn:Hres.
  - destruct (resolve_unit_resolved hdr opts uid st st1 tr mv Hres)
      as (e & e1 & He & Htr & _ & Hw1 & _ & Htr1 & Ha & Hu & Hb).
    assert (H1 : entity_kept (world st !! id) (world st1 !! id)).
    { rewrite Hw1. apply (insert_entity_kept _ uid e); congruence. }
    pose proof (dedup_unit_frame opts uid tgt mv st1 _ eq_refl) as Hd.
    destruct (dedup_unit opts uid tgt mv st1) as [[mv2 st2]|[mv2 st2]];
      simpl in Hd; destruct Hd as (Dw & _).
    + eapply entity_kept_trans; [exact H1|]. rewrite <- Dw.
      apply update_movement_kept.
    + pose proof (route_unit_world hdr opts uid tgt tr mv2 st2) as Rw.
      destruct (route_unit hdr opts uid tgt tr mv2 st2) as [mv3 st3].
      simpl in Rw. eapply entity_kept_trans; [exact H1|].
      rewrite <- Dw, <- Rw. apply update_movement_kept.
  - destruct (resolve_unit_dropped hdr opts uid st st1 Hres)
      as [[_ ->]|(e & e1 & He & Hw1 & _ & Htr1 & Ha & _ & Hu & Hb)].
    + apply entity_kept_refl.
    + rewrite Hw1. by apply (insert_entity_kept _ uid e).
Qed.

Lemma moveUnits_each_kept opts units targets st id :
  entity_kept (world st !! id)
    (world (moveUnits_each hdr opts st units targets) !! id).
Proof. apply foldl_entity_kept. intros. apply moveUnit_kept. Qed.

Lemma collect_member_kept opts acc ut id :
  entity_kept (world acc.1 !! id)
    (world (collect_member hdr opts acc ut).1 !! id).
Proof.
  destruct acc as [st members], ut as [uid tgt]. unfold collect_member.
  destruct (world st !! uid) as [e|] eqn:He; [|apply entity_kept_refl].
  destruct (exit_hold_mode_fields e) as (Ha & Ht & Hm & Hat & Hu & Hb).
  destruct (transform (exit_hold_mode e)) as [tr|] eqn:Htr.
  - destruct (clearAttackIntent opts); simpl;
      apply (insert_entity_kept _ uid e); simpl; congruence.
  - simpl. apply (insert_entity_kept _ uid e); congruence.
Qed.

Lemma collect_members_kept opts st units targets id :
  entity_kept (world st !! id)
    (world (collect_members hdr opts st units targets).1 !! id).
Proof.
  unfold collect_members. generalize (zip units targets).
  generalize (@nil MemberInfo). intros ms uts. revert st ms.
  induction uts as [|ut rest IH]; intros st ms; [apply entity_kept_refl|].
  cbn [foldl]. pose proof (collect_member_kept opts (st, ms) ut id) as H1.
  destruct (collect_member hdr opts (st, ms) ut) as [st1 ms1].
  simpl in H1. exact (entity_kept_trans _ _ _ H1 (IH st1 ms1)).
Qed.

Lemma reset_member_kept st m id :
  entity_kept (world st !! id) (world (reset_member st m) !! id).
Proof.
  unfold reset_member.
  eapply entity_kept_trans; [|apply update_movement_kept].
  rewrite clearPendingRequest_world. apply update_movement_kept.
Qed.

Lemma register_group_world opts st leader members start finish :
  world (register_group opts st leader members start finish)
  = world (foldl (mark_pending (s_nextRequestId st))
             (St.set_nextRequestId
                ((s_nextRequestId st + 1) mod uint64_modulus)%N st) members).
Proof. reflexivity. Qed.

Lemma formation_pathing_kept opts st members id :
  entity_kept (world st !! id)
    (world (formation_pathing hdr opts st members) !! id).
Proof.
  unfold formation_pathing.
  destruct (leader_of members) as [leader|]; [|apply entity_kept_refl].
  eapply entity_kept_trans.
  { apply (foldl_entity_kept reset_member reset_member_kept). }
  set (st1 := foldl reset_member st members).
  assert (Hsend : forall l, entity_kept (world st1 !! id)
                    (world (foldl send_directly st1 l) !! id)).
  { intros l. apply foldl_entity_kept. intros. apply update_movement_kept. }
  destruct (s_pathfinder st1); [|apply Hsend].
  destruct (Point_eqb _ _); [apply Hsend|].
  destruct (if negb (allowDirectFallback opts) then false else _).
  - apply foldl_entity_kept. intros. apply update_movement_kept.
  - rewrite register_group_world.
    apply (foldl_entity_kept (mark_pending (s_nextRequestId st1))
             (fun s a i => update_movement_kept _ _ s i) members
             (St.set_nextRequestId _ st1)).
Qed.

Lemma moveGroup_dispatch_kept opts st members id :
  entity_kept (world st !! id)
    (world (match moveGroup_dispatch hdr opts st members with
            | inl s => s
            | inr p => p.1
            end) !! id).
Proof.
  unfold moveGroup_dispatch. destruct members as [|m0 rest0];
    [apply entity_kept_refl|].
  cbv zeta. destruct (F32.leb _ _); [apply moveUnits_each_kept|].
  set (stats := group_stats (m0 :: rest0)).
  set (members' := (fun m => set_distanceToTarget (to_target_of m) m)
                     <$> (m0 :: rest0)).
  set (st1 := match List.filter (should_advance stats) members' with
              | [] => st
              | _ => _
              end).
  assert (H1 : entity_kept (world st !! id) (world st1 !! id)).
  { unfold st1. destruct (List.filter (should_advance stats) members');
      [apply entity_kept_refl|apply moveUnits_each_kept]. }
  destruct (List.filter (fun m => negb (should_advance stats m)) members')
    as [|a [|b r]]; simpl; try exact H1.
  eapply entity_kept_trans; [exact H1|apply moveUnits_each_kept].
Qed.

Lemma moveGroup_kept opts st units targets id :
  entity_kept (world st !! id)
    (world (moveGroup hdr st units targets opts) !! id).
Proof.
  unfold moveGroup, moveGroup_prepare.
  pose proof (collect_members_kept opts st units targets id) as Hc.
  destruct (collect_members hdr opts st units targets) as [st1 members].
  simpl in Hc.
  destruct members as [|m1 [|m2 rest]]; [exact Hc| |].
  { eapply entity_kept_trans; [exact Hc|apply moveUnits_each_kept]. }
  destruct (List.filter (fun m => negb (isEngaged m)) (m1 :: m2 :: rest))
    as [|m0 l]; [exact Hc|].
  destruct (match s_pathfinder st1 with
            | Some pf => any_target_invalid st1 pf (m0 :: l)
            | None => false
            end); [exact Hc|].
  pose proof (moveGroup_dispatch_kept opts st1 (m0 :: l) id) as Hd.
  destruct (moveGroup_dispatch hdr opts st1 (m0 :: l)) as [s|[s regroup]];
    simpl in Hd.
  - eapply entity_kept_trans; eauto.
  - eapply entity_kept_trans; [exact Hc|].
    eapply entity_kept_trans; [exact Hd|apply formation_pathing_kept].
Qed.

(** X10.  However many units are ordered, grouped or not, [moveUnits]
    creates no entity and deletes none, and leaves the transform and the
    attack, unit and building components of every entity as they are. *)
Theorem X10_moveUnits_keeps_entities st units targets opts id :
  entity_kept (world st !! id) (world (moveUnits hdr st units targets opts) !! id).
Proof.
  unfold moveUnits.
  destruct (negb (length units =? length targets)%nat);
    [apply entity_kept_refl|].
  destruct (groupMove opts && (1 <? length units)%nat).
  - apply moveGroup_kept.
  - apply moveUnits_each_kept.
Qed.

End AnyOrder.

(** ** Orders given before a pathfinder exists *)

Lemma foldl_quiet {A} (step : State -> A -> State) :
  (forall s a, s_pathfinder s = None -> issues_nothing s (step s a)) ->
  forall l st, s_pathfinder st = None -> issues_nothing st (foldl step st l).
Proof.
  intros Hstep l st Hnone.
  apply (foldl_issues_nothing step (fun s => s_pathfinder s = None)); [|done].
  intros s a Hs. pose proof (Hstep s a Hs) as Hq. split; [done|].
  destruct Hq as (Hp & _). congruence.
Qed.

Lemma issues_nothing_statics st st' :
  s_pathfinder st' = s_pathfinder st ->
  s_pendingRequests st' = s_pendingRequests st ->
  s_nextRequestId st' = s_nextRequestId st ->
  issues_nothing st st'.
Proof. intros Hp Hq Hc. repeat split; auto. intros r. by rewrite Hq. Qed.

Section NoPathfinder.
Variable hdr : Header.

Lemma moveUnit_quiet opts st ut :
  s_pathfinder st = None -> issues_nothing st (moveUnit hdr opts st ut).
Proof.
  intros Hnone. destruct ut as [uid tgt]. unfold moveUnit.
  pose proof (resolve_unit_statics hdr opts uid st) as (Rp & Rq & Re & Rc).
  destruct (resolve_unit hdr opts uid st) as [st1 [[tr mv]|]];
    simpl in Rp, Rq, Re, Rc.
  2:{ by apply issues_nothing_statics. }
  eapply issues_nothing_trans; [by apply (issues_nothing_statics st st1)|].
  pose proof (dedup_unit_frame opts uid tgt mv st1 _ eq_refl) as Hd.
  destruct (dedup_unit opts uid tgt mv st1) as [[mv2 st2]|[mv2 st2]];
    simpl in Hd; destruct Hd as (_ & Dp & Dc & Dn).
  - apply (issues_nothing_trans st1 st2); [by repeat split|].
    apply update_movement_issues_nothing.
  - apply (issues_nothing_trans st1 st2); [by repeat split|].
    unfold route_unit.
    assert (Hn2 : s_pathfinder st2 = None) by congruence.
    rewrite Hn2.
    eapply issues_nothing_trans; [apply clearPendingRequest_issues_nothing|].
    apply update_movement_issues_nothing.
Qed.

Lemma moveUnits_each_quiet opts st units targets :
  s_pathfinder st = None ->
  issues_nothing st (moveUnits_each hdr opts st units targets).
Proof. apply foldl_quiet. intros. by apply moveUnit_quiet. Qed.

Lemma reset_member_issues_nothing st m : issues_nothing st (reset_member st m).
Proof.
  unfold reset_member.
  eapply issues_nothing_trans; [apply update_movement_issues_nothing|].
  eapply issues_nothing_trans; [apply clearPendingRequest_issues_nothing|].
  apply update_movement_issues_nothing.
Qed.

Lemma formation_pathing_quiet opts st members :
  s_pathfinder st = None ->
  issues_nothing st (formation_pathing hdr opts st members).
Proof.
  intros Hnone. unfold formation_pathing.
  destruct (leader_of members) as [leader|]; [|apply issues_nothing_refl].
  assert (H1 : issues_nothing st (foldl reset_member st members)).
  { apply foldl_quiet; [|done]. intros. apply reset_member_issues_nothing. }
  eapply issues_nothing_trans; [exact H1|].
  destruct H1 as (Hp & _). rewrite Hp, Hnone.
  apply foldl_quiet; [|congruence].
  intros. apply update_movement_issues_nothing.
Qed.

Lemma moveGroup_dispatch_quiet opts st members :
  s_pathfinder st = None ->
  issues_nothing st (match moveGroup_dispatch hdr opts st members with
                     | inl s => s
                     | inr p => p.1
                     end).
Proof.
  intros Hnone. unfold moveGroup_dispatch. destruct members as [|m0 rest0];
    [apply issues_nothing_refl|].
  cbv zeta. destruct (F32.leb _ _); [by apply moveUnits_each_quiet|].
  set (stats := group_stats (m0 :: rest0)).
  set (members' := (fun m => set_distanceToTarget (to_target_of m) m)
                     <$> (m0 :: rest0)).
  set (st1 := match List.filter (should_advance stats) members' with
              | [] => st
              | _ => _
              end).
  assert (H1 : issues_nothing st st1).
  { unfold st1. destruct (List.filter (should_advance stats) members');
      [apply issues_nothing_refl|by apply moveUnits_each_quiet]. }
  assert (Hn1 : s_pathfinder st1 = None) by (destruct H1; congruence).
  destruct (List.filter (fun m => negb (should_advance stats m)) members')
    as [|a [|b r]]; simpl; try exact H1.
  eapply issues_nothing_trans; [exact H1|by apply moveUnits_each_quiet].
Qed.

(** X9.  While no pathfinder exists (before [initialize]), a move order of
    any size, grouped or not, allocates no request id and registers no
    request: the counter is unchanged and every request of the ledger was
    there before. *)
Theorem X9_no_pathfinder_no_request st units targets opts :
  s_pathfinder st = None ->
  issues_nothing st (moveUnits hdr st units targets opts).
Proof.
  intros Hnone. unfold moveUnits.
  destruct (negb (length units =? length targets)%nat);
    [apply issues_nothing_refl|].
  destruct (groupMove opts && (1 <? length units)%nat);
    [|by apply moveUnits_each_quiet].
  unfold moveGroup, moveGroup_prepare.
  pose proof (collect_members_frame hdr opts st units targets)
    as (Cp & Cq & Ce & Cc & _).
  destruct (collect_members hdr opts st units targets) as [st1 members].
  simpl in Cp, Cq, Ce, Cc.
  assert (Hc : issues_nothing st st1) by by apply issues_nothing_statics.
  assert (Hn1 : s_pathfinder st1 = None) by congruence.
  destruct members as [|m1 [|m2 rest]]; [exact Hc| |].
  { eapply issues_nothing_trans; [exact Hc|by apply moveUnits_each_quiet]. }
  destruct (List.filter (fun m => negb (isEngaged m)) (m1 :: m2 :: rest))
    as [|m0 l]; [exact Hc|].
  rewrite Hn1.
  pose proof (moveGroup_dispatch_quiet opts st1 (m0 :: l) Hn1) as Hd.
  destruct (moveGroup_dispatch hdr opts st1 (m0 :: l)) as [s|[s regroup]];
    simpl in Hd.
  - eapply issues_nothing_trans; eauto.
  - eapply issues_nothing_trans; [exact Hc|].
    eapply issues_nothing_trans; [exact Hd|].
    apply formation_pathing_quiet. destruct Hd. congruence.
Qed.

End NoPathfinder.

(** ** Engaged members of a group order *)

Lemma Forall_List_filter {A} (P : A -> Prop) (f : A -> bool) l :
  Forall P l -> Forall P (List.filter f l).
Proof.
  induction 1 as [|a l Ha Hl IH]; simpl; [constructor|].
  destruct (f a); [by constructor|done].
Qed.

Lemma foldl_world_other {A} (step : State -> A -> State) (g : A -> EntityID) id :
  (forall s a, g a ≠ id -> world (step s a) !! id = world s !! id) ->
  forall l st, Forall (fun a => g a ≠ id) l ->
    world (foldl step st l) !! id = world st !! id.
Proof.
  intros Hstep l. induction l as [|a rest IH]; intros st Hall; [done|].
  inversion Hall; subst. simpl. rewrite IH by done. by apply Hstep.
Qed.

Section Engaged.
Variable hdr : Header.

Lemma moveUnit_other opts st ut id :
  ut.1 ≠ id -> world (moveUnit hdr opts st ut) !! id = world st !! id.
Proof.
  destruct ut as [uid tgt]. simpl. intros Hne. unfold moveUnit.
  destruct (resolve_unit hdr opts uid st) as [st1 [[tr mv]|]] eqn:Hres.
  - destruct (resolve_unit_resolved hdr opts uid st st1 tr mv Hres)
      as (e & e1 & _ & _ & _ & Hw1 & _).
    assert (H1 : world st1 !! id = world st !! id)
      by (rewrite Hw1; by apply lookup_insert_ne).
    pose proof (dedup_unit_frame opts uid tgt mv st1 _ eq_refl) as Hd.
    destruct (dedup_unit opts uid tgt mv st1) as [[mv2 st2]|[mv2 st2]];
      simpl in Hd; destruct Hd as (Dw & _).
    + rewrite store_movement_other by done. by rewrite Dw.
    + pose proof (route_unit_world hdr opts uid tgt tr mv2 st2) as Rw.
      destruct (route_unit hdr opts uid tgt tr mv2 st2) as [mv3 st3].
      simpl in Rw. rewrite store_movement_other by done. by rewrite Rw, Dw.
  - destruct (resolve_unit_dropped hdr opts uid st st1 Hres)
      as [[_ ->]|(e & e1 & _ & Hw1 & _)]; [done|].
    rewrite Hw1. by apply lookup_insert_ne.
Qed.

Lemma moveUnits_each_other opts units id : forall targets st,
  Forall (fun u => u ≠ id) units ->
  world (moveUnits_each hdr opts st units targets) !! id = world st !! id.
Proof.
  unfold moveUnits_each.
  induction units as [|u rest IH]; intros targets st Hall; [done|].
  inversion Hall; subst. destruct targets as [|t ts]; [done|].
  cbn [zip zip_with foldl]. rewrite IH by done.
  by apply (moveUnit_other opts st (u, t)).
Qed.

Lemma moveUnits_each_members_other opts st (ms : list MemberInfo) id :
  Forall (fun m => member_id m ≠ id) ms ->
  world (moveUnits_each hdr opts st (member_id <$> ms) (member_target <$> ms)) !! id
  = world st !! id.
Proof. intros Hall. apply moveUnits_each_other. by apply Forall_fmap. Qed.

Lemma reset_member_other st m id :
  member_id m ≠ id -> world (reset_member st m) !! id = world st !! id.
Proof.
  intros Hne. unfold reset_member.
  rewrite update_movement_other by done.
  rewrite clearPendingRequest_world.
  by rewrite update_movement_other.
Qed.

Lemma formation_pathing_other opts st members id :
  Forall (fun m => member_id m ≠ id) members ->
  world (formation_pathing hdr opts st members) !! id = world st !! id.
Proof.
  intros Hall. unfold formation_pathing.
  destruct (leader_of members) as [leader|]; [|done].
  set (st1 := foldl reset_member st members).
  assert (H1 : world st1 !! id = world st !! id).
  { apply (foldl_world_other reset_member member_id); [|done].
    intros. by apply reset_member_other. }
  assert (Hsend : world (foldl send_directly st1 members) !! id = world st !! id).
  { rewrite <- H1. apply (foldl_world_other send_directly member_id); [|done].
    intros. by apply update_movement_other. }
  destruct (s_pathfinder st1); [|exact Hsend].
  destruct (Point_eqb _ _); [exact Hsend|].
  destruct (if negb (allowDirectFallback opts) then false else _).
  - rewrite <- H1.
    apply (foldl_world_other send_directly_noted member_id); [|done].
    intros. by apply update_movement_other.
  - rewrite register_group_world, <- H1.
    apply (foldl_world_other (mark_pending (s_nextRequestId st1)) member_id
             id (fun s a Hne => update_movement_other _ _ s id (not_eq_sym Hne))
             members (St.set_nextRequestId _ st1) Hall).
Qed.

Lemma moveGroup_dispatch_other opts st members id :
  Forall (fun m => member_id m ≠ id) members ->
  match moveGroup_dispatch hdr opts st members with
  | inl s => world s !! id = world st !! id
  | inr p => world p.1 !! id = world st !! id
             /\ Forall (fun m => member_id m ≠ id) p.2
  end.
Proof.
  intros Hall. unfold moveGroup_dispatch. destruct members as [|m0 rest0]; [done|].
  cbv zeta.
  set (stats := group_stats (m0 :: rest0)).
  set (members' := (fun m => set_distanceToTarget (to_target_of m) m)
                     <$> (m0 :: rest0)).
  assert (Hall' : Forall (fun m => member_id m ≠ id) members').
  { unfold members'. apply Forall_fmap.
    eapply Forall_impl; [exact Hall|]. by intros m Hm. }
  destruct (F32.leb _ _); [by apply moveUnits_each_members_other|].
  set (st1 := match List.filter (should_advance stats) members' with
              | [] => st
              | _ => _
              end).
  assert (H1 : world st1 !! id = world st !! id).
  { unfold st1.
    pose proof (Forall_List_filter _ (should_advance stats) _ Hall') as Hd.
    destruct (List.filter (should_advance stats) members'); [done|].
    by apply moveUnits_each_members_other. }
  pose proof (Forall_List_filter _ (fun m => negb (should_advance stats m)) _ Hall')
    as Hr.
  destruct (List.filter (fun m => negb (should_advance stats m)) members')
    as [|a [|b r]]; simpl; [exact H1| |by split].
  rewrite <- H1. apply (moveUnits_each_other _ [member_id a]).
  inversion Hr; subst. by constructor.
Qed.

Lemma collect_member_engaged opts acc ut id e :
  clearAttackIntent opts = false ->
  world acc.1 !! id = Some e ->
  is_Some (attackTarget e) ->
  (forall m, m ∈ acc.2 -> member_id m = id -> isEngaged m = true) ->
  let acc' := collect_member hdr opts acc ut in
  (exists e', world acc'.1 !! id = Some e' /\ attackTarget e' = attackTarget e)
  /\ (forall m, m ∈ acc'.2 -> member_id m = id -> isEngaged m = true).
Proof.
  destruct acc as [st members], ut as [uid tgt]. simpl.
  intros Hopt He Hat Hms. unfold collect_member.
  destruct (world st !! uid) as [e0|] eqn:He0; [|by eauto].
  destruct (exit_hold_mode_fields e0) as (_ & _ & _ & Hat0 & _).
  destruct (transform (exit_hold_mode e0)) as [tr|] eqn:Htr.
  - rewrite Hopt. simpl. destruct (decide (id = uid)) as [->|Hne].
    + assert (e0 = e) by congruence. subst e0. split.
      * rewrite lookup_insert_eq. by eexists.
      * intros m Hm Hid. apply elem_of_app in Hm as [Hm|Hm]; [by apply Hms|].
        apply list_elem_of_singleton in Hm. subst m. simpl.
        rewrite Hat0. by destruct Hat as [t ->].
    + split.
      * rewrite lookup_insert_ne by done. eauto.
      * intros m Hm Hid. apply elem_of_app in Hm as [Hm|Hm]; [by apply Hms|].
        apply list_elem_of_singleton in Hm. subst m. simpl in Hid. congruence.
  - simpl. split; [|done]. destruct (decide (id = uid)) as [->|Hne].
    + assert (e0 = e) by congruence. subst e0.
      rewrite lookup_insert_eq. by eexists.
    + rewrite lookup_insert_ne by done. eauto.
Qed.

Lemma foldl_collect_member_engaged opts id uts : forall acc e,
  clearAttackIntent opts = false ->
  world acc.1 !! id = Some e ->
  is_Some (attackTarget e) ->
  (forall m, m ∈ acc.2 -> member_id m = id -> isEngaged m = true) ->
  let acc' := foldl (collect_member hdr opts) acc uts in
  (exists e', world acc'.1 !! id = Some e' /\ attackTarget e' = attackTarget e)
  /\ (forall m, m ∈ acc'.2 -> member_id m = id -> isEngaged m = true).
Proof.
  induction uts as [|ut rest IH]; intros acc e Hopt He Hat Hms; [by eauto|].
  cbn [foldl].
  destruct (collect_member_engaged opts acc ut id e Hopt He Hat Hms)
    as ((e1 & He1 & Hat1) & Hms1).
  destruct (IH (collect_member hdr opts acc ut) e1 Hopt He1
              ltac:(by rewrite Hat1) Hms1) as ((e2 & He2 & Hat2) & Hms2).
  split; [|done]. exists e2. split; [done|congruence].
Qed.

(** X11.  In a group order that leaves attack intents in place
    ([clearAttackIntent] unset) and collects at least two members, an entity
    with an attack target is never moved: its movement component stays as it
    was (the default one is attached where it had none), and its attack
    target and transform are unchanged. *)
Theorem X11_engaged_member_is_not_moved opts st units targets st1 members id e :
  clearAttackIntent opts = false ->
  collect_members hdr opts st units targets = (st1, members) ->
  (2 <= length members)%nat ->
  world st !! id = Some e ->
  is_Some (attackTarget e) ->
  exists e', world (moveGroup hdr st units targets opts) !! id = Some e'
    /\ attackTarget e' = attackTarget e
    /\ transform e' = transform e
    /\ (movement e' = movement e
        \/ (movement e = None /\ movement e' = Some (defaultMovement hdr))).
Proof.
  intros Hopt Hcol Hlen He Hat.
  destruct (foldl_collect_member_engaged opts id (zip units targets) (st, []) e
              Hopt He Hat) as ((e1 & He1 & Hat1) & Hms).
  { intros m Hm. by apply elem_of_nil in Hm. }
  fold (collect_members hdr opts st units targets) in He1, Hms.
  pose proof (collect_members_frame hdr opts st units targets)
    as (_ & _ & _ & _ & Hmv & _).
  pose proof (collect_members_kept hdr opts st units targets id) as Hk.
  specialize (Hmv id). rewrite Hcol in He1, Hms, Hmv, Hk.
  simpl in He1, Hms, Hmv, Hk. rewrite He, He1 in Hmv, Hk. simpl in Hmv, Hk.
  destruct Hk as (Htr & _).
  assert (Hsame : world (moveGroup hdr st units targets opts) !! id
                  = world st1 !! id).
  { unfold moveGroup, moveGroup_prepare. rewrite Hcol.
    destruct members as [|m1 [|m2 rest]]; [done|simpl in Hlen; lia|].
    assert (Hall : Forall (fun m => member_id m ≠ id)
                     (List.filter (fun m => negb (isEngaged m))
                        (m1 :: m2 :: rest))).
    { apply Forall_forall. intros m Hm.
      apply list_elem_of_In, filter_In in Hm as [Hin Hneg].
      intros Hid. apply list_elem_of_In in Hin.
      rewrite (Hms m Hin Hid) in Hneg. done. }
    destruct (List.filter (fun m => negb (isEngaged m)) (m1 :: m2 :: rest))
      as [|m0 l]; [done|].
    destruct (match s_pathfinder st1 with
              | Some pf => any_target_invalid st1 pf (m0 :: l)
              | None => false
              end); [done|].
    pose proof (moveGroup_dispatch_other opts st1 (m0 :: l) id Hall) as Hd.
    destruct (moveGroup_dispatch hdr opts st1 (m0 :: l)) as [s|[s regroup]];
      [done|].
    simpl in Hd. destruct Hd as (Hw & Hreg).
    rewrite formation_pathing_other by done. done. }
  exists e1. rewrite Hsame. by repeat split.
Qed.

End Engaged.

(** ** Attack orders *)

Lemma intent_kept_refl o : intent_kept o o.
Proof. by destruct o. Qed.

Lemma intent_kept_trans a b c :
  intent_kept a b -> intent_kept b c -> intent_kept a c.
Proof.
  destruct a, b, c; simpl; try tauto.
  intros (A1 & A2) (B1 & B2). split; [congruence|auto].
Qed.

Lemma update_movement_intent uid f st id :
  intent_kept (world st !! id) (world (update_movement uid f st) !! id).
Proof.
  destruct (decide (id = uid)) as [->|Hne].
  - rewrite update_movement_lookup. by destruct (world st !! uid).
  - rewrite update_movement_other by done. apply intent_kept_refl.
Qed.

Lemma insert_intent_kept (w : gmap EntityID Entity) uid e e1 id :
  w !! uid = Some e ->
  attackTarget e1 = attackTarget e ->
  hold_inactive e1 ->
  intent_kept (w !! id) (<[uid := e1]> w !! id).
Proof.
  intros He Hat Hh. destruct (decide (id = uid)) as [->|Hne].
  - rewrite lookup_insert_eq, He. by split.
  - rewrite lookup_insert_ne by done. apply intent_kept_refl.
Qed.

Section AttackOrders.
Variable hdr : Header.

Lemma resolve_unit_intent opts uid st id :
  clearAttackIntent opts = false ->
  intent_kept (world st !! id) (world (resolve_unit hdr opts uid st).1 !! id).
Proof.
  intros Hopt. unfold resolve_unit.
  destruct (world st !! uid) as [e|] eqn:He; [|apply intent_kept_refl].
  destruct (exit_hold_mode_fields e) as (_ & _ & _ & Hat & _).
  pose proof (exit_hold_mode_inactive e) as Hh.
  destruct (melee_locked (exit_hold_mode e)).
  { simpl. by apply (insert_intent_kept _ uid e). }
  destruct (transform (exit_hold_mode e)).
  - rewrite Hopt. simpl. by apply (insert_intent_kept _ uid e).
  - simpl. by apply (insert_intent_kept _ uid e).
Qed.

Lemma moveUnit_intent opts st ut id :
  clearAttackIntent opts = false ->
  intent_kept (world st !! id) (world (moveUnit hdr opts st ut) !! id).
Proof.
  intros Hopt. destruct ut as [uid tgt]. unfold moveUnit.
  pose proof (resolve_unit_intent opts uid st id Hopt) as H1.
  destruct (resolve_unit hdr opts uid st) as [st1 [[tr mv]|]]; [|exact H1].
  simpl in H1.
  pose proof (dedup_unit_frame opts uid tgt mv st1 _ eq_refl) as Hd.
  destruct (dedup_unit opts uid tgt mv st1) as [[mv2 st2]|[mv2 st2]];
    simpl in Hd; destruct Hd as (Dw & _).
  - eapply intent_kept_trans; [exact H1|]. rewrite <- Dw.
    apply update_movement_intent.
  - pose proof (route_unit_world hdr opts uid tgt tr mv2 st2) as Rw.
    destruct (route_unit hdr opts uid tgt tr mv2 st2) as [mv3 st3].
    simpl in Rw. eapply intent_kept_trans; [exact H1|].
    rewrite <- Dw, <- Rw. apply update_movement_intent.
Qed.

Lemma attack_unit_other target chase st uid id :
  uid ≠ id ->
  world (attack_unit hdr target chase st uid) !! id = world st !! id.
Proof.
  intros Hne. unfold attack_unit.
  destruct (world st !! uid) as [e|]; [|done].
  set (e1 := Ent.set_attackTarget _ _).
  assert (H1 : world (put_entity uid e1 st) !! id = world st !! id)
    by (simpl; by apply lookup_insert_ne).
  destruct (negb chase); [exact H1|].
  destruct (world (put_entity uid e1 st) !! target) as [t|]; [|exact H1].
  destruct (transform t); [|exact H1].
  destruct (transform e1); [|exact H1].
  cbn [world St.set_world]. rewrite lookup_alter_ne by done.
  rewrite moveUnits_single, (moveUnit_other hdr _ _ (uid, _)) by done.
  exact H1.
Qed.

Lemma attack_unit_self target chase st uid e :
  world st !! uid = Some e ->
  exists e', world (attack_unit hdr target chase st uid) !! uid = Some e'
             /\ attackTarget e' = Some (mkAttackTarget target chase)
             /\ hold_inactive e'.
Proof.
  intros He. unfold attack_unit. rewrite He.
  set (e1 := Ent.set_attackTarget _ _).
  assert (Hh1 : hold_inactive e1) by apply (exit_hold_mode_inactive e).
  assert (H1 : world (put_entity uid e1 st) !! uid = Some e1)
    by (simpl; apply lookup_insert_eq).
  assert (Hdone : exists e', world (put_entity uid e1 st) !! uid = Some e'
             /\ attackTarget e' = Some (mkAttackTarget target chase)
             /\ hold_inactive e') by (exists e1; by repeat split).
  destruct (negb chase); [exact Hdone|].
  destruct (world (put_entity uid e1 st) !! target) as [t|]; [|exact Hdone].
  destruct (transform t) as [tt|]; [|exact Hdone].
  destruct (transform e1) as [ta|]; [|exact Hdone].
  set (pos := desired_position e1 t tt ta).
  set (opts := mkOptions true false _).
  pose proof (moveUnit_intent opts (put_entity uid e1 st) (uid, pos) uid eq_refl)
    as Hk.
  rewrite H1 in Hk. rewrite moveUnits_single.
  cbn [world St.set_world]. rewrite lookup_alter_eq.
  destruct (world (moveUnit hdr opts (put_entity uid e1 st) (uid, pos)) !! uid)
    as [e2|]; [|done].
  simpl in Hk. destruct Hk as (Hat & Hh). simpl.
  eexists. split; [reflexivity|]. split; [exact Hat|]. by apply Hh.
Qed.

(** X12.  After an attack order on a target other than 0, every ordered
    unit that exists has the attack intent [(target, shouldChase)] and is
    out of the hold stance, also after the chase move the order itself
    issues; an entity that is not among the ordered units is left exactly
    as it was. *)
Theorem X12_attack_order_records_intent st units target chase id :
  target ≠ 0%N ->
  let st' := attack_target hdr st units target chase in
  (id ∈ units -> is_Some (world st !! id) ->
     exists e', world st' !! id = Some e'
                /\ attackTarget e' = Some (mkAttackTarget target chase)
                /\ hold_inactive e')
  /\ (id ∉ units -> world st' !! id = world st !! id).
Proof.
  intros Hnz st'. subst st'. unfold attack_target.
  apply N.eqb_neq in Hnz. rewrite Hnz. clear Hnz.
  set (P := fun s : State =>
              exists e', world s !! id = Some e'
                /\ attackTarget e' = Some (mkAttackTarget target chase)
                /\ hold_inactive e').
  split.
  - assert (Hfold : forall l s, is_Some (world s !! id) -> id ∈ l \/ P s ->
              P (foldl (attack_unit hdr target chase) s l)).
    { induction l as [|u rest IH]; intros s Hs Hor.
      { destruct Hor as [Hin|HP]; [by apply elem_of_nil in Hin|done]. }
      cbn [foldl]. destruct (decide (u = id)) as [->|Hne].
      - destruct Hs as [e He].
        destruct (attack_unit_self target chase s id e He) as (e' & He' & Hr).
        apply IH; [by rewrite He'|]. right. by exists e'.
      - apply IH.
        + by rewrite attack_unit_other.
        + destruct Hor as [Hin|HP].
          * left. apply elem_of_cons in Hin as [Heq|Hin]; [congruence|done].
          * right. unfold P. by rewrite attack_unit_other. }
    intros Hin Hs. apply Hfold; [done|by left].
  - intros Hnin.
    apply (foldl_world_other (attack_unit hdr target chase) (fun u => u) id).
    + intros s a Hne. by apply attack_unit_other.
    + apply Forall_forall. intros u Hu ->. done.
Qed.

Lemma attack_unit_still target chase st uid :
  chase = false \/ world st !! target = None ->
  let st' := attack_unit hdr target chase st uid in
  (forall id, movement_of st' id = movement_of st id)
  /\ (world st !! target = None -> world st' !! target = None)
  /\ s_pathfinder st' = s_pathfinder st
  /\ s_pendingRequests st' = s_pendingRequests st
  /\ s_entityToRequest st' = s_entityToRequest st
  /\ s_nextRequestId st' = s_nextRequestId st.
Proof.
  intros Hor. unfold attack_unit.
  destruct (world st !! uid) as [e|] eqn:He; [|done].
  destruct (exit_hold_mode_fields e) as (_ & _ & Hm & _).
  set (e1 := Ent.set_attackTarget _ _).
  assert (H1 : (forall id, movement_of (put_entity uid e1 st) id = movement_of st id)
               /\ (world st !! target = None ->
                   world (put_entity uid e1 st) !! target = None)).
  { split.
    - intros id. unfold movement_of. simpl.
      destruct (decide (id = uid)) as [->|Hne].
      + rewrite lookup_insert_eq, He. simpl. exact Hm.
      + by rewrite lookup_insert_ne.
    - intros Hnone. simpl. rewrite lookup_insert_ne; [done|congruence]. }
  destruct H1 as (Hmv & Hkeep).
  destruct Hor as [->|Hnone]; [by repeat split|].
  destruct chase; [|by repeat split].
  cbn [negb]. cbv iota. rewrite (Hkeep Hnone). by repeat split.
Qed.

(** X13.  An attack order without [shouldChase], or one whose target
    entity does not exist, moves nobody: the movement component of every
    entity is as before, for any list of units, and the request ledger, the
    id counter and the pathfinder are untouched. *)
Theorem X13_attack_without_chase_moves_nothing st units target chase :
  chase = false \/ world st !! target = None ->
  let st' := attack_target hdr st units target chase in
  (forall id, movement_of st' id = movement_of st id)
  /\ s_pathfinder st' = s_pathfinder st
  /\ s_pendingRequests st' = s_pendingRequests st
  /\ s_entityToRequest st' = s_entityToRequest st
  /\ s_nextRequestId st' = s_nextRequestId st.
Proof.
  intros Hor st'. subst st'. unfold attack_target.
  destruct (target =? 0)%N; [done|].
  revert st Hor. induction units as [|u rest IH]; intros st Hor; [done|].
  cbn [foldl].
  destruct (attack_unit_still target chase st u Hor)
    as (Hmv & Hkeep & Hp & Hq & He & Hc).
  destruct (IH (attack_unit hdr target chase st u)) as (Gmv & Gp & Gq & Ge & Gc).
  { destruct Hor as [->|Hnone]; [by left|right; by apply Hkeep]. }
  repeat split; congruence.
Qed.

End AttackOrders.

(** ** The reconciler *)

Section ReconcilerFrame.
Variable hdr : Header.

Lemma reconcile_entity_fields rid req pts st tgt offset e :
  let e' := reconcile_entity hdr rid req pts st tgt offset e in
  transform e' = transform e /\ attack e' = attack e
  /\ unit_component e' = unit_component e /\ building e' = building e
  /\ attackTarget e' = attackTarget e /\ holdMode e' = holdMode e.
Proof.
  unfold reconcile_entity.
  destruct (movement e) as [mv|]; [|done].
  destruct (transform e) as [tr|] eqn:Htr; [|done].
  by destruct (negb (pathPending mv) || negb (pendingRequestId mv =? rid)%N).
Qed.

Lemma process_result_counter st result :
  s_nextRequestId (process_result hdr st result) = s_nextRequestId st.
Proof.
  unfold process_result.
  destruct (s_pendingRequests st !! request_id result) as [req|]; [|done].
  match goal with |- context [foldl ?f (?s, ?p) ?l] =>
    destruct (fold_add_member_frame hdr (request_id result) req
                (result_path result) l s p) as (_ & _ & _ & H)
  end.
  simpl in H. exact H.
Qed.

Lemma process_result_kept st result id :
  entity_kept (world st !! id) (world (process_result hdr st result) !! id)
  /\ intent_kept (world st !! id) (world (process_result hdr st result) !! id).
Proof.
  destruct (s_pendingRequests st !! request_id result) as [req|] eqn:Hreq.
  2:{ rewrite process_result_absent by done.
      split; [apply entity_kept_refl|apply intent_kept_refl]. }
  rewrite (process_result_lookup hdr st result req id Hreq).
  destruct (assigned_target id (request_entries req)) as [tgt|];
    [|split; [apply entity_kept_refl|apply intent_kept_refl]].
  destruct (world st !! id) as [e|]; [|done]. simpl.
  destruct (reconcile_entity_fields (request_id result) req (result_path result)
              st tgt (vsub tgt (target req)) e) as (Ht & Ha & Hu & Hb & Hat & Hh).
  split; [by repeat split|]. split; [done|].
  unfold hold_inactive. by rewrite Hh.
Qed.

Lemma process_result_entries st result e rid :
  s_entityToRequest (process_result hdr st result) !! e = Some rid ->
  s_entityToRequest st !! e = Some rid.
Proof.
  destruct (s_pendingRequests st !! request_id result) as [req|] eqn:Hreq.
  2:{ by rewrite process_result_absent. }
  rewrite (process_result_entities hdr st result req Hreq). intros H.
  by apply foldl_remove_entry_subseteq, remove_entry_subseteq in H.
Qed.

(** X14.  The reconciler only consumes: whatever the results, it allocates
    no id and leaves the pathfinder alone, every request and every entry of
    the ledger afterwards was there before, no entity appears or
    disappears, and of an entity only the movement component can change
    (transform, attack, unit and building components, attack intent and hold
    stance stay). *)
Theorem X14_reconciler_only_consumes st results :
  let st' := processPathResults hdr st results in
  s_pathfinder st' = s_pathfinder st
  /\ s_nextRequestId st' = s_nextRequestId st
  /\ (forall rid req, s_pendingRequests st' !! rid = Some req ->
                      s_pendingRequests st !! rid = Some req)
  /\ (forall e rid, s_entityToRequest st' !! e = Some rid ->
                    s_entityToRequest st !! e = Some rid)
  /\ (forall id, entity_kept (world st !! id) (world st' !! id)
                 /\ intent_kept (world st !! id) (world st' !! id)).
Proof.
  unfold processPathResults.
  destruct (s_pathfinder st) eqn:Hpf.
  2:{ simpl. rewrite Hpf. repeat split;
        auto using entity_kept_refl, intent_kept_refl. }
  cbv zeta. rewrite foldl_process_result_pathfinder.
  split; [done|]. clear Hpf. revert st.
  induction results as [|r rest IH]; intros st.
  { simpl. repeat split; auto using entity_kept_refl, intent_kept_refl. }
  cbn [foldl].
  destruct (IH (process_result hdr st r)) as (Gc & Gq & Ge & Gk).
  split; [by rewrite Gc, process_result_counter|].
  split.
  { intros rid req Hreq. apply Gq in Hreq.
    rewrite process_result_pending in Hreq.
    by apply lookup_delete_Some in Hreq as [_ ?]. }
  split.
  { intros e rid He. by apply Ge, process_result_entries in He. }
  intros id. destruct (Gk id) as (K1 & K2).
  destruct (process_result_kept st r id) as (P1 & P2).
  split; [eapply entity_kept_trans|eapply intent_kept_trans]; eauto.
Qed.

(** X15.  On a ledger as the resolvers register it, a reconciler round
    with a pathfinder leaves the ledger well formed, and for every result
    delivered the request is gone and no entity is left mapped to it. *)
Theorem X15_delivered_request_leaves_no_entry st results r :
  ledger_wf st ->
  is_Some (s_pathfinder st) ->
  r ∈ results ->
  let st' := processPathResults hdr st results in
  ledger_wf st'
  /\ s_pendingRequests st' !! request_id r = None
  /\ forall e, s_entityToRequest st' !! e ≠ Some (request_id r).
Proof.
  intros Hwf [pf Hpf] Hin st'.
  assert (Hwf' : ledger_wf st') by by apply processPathResults_keeps_wf.
  assert (Hgone : s_pendingRequests st' !! request_id r = None).
  { subst st'. unfold processPathResults. rewrite Hpf.
    apply foldl_process_result_consumes. by apply list_elem_of_fmap_2. }
  split; [done|]. split; [done|].
  intros e He. destruct Hwf' as [HA _].
  destruct (HA e _ He) as (req & Hreq & _). congruence.
Qed.

(** X16.  A member that still waits for the request gets the path of the
    result: it no longer waits, its goal is its own destination, it stands
    still, its path is what remains of the waypoints (shifted by the offset
    of its destination from the request's), and when a waypoint remains the
    first one is its target. *)
Theorem X16_waiting_member_receives_path st result req id tgt e mv tr wp rest :
  is_Some (s_pathfinder st) ->
  s_pendingRequests st !! request_id result = Some req ->
  assigned_target id (request_entries req) = Some tgt ->
  world st !! id = Some e ->
  movement e = Some mv ->
  transform e = Some tr ->
  pathPending mv = true ->
  pendingRequestId mv = request_id result ->
  remaining_waypoints hdr st (result_path result) (vsub tgt (target req)) tr
  = wp :: rest ->
  exists mv',
    movement_of (processPathResults hdr st [result]) id = Some mv'
    /\ path mv' = wp :: rest
    /\ hasTarget mv' = true /\ target_x mv' = wp.1 /\ target_y mv' = wp.2
    /\ goalX mv' = vec_x tgt /\ goalY mv' = vec_z tgt
    /\ vx mv' = F32.zero /\ vz mv' = F32.zero
    /\ pathPending mv' = false /\ pendingRequestId mv' = 0%N.
Proof.
  intros [pf Hpf] Hreq Htgt He Hmv Htr Hpend Hrid Hwps.
  unfold processPathResults. rewrite Hpf. cbn [foldl].
  unfold movement_of.
  rewrite (process_result_lookup hdr st result req id Hreq), Htgt, He.
  simpl. unfold reconcile_entity. rewrite Hmv, Htr, Hpend, Hrid, N.eqb_refl.
  simpl. rewrite Hwps. unfold apply_path.
  eexists. split; [reflexivity|]. by repeat split.
Qed.

End ReconcilerFrame.

(** ** From the order to the path *)

Section OrderAndResult.
Variable hdr : Header.

(** X17.  Order and delivery compose: when a single-unit order has issued
    a request (the case of X8) and the reconciler then receives the result
    for the id the order allocated, the unit that was ordered gets the path
    (its path is what remains of the waypoints, the first one its target),
    it no longer waits, and the ledger holds neither the request nor an
    entry of the unit. *)
Theorem X17_issued_request_is_delivered_to_the_unit
    opts st uid tgt st1 tr mv mv2 st2 pf pts wp rest :
  resolve_unit hdr opts uid st = (st1, Some (tr, mv)) ->
  dedup_unit opts uid tgt mv st1 = inr (mv2, st2) ->
  s_pathfinder st = Some pf ->
  let start := worldToGrid st (vec_x (position tr)) (vec_z (position tr)) in
  let finish := worldToGrid st (vec_x tgt) (vec_z tgt) in
  Point_eqb start finish = false ->
  allowDirectFallback opts = false
  \/ DIRECT_PATH_THRESHOLD hdr < manhattan start finish ->
  (supersede_existing opts uid (vec_x tgt) (vec_z tgt) st2).1 = false ->
  let ordered := moveUnits hdr st [uid] [tgt] opts in
  let rid := s_nextRequestId st in
  remaining_waypoints hdr ordered pts (vsub tgt tgt) tr = wp :: rest ->
  let st' := processPathResults hdr ordered [mkResult rid pts] in
  (exists mv',
     movement_of st' uid = Some mv'
     /\ path mv' = wp :: rest
     /\ hasTarget mv' = true /\ target_x mv' = wp.1 /\ target_y mv' = wp.2
     /\ goalX mv' = vec_x tgt /\ goalY mv' = vec_z tgt
     /\ pathPending mv' = false /\ pendingRequestId mv' = 0%N)
  /\ s_pendingRequests st' !! rid = None
  /\ s_entityToRequest st' !! uid = None.
Proof.
  intros Hres Hdedup Hpf start finish Hdiff Hfar Hnew ordered rid Hwps st'.
  destruct (far_order_issues_request hdr opts st uid tgt st1 tr mv mv2 st2 pf
              Hres Hdedup Hpf Hdiff Hfar Hnew)
    as ((mv1 & Hmv1 & Hpend & Hprid & _) & Hreq & Hentry & _ & _ & Hsub).
  fold ordered rid in Hmv1, Hprid, Hreq, Hentry, Hsub.
  destruct (resolve_unit_resolved hdr opts uid st st1 tr mv Hres)
    as (e & _ & He & Htr & _).
  pose proof (moveUnit_kept hdr opts st (uid, tgt) uid) as Hk.
  rewrite <- moveUnits_single in Hk. fold ordered in Hk. rewrite He in Hk.
  unfold movement_of in Hmv1.
  destruct (world ordered !! uid) as [e1|] eqn:He1; [|done].
  simpl in Hmv1, Hk. destruct Hk as (Htr1 & _). rewrite Htr in Htr1.
  assert (Hpf' : is_Some (s_pathfinder ordered)).
  { unfold submitted_requests in Hsub.
    destruct (s_pathfinder ordered); [by eexists|].
    by destruct (match s_pathfinder st with Some p => submitted p | None => [] end). }
  destruct Hpf' as [pf' Hpf'].
  subst st'. set (result := mkResult rid pts).
  assert (Hreq' : s_pendingRequests ordered !! request_id result
                  = Some (mkPending uid tgt opts [] [])) by exact Hreq.
  unfold processPathResults. rewrite Hpf'. cbn [foldl].
  split.
  - unfold movement_of.
    rewrite (process_result_lookup hdr ordered result _ uid Hreq').
    pose proof (assigned_target_owner (mkPending uid tgt opts [] [])) as Ho.
    cbn [entity_id target] in Ho. rewrite Ho, He1.
    simpl. unfold reconcile_entity. rewrite Hmv1, Htr1, Hpend, Hprid.
    simpl. rewrite N.eqb_refl. simpl. rewrite Hwps. unfold apply_path.
    eexists. split; [reflexivity|]. by repeat split.
  - split.
    + rewrite process_result_pending. apply lookup_delete_eq.
    + rewrite (process_result_entities hdr ordered result _ Hreq').
      simpl. unfold remove_entry. rewrite Hentry, N.eqb_refl.
      apply lookup_delete_eq.
Qed.

End OrderAndResult.

(** ** The formation step *)

Lemma elect_leader_range members average : forall i best idx,
  let r := elect_leader members average i best idx in
  r = idx \/ (i <= r < i + length members)%nat.
Proof.
  induction members as [|m rest IH]; intros i best idx; [by left|].
  simpl. destruct (F32.ltb _ _).
  - destruct (IH (S i) (lengthSquared (vsub (member_target m) average)) i)
      as [->|H]; right; lia.
  - destruct (IH (S i) best idx) as [->|H]; [by left|right; lia].
Qed.

(** X18.  The index of the elected leader is an index of the regroup
    vector: [members[leader_index]] never reads out of range. *)
Theorem X18_leader_index_in_range members :
  members ≠ [] -> (leader_index_of members < length members)%nat.
Proof.
  intros Hne. unfold leader_index_of.
  destruct (elect_leader_range members
              (vdiv (sum_targets members) (member_count members))
              0%nat F32.infinity 0%nat) as [->|H]; [|lia].
  destruct members; [done|simpl; lia].
Qed.

Lemma foldl_entries_kept {A} (step : State -> A -> State) :
  (forall s a, s_entityToRequest (step s a) = s_entityToRequest s) ->
  forall l st, s_entityToRequest (foldl step st l) = s_entityToRequest st.
Proof.
  intros Hstep l. induction l as [|a rest IH]; intros st; [done|].
  simpl. by rewrite IH.
Qed.

Section DirectFormation.
Variable hdr : Header.

Lemma foldl_reset_member_unmapped members : forall st id,
  s_entityToRequest st !! id = None \/ id ∈ member_id <$> members ->
  s_entityToRequest (foldl reset_member st members) !! id = None.
Proof.
  induction members as [|m rest IH]; intros st id Hor.
  { destruct Hor as [?|Hin]; [done|by apply elem_of_nil in Hin]. }
  cbn [foldl]. apply IH.
  assert (Hstep : forall i, s_entityToRequest (reset_member st m) !! i
            = s_entityToRequest (clearPendingRequest (member_id m) st) !! i).
  { intros i. unfold reset_member. simpl.
    unfold clearPendingRequest. simpl.
    destruct (s_entityToRequest st !! member_id m) as [r|]; [|done].
    by destruct (s_pendingRequests st !! r). }
  destruct Hor as [Hnone|Hin].
  - left. rewrite Hstep. unfold clearPendingRequest.
    destruct (s_entityToRequest st !! member_id m) as [r|]; [|done].
    destruct (s_pendingRequests st !! r); simpl.
    + apply foldl_remove_entry_None, lookup_delete_None. by right.
    + apply lookup_delete_None. by right.
  - rewrite fmap_cons in Hin. apply elem_of_cons in Hin as [->|Hin]; [|by right].
    left. rewrite Hstep. apply clearPendingRequest_unmapped.
Qed.

Lemma foldl_update_member (f : MemberInfo -> MovementComponent -> MovementComponent)
    members : forall st m,
  NoDup (member_id <$> members) ->
  m ∈ members ->
  movement_of (foldl (fun s x => update_movement (member_id x) (f x) s) st members)
    (member_id m)
  = f m <$> movement_of st (member_id m).
Proof.
  induction members as [|x rest IH] using rev_ind; intros st m Hnd Hin.
  { by apply elem_of_nil in Hin. }
  rewrite foldl_snoc, movement_of_update.
  rewrite fmap_app in Hnd. apply NoDup_app in Hnd as (Hnd1 & Hdis & _).
  apply elem_of_app in Hin as [Hin|Hin%list_elem_of_singleton].
  - rewrite decide_False; [by apply IH|].
    intros Heq. apply (Hdis (member_id m)).
    + by apply list_elem_of_fmap_2.
    + rewrite Heq. simpl. apply list_elem_of_singleton. done.
  - subst x. rewrite decide_True by done. f_equal.
    assert (Hother : forall l s, Forall (fun y => member_id y ≠ member_id m) l ->
              movement_of (foldl (fun s x => update_movement (member_id x) (f x) s)
                             s l) (member_id m) = movement_of s (member_id m)).
    { induction l as [|y l' IHl] using rev_ind; intros s Hall; [done|].
      apply Forall_app in Hall as (Hall & Hy).
      rewrite foldl_snoc, movement_of_update.
      inversion Hy; subst. rewrite decide_False by done. by apply IHl. }
    apply Hother. apply Forall_forall. intros y Hy Heq.
    apply (Hdis (member_id m)).
    + rewrite <- Heq. by apply list_elem_of_fmap_2.
    + simpl. apply list_elem_of_singleton. done.
Qed.

Lemma reset_member_movement st m id :
  movement_of (reset_member st m) id
  = if decide (id = member_id m)
    then (fun mv =>
            Mv.set_pendingRequestId 0%N (Mv.set_pathPending false
              (Mv.set_path [] (Mv.set_vz F32.zero (Mv.set_vx F32.zero
                (Mv.set_hasTarget false
                  (Mv.set_target_y (vec_z (member_position m))
                    (Mv.set_target_x (vec_x (member_position m))
                      (Mv.set_goalY (vec_z (member_target m))
                        (Mv.set_goalX (vec_x (member_target m)) mv))))))))))
         <$> movement_of st id
    else movement_of st id.
Proof.
  unfold reset_member. rewrite movement_of_update.
  unfold movement_of at 1 2. rewrite clearPendingRequest_world.
  fold (movement_of (update_movement (member_id m)
          (fun mv => Mv.set_goalY (vec_z (member_target m))
                       (Mv.set_goalX (vec_x (member_target m)) mv)) st) id).
  rewrite movement_of_update.
  destruct (decide (id = member_id m)); [|done].
  by destruct (movement_of st id).
Qed.

Lemma foldl_reset_member_movement members : forall st m,
  NoDup (member_id <$> members) ->
  m ∈ members ->
  is_Some (movement_of st (member_id m)) ->
  exists mv, movement_of (foldl reset_member st members) (member_id m) = Some mv
    /\ goalX mv = vec_x (member_target m) /\ goalY mv = vec_z (member_target m)
    /\ path mv = [] /\ pathPending mv = false /\ pendingRequestId mv = 0%N
    /\ vx mv = F32.zero /\ vz mv = F32.zero.
Proof.
  induction members as [|x rest IH] using rev_ind; intros st m Hnd Hin Hmv.
  { by apply elem_of_nil in Hin. }
  rewrite foldl_snoc, reset_member_movement.
  rewrite fmap_app in Hnd. apply NoDup_app in Hnd as (Hnd1 & Hdis & _).
  apply elem_of_app in Hin as [Hin|Hin%list_elem_of_singleton].
  - rewrite decide_False; [by apply IH|].
    intros Heq. apply (Hdis (member_id m)).
    + by apply list_elem_of_fmap_2.
    + rewrite Heq. simpl. apply list_elem_of_singleton. done.
  - subst x. rewrite decide_True by done.
    destruct (foldl_reset_member_frame rest st) as (_ & _ & _ & Hkeep).
    destruct (Hkeep _ Hmv) as [mv0 ->]. simpl.
    eexists. split; [reflexivity|]. by repeat split.
Qed.

(** X19.  When a group move reaches formation pathing and no route is
    searched (no pathfinder, the leader already stands on its target cell,
    or the leader's cells are within [DIRECT_PATH_THRESHOLD] and the direct
    fallback is allowed), no request is registered and every regroup member
    is sent straight to its own destination: [hasTarget] is true, target
    and goal are its destination, the path is empty, it waits for nothing
    and has no entry in the ledger. *)
Theorem X19_formation_without_route_sends_directly
    opts st units targets st2 members leader m :
  moveGroup_prepare hdr opts st units targets = inr (st2, members) ->
  leader_of members = Some leader ->
  NoDup (member_id <$> members) ->
  let start := worldToGrid st2 (vec_x (member_position leader))
                 (vec_z (member_position leader)) in
  let finish := worldToGrid st2 (vec_x (member_target leader))
                  (vec_z (member_target leader)) in
  s_pathfinder st2 = None
  \/ Point_eqb start finish = true
  \/ (allowDirectFallback opts = true
      /\ manhattan start finish <= DIRECT_PATH_THRESHOLD hdr) ->
  m ∈ members ->
  let st' := moveGroup hdr st units targets opts in
  (exists mv,
     movement_of st' (member_id m) = Some mv
     /\ hasTarget mv = true
     /\ target_x mv = vec_x (member_target m)
     /\ target_y mv = vec_z (member_target m)
     /\ goalX mv = vec_x (member_target m)
     /\ goalY mv = vec_z (member_target m)
     /\ path mv = [] /\ pathPending mv = false /\ pendingRequestId mv = 0%N)
  /\ s_entityToRequest st' !! member_id m = None
  /\ issues_nothing st2 st'.
Proof.
  intros Hprep Hleader Hnd start finish Hcase Hin st'.
  destruct (moveGroup_prepare_formation hdr opts st units targets st2 members Hprep)
    as (_ & Hmv).
  subst st'. unfold moveGroup. rewrite Hprep.
  unfold formation_pathing. rewrite Hleader.
  destruct (foldl_reset_member_frame members st2) as (R1 & R2 & R3 & _).
  destruct (foldl_reset_member_movement members st2 m Hnd Hin (Hmv m Hin))
    as (mv3 & Hmv3 & G1 & G2 & G3 & G4 & G5 & G6 & G7).
  pose proof (foldl_reset_member_unmapped members st2 (member_id m)
                (or_intror (list_elem_of_fmap_2 member_id _ _ Hin))) as Hun.
  set (st3 := foldl reset_member st2 members) in *.
  assert (Hq3 : issues_nothing st2 st3) by by repeat split.
  assert (Hplain : (exists mv,
     movement_of (foldl send_directly st3 members) (member_id m) = Some mv
     /\ hasTarget mv = true
     /\ target_x mv = vec_x (member_target m)
     /\ target_y mv = vec_z (member_target m)
     /\ goalX mv = vec_x (member_target m)
     /\ goalY mv = vec_z (member_target m)
     /\ path mv = [] /\ pathPending mv = false /\ pendingRequestId mv = 0%N)
    /\ s_entityToRequest (foldl send_directly st3 members) !! member_id m = None
    /\ issues_nothing st2 (foldl send_directly st3 members)).
  { split; [|split].
    - unfold send_directly.
      rewrite (foldl_update_member
                 (fun x mv => Mv.set_hasTarget true
                    (Mv.set_target_y (vec_z (member_target x))
                       (Mv.set_target_x (vec_x (member_target x)) mv)))
                 members st3 m Hnd Hin), Hmv3.
      simpl. eexists. split; [reflexivity|]. by repeat split.
    - by rewrite (foldl_entries_kept send_directly (fun s a => eq_refl)).
    - eapply issues_nothing_trans; [exact Hq3|].
      by destruct (foldl_issues_nothing send_directly (fun _ => True)
                     (fun s a _ => conj (update_movement_issues_nothing _ _ s) I)
                     members st3 I). }
  rewrite !(worldToGrid_pathfinder st3 st2) by done. fold start finish.
  destruct (s_pathfinder st3) as [pf|] eqn:Hpf3; [|exact Hplain].
  destruct Hcase as [Hnone|[Hsame|[Hallow Hnear]]]; [congruence| |].
  { rewrite Hsame. exact Hplain. }
  destruct (Point_eqb start finish); [exact Hplain|].
  rewrite Hallow. simpl. apply Z.leb_le in Hnear. rewrite Hnear.
  split; [|split].
  - unfold send_directly_noted.
    rewrite (foldl_update_member
               (fun x mv => note_path_request (vec_x (member_target x))
                  (vec_z (member_target x))
                  (Mv.set_hasTarget true
                     (Mv.set_target_y (vec_z (member_target x))
                        (Mv.set_target_x (vec_x (member_target x)) mv))))
               members st3 m Hnd Hin), Hmv3.
    simpl. eexists. split; [reflexivity|]. by repeat split.
  - by rewrite (foldl_entries_kept send_directly_noted (fun s a => eq_refl)).
  - eapply issues_nothing_trans; [exact Hq3|].
    by destruct (foldl_issues_nothing send_directly_noted (fun _ => True)
                   (fun s a _ => conj (update_movement_issues_nothing _ _ s) I)
                   members st3 I).
Qed.

End DirectFormation.

(** ** Further compositions *)

Section Compositions.
Variable hdr : Header.

(** X20.  [initialize] orphans the requests in flight: whatever results
    the reconciler is handed afterwards, it changes nothing, so an entity
    that was waiting for a request issued before [initialize] is left as it
    was, still waiting. *)
Theorem X20_initialize_orphans_requests w h st results :
  processPathResults hdr (initialize hdr w h st) results = initialize hdr w h st
  /\ forall id,
       movement_of (processPathResults hdr (initialize hdr w h st) results) id
       = movement_of st id.
Proof.
  assert (Hid : processPathResults hdr (initialize hdr w h st) results
                = initialize hdr w h st).
  { unfold processPathResults. cbn [initialize s_pathfinder].
    induction results as [|r rest IH]; [done|].
    cbn [foldl]. rewrite process_result_absent; [exact IH|].
    apply lookup_empty. }
  split; [exact Hid|]. intros id. by rewrite Hid.
Qed.

(** X21.  An order for a destination within the same-target threshold of
    the request the entity is waiting for reuses that request: the goal is
    recorded, the options of the request are replaced by those of the new
    order, and nothing else happens to the ledger, the counter or the
    pathfinder. *)
Theorem X21_repeated_order_reuses_request opts st uid tgt e tr mv rid req :
  world st !! uid = Some e ->
  melee_locked e = false ->
  transform e = Some tr ->
  movement e = Some mv ->
  pathPending mv = true ->
  s_entityToRequest st !! uid = Some rid ->
  s_pendingRequests st !! rid = Some req ->
  within_same_target (vec_x (target req)) (vec_z (target req))
    (vec_x tgt) (vec_z tgt) = true ->
  let st' := moveUnits hdr st [uid] [tgt] opts in
  movement_of st' uid = Some (with_goal (vec_x tgt) (vec_z tgt) mv)
  /\ s_pendingRequests st'
     = <[rid := mkPending (entity_id req) (target req) opts
                  (groupMembers req) (groupTargets req)]> (s_pendingRequests st)
  /\ s_entityToRequest st' = s_entityToRequest st
  /\ s_nextRequestId st' = s_nextRequestId st
  /\ s_pathfinder st' = s_pathfinder st.
Proof.
  intros He Hlock Htr Hmv Hpend Hentry Hreq Hsame st'. subst st'.
  rewrite moveUnits_single. unfold moveUnit.
  destruct (resolve_unit_resolves hdr opts uid st e tr He Hlock Htr)
    as (st1 & Hres).
  rewrite Hmv in Hres. simpl in Hres. rewrite Hres.
  pose proof (resolve_unit_statics hdr opts uid st) as (Rp & Rq & Re & Rc).
  rewrite Hres in Rp, Rq, Re, Rc. simpl in Rp, Rq, Re, Rc.
  destruct (resolve_unit_resolved hdr opts uid st st1 tr mv Hres)
    as (e0 & e1 & _ & _ & _ & Hw1 & Hmv1 & _).
  unfold dedup_unit, match_pending.
  rewrite Hpend, Re, Hentry, Rq, Hreq, Hsame.
  split.
  { unfold store_movement. rewrite movement_of_update, decide_True by done.
    unfold movement_of. simpl. rewrite Hw1, lookup_insert_eq. simpl.
    by rewrite Hmv1. }
  simpl. repeat split; congruence.
Qed.

(** X23.  When a single-unit order reaches the routing decision and there
    is no pathfinder or the start and end cells coincide, the unit is sent
    straight to the destination, also with the direct fallback forbidden:
    the target is the destination, the path is empty, nothing is pending,
    the entity has no entry in the ledger any more, and no request is
    issued. *)
Theorem X23_no_route_needed_sends_directly opts st uid tgt st1 tr mv mv2 st2 :
  resolve_unit hdr opts uid st = (st1, Some (tr, mv)) ->
  dedup_unit opts uid tgt mv st1 = inr (mv2, st2) ->
  s_pathfinder st = None
  \/ Point_eqb (worldToGrid st (vec_x (position tr)) (vec_z (position tr)))
       (worldToGrid st (vec_x tgt) (vec_z tgt)) = true ->
  let st' := moveUnits hdr st [uid] [tgt] opts in
  (exists mv',
     movement_of st' uid = Some mv'
     /\ hasTarget mv' = true
     /\ target_x mv' = vec_x tgt /\ target_y mv' = vec_z tgt
     /\ goalX mv' = vec_x tgt /\ goalY mv' = vec_z tgt
     /\ path mv' = [] /\ pathPending mv' = false /\ pendingRequestId mv' = 0%N)
  /\ s_entityToRequest st' !! uid = None
  /\ issues_nothing st st'.
Proof.
  intros Hres Hdedup Hcase st'. subst st'.
  rewrite moveUnits_single. unfold moveUnit. rewrite Hres, Hdedup.
  pose proof (resolve_unit_statics hdr opts uid st) as (Rp & Rq & Re & Rc).
  rewrite Hres in Rp, Rq, Re, Rc. simpl in Rp, Rq, Re, Rc.
  destruct (resolve_unit_resolved hdr opts uid st st1 tr mv Hres)
    as (e & e1 & He & Htr & _ & Hw1 & Hmv1 & _).
  pose proof (dedup_unit_frame opts uid tgt mv st1 _ Hdedup) as (Dw & Dp & Dc & Dn).
  pose proof (dedup_unit_goal opts uid tgt mv st1 _ Hdedup) as Hgoal.
  simpl in Dw, Dp, Dc, Dn, Hgoal. subst mv2.
  assert (Hroute : route_unit hdr opts uid tgt tr
                     (with_goal (vec_x tgt) (vec_z tgt) mv) st2
                   = (snap_to_target (vec_x tgt) (vec_z tgt)
                        (with_goal (vec_x tgt) (vec_z tgt) mv),
                      clearPendingRequest uid st2)).
  { unfold route_unit.
    destruct (s_pathfinder st2) as [pf|] eqn:Hpf2; [|done].
    destruct Hcase as [Hnone|Hsame]; [congruence|].
    rewrite !(worldToGrid_pathfinder st2 st) by congruence.
    by rewrite Hsame. }
  rewrite Hroute. split.
  { eexists. split.
    - unfold store_movement. rewrite movement_of_update, decide_True by done.
      unfold movement_of. rewrite clearPendingRequest_world, Dw, Hw1.
      rewrite lookup_insert_eq. simpl. rewrite Hmv1. reflexivity.
    - by repeat split. }
  split; [apply clearPendingRequest_unmapped|].
  apply (issues_nothing_trans st st2).
  { repeat split; try congruence. intros r Hr. apply Dn in Hr.
    by rewrite Rq in Hr. }
  eapply issues_nothing_trans; [apply clearPendingRequest_issues_nothing|].
  apply update_movement_issues_nothing.
Qed.

End Compositions.

(** ** The request ids of an epoch *)

Lemma ids_from_add c n1 n2 :
  ids_from c (n1 + n2) = ids_from c n1 ++ ids_from (Nat.iter n1 next_id c) n2.
Proof.
  unfold ids_from. rewrite seq_app, fmap_app. f_equal. simpl.
  assert (Hseq : seq n1 n2 = Nat.add n1 <$> seq 0 n2)
    by (rewrite fmap_add_seq; f_equal; lia).
  rewrite Hseq, <- list_fmap_compose.
  apply list_fmap_ext. intros _ i _. simpl.
  by rewrite Nat.add_comm, Nat.iter_add.
Qed.

Lemma allocates_trans st1 st2 st3 :
  allocates st1 st2 -> allocates st2 st3 -> allocates st1 st3.
Proof.
  intros (n1 & A1 & A2 & A3 & A4) (n2 & B1 & B2 & B3 & B4).
  exists (n2 + n1)%nat. rewrite (Nat.add_comm n2 n1), ids_from_add.
  rewrite <- A2. split; [by rewrite B1, A1, app_assoc|].
  split; [by rewrite B2, A2, Nat.add_comm, Nat.iter_add|].
  split.
  - intros rid Hr. destruct (B3 rid Hr) as [Hr2|Hin].
    + destruct (A3 rid Hr2) as [?|Hin]; [by left|].
      right. apply elem_of_app. by left.
    + right. apply elem_of_app. by right.
  - intros e rid He. destruct (B4 e rid He) as [He2|Hin].
    + destruct (A4 e rid He2) as [?|Hin]; [by left|].
      right. apply elem_of_app. by left.
    + right. apply elem_of_app. by right.
Qed.

(** A step that leaves the pathfinder and the counter alone and adds
    nothing to the ledger allocates nothing. *)
Lemma allocates_nothing st st' :
  s_pathfinder st' = s_pathfinder st ->
  s_nextRequestId st' = s_nextRequestId st ->
  no_new_request st st' ->
  (forall e rid, s_entityToRequest st' !! e = Some rid ->
                 s_entityToRequest st !! e = Some rid) ->
  allocates st st'.
Proof.
  intros Hp Hc Hn He. exists 0%nat. simpl.
  unfold submitted_ids, submitted_requests. rewrite Hp, app_nil_r.
  repeat split; auto.
Qed.

(** Steps that only write to the world. *)
Ltac world_only :=
  apply allocates_nothing; [done|done|by intros ?|by intros ? ?].

Lemma allocates_refl st : allocates st st.
Proof. world_only. Qed.

Lemma foldl_allocates {A} (step : State -> A -> State) :
  (forall s a, allocates s (step s a)) ->
  forall l st, allocates st (foldl step st l).
Proof.
  intros Hstep l. induction l as [|a rest IH]; intros st.
  { apply allocates_refl. }
  simpl. eapply allocates_trans; [apply Hstep|apply IH].
Qed.

Lemma update_movement_allocates uid f st :
  allocates st (update_movement uid f st).
Proof. world_only. Qed.

Lemma clearPendingRequest_entries id st e rid :
  s_entityToRequest (clearPendingRequest id st) !! e = Some rid ->
  s_entityToRequest st !! e = Some rid.
Proof.
  unfold clearPendingRequest.
  destruct (s_entityToRequest st !! id) as [r|]; [|done].
  destruct (s_pendingRequests st !! r); simpl; intros H.
  - apply foldl_remove_entry_subseteq in H.
    by apply lookup_delete_Some in H as [_ ?].
  - by apply lookup_delete_Some in H as [_ ?].
Qed.

Lemma clearPendingRequest_allocates id st :
  allocates st (clearPendingRequest id st).
Proof.
  apply allocates_nothing.
  - apply clearPendingRequest_pathfinder.
  - apply clearPendingRequest_counter.
  - apply clearPendingRequest_no_new.
  - intros e rid. apply clearPendingRequest_entries.
Qed.

Section Epoch.
Variable hdr : Header.

Lemma match_pending_allocates opts uid tx tz mv st :
  allocates st (match_pending opts uid tx tz mv st).2.
Proof.
  destruct (match_pending_frame opts uid tx tz mv st) as (_ & Hp & Hc & Hn).
  apply allocates_nothing; [done|done|done|].
  unfold match_pending.
  destruct (pathPending mv); [|done].
  destruct (s_entityToRequest st !! uid) as [r|] eqn:Hu; [|done].
  destruct (s_pendingRequests st !! r); [by destruct (within_same_target _ _ _ _)|].
  simpl. intros e rid H. by apply lookup_delete_Some in H as [_ ?].
Qed.

Lemma dedup_unit_allocates opts uid tgt mv st :
  allocates st (match dedup_unit opts uid tgt mv st with
                | inl p => p.2
                | inr p => p.2
                end).
Proof.
  unfold dedup_unit.
  pose proof (match_pending_allocates opts uid (vec_x tgt) (vec_z tgt) mv st) as H.
  destruct (match_pending opts uid (vec_x tgt) (vec_z tgt) mv st) as [matched st'].
  simpl in H. destruct matched; [done|].
  destruct (cooldown_check _ _ _) as [flag skip].
  destruct skip; [done|].
  by destruct (already_satisfied _ _ _).
Qed.

Lemma supersede_existing_allocates opts uid tx tz st :
  allocates st (supersede_existing opts uid tx tz st).2.
Proof.
  unfold supersede_existing.
  destruct (s_entityToRequest st !! uid) as [r|] eqn:Hu; [|apply allocates_refl].
  destruct (s_pendingRequests st !! r) as [req|] eqn:Hr.
  - destruct (within_same_target _ _ _ _);
      (apply allocates_nothing; [done|done| |]); simpl.
    + intros rid H. simpl in H. apply lookup_insert_is_Some in H as [<-|[_ ?]];
        [by eexists|done].
    + by intros e rid.
    + intros rid H. simpl in H. apply lookup_delete_is_Some in H. tauto.
    + intros e rid H. by apply lookup_delete_Some in H as [_ ?].
  - apply allocates_nothing; [done|done|by intros ?|]. simpl.
    intros e rid H. by apply lookup_delete_Some in H as [_ ?].
Qed.

(** The one allocation of the single-unit resolver. *)
Lemma issue_request_allocates opts uid tgt start finish mv st :
  is_Some (s_pathfinder st) ->
  allocates st (issue_request opts uid tgt start finish mv st).2.
Proof.
  intros [pf Hpf]. exists 1%nat. unfold issue_request, fetch_add. simpl.
  unfold submitted_ids, submitted_requests. simpl. rewrite Hpf. simpl.
  rewrite fmap_app. split; [done|]. split; [done|]. split.
  - intros rid H. apply lookup_insert_is_Some in H as [<-|[_ ?]]; [|by left].
    right. apply list_elem_of_singleton. done.
  - intros e rid H. apply lookup_insert_Some in H as [[_ <-]|[_ ?]]; [|by left].
    right. apply list_elem_of_singleton. done.
Qed.

Lemma route_unit_allocates opts uid tgt tr mv st :
  allocates st (route_unit hdr opts uid tgt tr mv st).2.
Proof.
  unfold route_unit.
  destruct (s_pathfinder st) as [pf|] eqn:Hpf;
    [|apply clearPendingRequest_allocates].
  destruct (Point_eqb _ _); [apply clearPendingRequest_allocates|].
  destruct (if negb (allowDirectFallback opts) then false else _);
    [apply clearPendingRequest_allocates|].
  pose proof (supersede_existing_allocates opts uid (vec_x tgt) (vec_z tgt) st)
    as Hs.
  assert (Hpf2 : is_Some (s_pathfinder
                   (supersede_existing opts uid (vec_x tgt) (vec_z tgt) st).2)).
  { unfold supersede_existing.
    destruct (s_entityToRequest st !! uid) as [r|]; [|by eexists].
    destruct (s_pendingRequests st !! r); [|by eexists].
    destruct (within_same_target _ _ _ _); by eexists. }
  destruct (supersede_existing opts uid (vec_x tgt) (vec_z tgt) st)
    as [skip st2].
  simpl in Hs, Hpf2. destruct skip; [done|].
  eapply allocates_trans; [exact Hs|]. by apply issue_request_allocates.
Qed.

Lemma moveUnit_allocates opts st ut : allocates st (moveUnit hdr opts st ut).
Proof.
  destruct ut as [uid tgt]. unfold moveUnit.
  pose proof (resolve_unit_statics hdr opts uid st) as (Rp & Rq & Re & Rc).
  destruct (resolve_unit hdr opts uid st) as [st1 [[tr mv]|]];
    simpl in Rp, Rq, Re, Rc.
  2:{ apply allocates_nothing; auto.
      - intros r. by rewrite Rq.
      - intros e r. by rewrite Re. }
  eapply allocates_trans.
  { apply (allocates_nothing st st1); auto.
    - intros r. by rewrite Rq.
    - intros e r. by rewrite Re. }
  pose proof (dedup_unit_allocates opts uid tgt mv st1) as Hd.
  destruct (dedup_unit opts uid tgt mv st1) as [[mv2 st2]|[mv2 st2]];
    simpl in Hd.
  - eapply allocates_trans; [exact Hd|apply update_movement_allocates].
  - pose proof (route_unit_allocates opts uid tgt tr mv2 st2) as Hr.
    destruct (route_unit hdr opts uid tgt tr mv2 st2) as [mv3 st3].
    simpl in Hr. eapply allocates_trans; [exact Hd|].
    eapply allocates_trans; [exact Hr|apply update_movement_allocates].
Qed.

Lemma moveUnits_each_allocates opts st units targets :
  allocates st (moveUnits_each hdr opts st units targets).
Proof. apply foldl_allocates. intros. apply moveUnit_allocates. Qed.

Lemma reset_member_allocates st m : allocates st (reset_member st m).
Proof.
  unfold reset_member.
  eapply allocates_trans; [apply update_movement_allocates|].
  eapply allocates_trans; [apply clearPendingRequest_allocates|].
  apply update_movement_allocates.
Qed.

(** The one allocation of formation pathing. *)
Lemma register_group_allocates opts st leader members start finish :
  is_Some (s_pathfinder st) ->
  allocates st (register_group opts st leader members start finish).
Proof.
  intros [pf Hpf]. exists 1%nat.
  destruct (foldl_mark_pending_statics (s_nextRequestId st) members
              (St.set_nextRequestId (next_id (s_nextRequestId st)) st))
    as (Mp & Mq & Me & Mc).
  unfold register_group, fetch_add. cbv zeta.
  fold (next_id (s_nextRequestId st)).
  unfold submitted_ids, submitted_requests. cbn [s_pathfinder St.set_pathfinder
    St.set_entityToRequest St.set_pendingRequests s_nextRequestId
    s_pendingRequests s_entityToRequest].
  rewrite Mp, Mq, Me, Mc. simpl. rewrite Hpf. simpl. rewrite fmap_app.
  split; [done|]. split; [done|]. split.
  - intros rid H. apply lookup_insert_is_Some in H as [<-|[_ ?]]; [|by left].
    right. apply list_elem_of_singleton. done.
  - intros e rid H.
    assert (Hgen : forall (c : N) (m0 : gmap EntityID N),
              foldl (fun m mem => <[member_id mem := c]> m) m0 members !! e
              = Some rid ->
              m0 !! e = Some rid \/ rid = c).
    { clear. induction members as [|x rest IH] using rev_ind; intros c m0 H;
        [by left|].
      rewrite foldl_snoc in H.
      apply lookup_insert_Some in H as [[_ <-]|[_ H]]; [by right|by apply IH]. }
    destruct (Hgen _ _ H) as [Hold|Hnew]; [by left|].
    right. apply list_elem_of_singleton. done.
Qed.

Lemma formation_pathing_allocates opts st members :
  allocates st (formation_pathing hdr opts st members).
Proof.
  unfold formation_pathing.
  destruct (leader_of members) as [leader|]; [|apply allocates_refl].
  eapply allocates_trans.
  { apply (foldl_allocates reset_member reset_member_allocates). }
  set (st1 := foldl reset_member st members).
  assert (Hsend : allocates st1 (foldl send_directly st1 members)).
  { apply foldl_allocates. intros. apply update_movement_allocates. }
  destruct (s_pathfinder st1) eqn:Hpf; [|exact Hsend].
  destruct (Point_eqb _ _); [exact Hsend|].
  destruct (if negb (allowDirectFallback opts) then false else _).
  - apply foldl_allocates. intros. apply update_movement_allocates.
  - apply register_group_allocates. by eexists.
Qed.

Lemma moveGroup_dispatch_allocates opts st members :
  allocates st (match moveGroup_dispatch hdr opts st members with
                | inl s => s
                | inr p => p.1
                end).
Proof.
  unfold moveGroup_dispatch. destruct members as [|m0 rest0];
    [apply allocates_refl|].
  cbv zeta. destruct (F32.leb _ _); [apply moveUnits_each_allocates|].
  set (stats := group_stats (m0 :: rest0)).
  set (members' := (fun m => set_distanceToTarget (to_target_of m) m)
                     <$> (m0 :: rest0)).
  set (st1 := match List.filter (should_advance stats) members' with
              | [] => st
              | _ => _
              end).
  assert (H1 : allocates st st1).
  { unfold st1. destruct (List.filter (should_advance stats) members');
      [apply allocates_refl|apply moveUnits_each_allocates]. }
  destruct (List.filter (fun m => negb (should_advance stats m)) members')
    as [|a [|b r]]; simpl; try exact H1.
  eapply allocates_trans; [exact H1|apply moveUnits_each_allocates].
Qed.

Lemma moveGroup_allocates opts st units targets :
  allocates st (moveGroup hdr st units targets opts).
Proof.
  unfold moveGroup, moveGroup_prepare.
  pose proof (collect_members_frame hdr opts st units targets)
    as (Cp & Cq & Ce & Cc & _).
  destruct (collect_members hdr opts st units targets) as [st1 members].
  simpl in Cp, Cq, Ce, Cc.
  assert (Hc : allocates st st1).
  { apply allocates_nothing; auto.
    - intros r. by rewrite Cq.
    - intros e r. by rewrite Ce. }
  destruct members as [|m1 [|m2 rest]]; [exact Hc| |].
  { eapply allocates_trans; [exact Hc|apply moveUnits_each_allocates]. }
  destruct (List.filter (fun m => negb (isEngaged m)) (m1 :: m2 :: rest))
    as [|m0 l]; [exact Hc|].
  destruct (match s_pathfinder st1 with
            | Some pf => any_target_invalid st1 pf (m0 :: l)
            | None => false
            end); [exact Hc|].
  pose proof (moveGroup_dispatch_allocates opts st1 (m0 :: l)) as Hd.
  destruct (moveGroup_dispatch hdr opts st1 (m0 :: l)) as [s|[s regroup]];
    simpl in Hd.
  - eapply allocates_trans; eauto.
  - eapply allocates_trans; [exact Hc|].
    eapply allocates_trans; [exact Hd|apply formation_pathing_allocates].
Qed.

Lemma moveUnits_allocates st units targets opts :
  allocates st (moveUnits hdr st units targets opts).
Proof.
  unfold moveUnits.
  destruct (negb (length units =? length targets)%nat); [apply allocates_refl|].
  destruct (groupMove opts && (1 <? length units)%nat).
  - apply moveGroup_allocates.
  - apply moveUnits_each_allocates.
Qed.

Lemma processPathResults_allocates st results :
  allocates st (processPathResults hdr st results).
Proof.
  unfold processPathResults.
  destruct (s_pathfinder st); [|apply allocates_refl].
  apply foldl_allocates. intros s r. apply allocates_nothing.
  - apply process_result_pathfinder.
  - apply process_result_counter.
  - intros rid H. rewrite process_result_pending in H.
    apply lookup_delete_is_Some in H. tauto.
  - intros e rid. apply process_result_entries.
Qed.

Lemma attack_unit_allocates target chase st uid :
  allocates st (attack_unit hdr target chase st uid).
Proof.
  unfold attack_unit.
  destruct (world st !! uid) as [e|]; [|apply allocates_refl].
  set (e1 := Ent.set_attackTarget _ _).
  assert (H1 : allocates st (put_entity uid e1 st)) by world_only.
  destruct (negb chase); [exact H1|].
  destruct (world (put_entity uid e1 st) !! target) as [t|]; [|exact H1].
  destruct (transform t); [|exact H1].
  destruct (transform e1); [|exact H1].
  eapply allocates_trans; [exact H1|].
  eapply allocates_trans; [apply moveUnits_allocates|]. world_only.
Qed.

Lemma attack_target_allocates st units target chase :
  allocates st (attack_target hdr st units target chase).
Proof.
  unfold attack_target. destruct (target =? 0)%N; [apply allocates_refl|].
  apply foldl_allocates. intros. apply attack_unit_allocates.
Qed.

Lemma call_allocates st c : allocates st (call hdr st c).
Proof.
  destruct c; simpl.
  - apply moveUnits_allocates.
  - apply clearPendingRequest_allocates.
  - apply processPathResults_allocates.
  - apply attack_target_allocates.
  - world_only.
Qed.

End Epoch.

(** ** Where the service writes request ids into movement components *)

Section Stamps.
Variable hdr : Header.
Variable P : RequestId -> Prop.
Hypothesis P_zero : P 0%N.
Hypothesis P_default : P (pendingRequestId (defaultMovement hdr)).

Lemma covers_back st st' : allocates st st' -> covers P st' -> covers P st.
Proof.
  intros (n & A1 & _) Hc rid Hin. apply Hc. rewrite A1.
  apply elem_of_app. by left.
Qed.

Lemma covers_same st st' :
  s_pathfinder st' = s_pathfinder st -> covers P st' -> covers P st.
Proof.
  intros Hp Hc rid Hin. apply Hc.
  unfold submitted_ids, submitted_requests in *. by rewrite Hp.
Qed.

Lemma stamped_insert w id e :
  stamped P w ->
  (forall mv, movement e = Some mv -> P (pendingRequestId mv)) ->
  stamped P (<[id := e]> w).
Proof.
  intros Hw He id' e' mv Hl Hm. destruct (decide (id' = id)) as [->|Hne].
  - rewrite lookup_insert_eq in Hl. injection Hl as <-. by apply He.
  - rewrite lookup_insert_ne in Hl by done. by eapply Hw.
Qed.

Lemma stamped_alter w id f :
  stamped P w ->
  (forall e mv', w !! id = Some e -> movement (f e) = Some mv' ->
                 P (pendingRequestId mv')) ->
  stamped P (alter f id w).
Proof.
  intros Hw Hf id' e' mv Hl Hm. destruct (decide (id' = id)) as [->|Hne].
  - rewrite lookup_alter_eq in Hl.
    destruct (w !! id) as [e|] eqn:He; [|done].
    simpl in Hl. injection Hl as <-. by eapply Hf.
  - rewrite lookup_alter_ne in Hl by done. by eapply Hw.
Qed.

Lemma update_movement_stamped uid f st :
  (forall mv, P (pendingRequestId mv) -> P (pendingRequestId (f mv))) ->
  stamped P (world st) -> stamped P (world (update_movement uid f st)).
Proof.
  intros Hf Hw. unfold update_movement. simpl.
  apply stamped_alter; [done|]. intros e mv' He Hm. simpl in Hm.
  destruct (movement e) as [mv|] eqn:Hmv; [|done].
  simpl in Hm. injection Hm as <-. apply Hf. by eapply Hw.
Qed.

Lemma store_movement_stamped uid mv st :
  P (pendingRequestId mv) ->
  stamped P (world st) -> stamped P (world (store_movement uid mv st)).
Proof. intros Hmv. apply update_movement_stamped. by intros _ _. Qed.

Lemma put_entity_stamped uid e st :
  (forall mv, movement e = Some mv -> P (pendingRequestId mv)) ->
  stamped P (world st) -> stamped P (world (put_entity uid e st)).
Proof. intros He Hw. unfold put_entity. simpl. by apply stamped_insert. Qed.

Lemma clearPendingRequest_stamped id st :
  stamped P (world st) -> stamped P (world (clearPendingRequest id st)).
Proof. by rewrite clearPendingRequest_world. Qed.

Lemma resolve_unit_stamped opts uid st :
  stamped P (world st) ->
  stamped P (world (resolve_unit hdr opts uid st).1)
  /\ forall tr mv, (resolve_unit hdr opts uid st).2 = Some (tr, mv) ->
                   P (pendingRequestId mv).
Proof.
  intros Hw. unfold resolve_unit.
  destruct (world st !! uid) as [e|] eqn:He; [|done].
  destruct (exit_hold_mode_fields e) as (_ & _ & Hm & _).
  assert (Hkept : forall mv, movement (exit_hold_mode e) = Some mv ->
                             P (pendingRequestId mv)).
  { intros mv Hmv. rewrite Hm in Hmv. by eapply Hw. }
  assert (Hdef : P (pendingRequestId
                      (default (defaultMovement hdr)
                         (movement (exit_hold_mode e))))).
  { destruct (movement (exit_hold_mode e)) as [mv|]; [by apply Hkept|done]. }
  destruct (melee_locked (exit_hold_mode e)).
  { split; [by apply put_entity_stamped|done]. }
  destruct (transform (exit_hold_mode e)) as [tr|].
  2:{ split; [by apply put_entity_stamped|done]. }
  simpl. split.
  - apply stamped_insert; [done|]. intros mv Hmv.
    destruct (clearAttackIntent opts); simpl in Hmv; by injection Hmv as <-.
  - intros tr' mv [= _ <-]. exact Hdef.
Qed.

Lemma snap_to_target_id tx tz mv :
  pendingRequestId (snap_to_target tx tz mv) = 0%N.
Proof. done. Qed.

Lemma note_path_request_id tx tz mv :
  pendingRequestId (note_path_request tx tz mv) = pendingRequestId mv.
Proof. done. Qed.

Lemma dedup_unit_stamped opts uid tgt mv st :
  P (pendingRequestId mv) ->
  stamped P (world st) ->
  match dedup_unit opts uid tgt mv st with
  | inl p | inr p => stamped P (world p.2) /\ P (pendingRequestId p.1)
  end.
Proof.
  intros Hmv Hw. unfold dedup_unit.
  destruct (match_pending_frame opts uid (vec_x tgt) (vec_z tgt) mv st)
    as (Hworld & _).
  destruct (match_pending opts uid (vec_x tgt) (vec_z tgt) mv st)
    as [matched st'].
  simpl in Hworld. rewrite <- Hworld in Hw.
  destruct matched; [done|].
  destruct (cooldown_check _ _ _) as [flag skip].
  destruct skip; [done|].
  by destruct (already_satisfied _ _ _).
Qed.

Lemma issue_request_stamped opts uid tgt start finish mv st :
  is_Some (s_pathfinder st) ->
  covers P (issue_request opts uid tgt start finish mv st).2 ->
  stamped P (world st) ->
  stamped P (world (issue_request opts uid tgt start finish mv st).2)
  /\ P (pendingRequestId (issue_request opts uid tgt start finish mv st).1).
Proof.
  intros [pf Hpf] Hc Hw. split; [done|].
  apply Hc. unfold issue_request, fetch_add, submitted_ids, submitted_requests.
  simpl. rewrite Hpf. simpl. rewrite fmap_app. apply elem_of_app. right.
  by apply list_elem_of_singleton.
Qed.

Lemma route_unit_stamped opts uid tgt tr mv st :
  covers P (route_unit hdr opts uid tgt tr mv st).2 ->
  P (pendingRequestId mv) ->
  stamped P (world st) ->
  stamped P (world (route_unit hdr opts uid tgt tr mv st).2)
  /\ P (pendingRequestId (route_unit hdr opts uid tgt tr mv st).1).
Proof.
  intros Hc Hmv Hw. split; [by rewrite route_unit_world|].
  revert Hc. unfold route_unit.
  destruct (s_pathfinder st) as [pf|] eqn:Hpf; [|done].
  destruct (Point_eqb _ _); [done|].
  destruct (if negb (allowDirectFallback opts) then false else _); [done|].
  pose proof (supersede_existing_world opts uid (vec_x tgt) (vec_z tgt) st)
    as Hworld.
  assert (Hpf2 : is_Some (s_pathfinder
                   (supersede_existing opts uid (vec_x tgt) (vec_z tgt) st).2)).
  { unfold supersede_existing.
    destruct (s_entityToRequest st !! uid) as [r|]; [|by eexists].
    destruct (s_pendingRequests st !! r); [|by eexists].
    destruct (within_same_target _ _ _ _); by eexists. }
  destruct (supersede_existing opts uid (vec_x tgt) (vec_z tgt) st)
    as [skip st2].
  simpl in Hworld, Hpf2. destruct skip; [done|]. intros Hc.
  apply issue_request_stamped; [done|done|by rewrite Hworld].
Qed.

Lemma moveUnit_stamped opts st ut :
  covers P (moveUnit hdr opts st ut) ->
  stamped P (world st) -> stamped P (world (moveUnit hdr opts st ut)).
Proof.
  destruct ut as [uid tgt]. unfold moveUnit. intros Hc Hw.
  destruct (resolve_unit_stamped opts uid st Hw) as [Hw1 Hmv1].
  destruct (resolve_unit hdr opts uid st) as [st1 [[tr mv]|]];
    simpl in Hw1, Hmv1; [|done].
  specialize (Hmv1 tr mv eq_refl).
  pose proof (dedup_unit_stamped opts uid tgt mv st1 Hmv1 Hw1) as Hd.
  destruct (dedup_unit opts uid tgt mv st1) as [[mv2 st2]|[mv2 st2]];
    simpl in Hd; destruct Hd as [Hw2 Hmv2].
  - by apply store_movement_stamped.
  - pose proof (route_unit_stamped opts uid tgt tr mv2 st2) as Hr.
    destruct (route_unit hdr opts uid tgt tr mv2 st2) as [mv3 st3].
    simpl in Hr. destruct Hr as [Hw3 Hmv3]; [|done|done|].
    { eapply covers_same; [|exact Hc]. done. }
    by apply store_movement_stamped.
Qed.

(** A loop whose rounds keep the stamps keeps them. *)
Lemma foldl_stamped {A} (step : State -> A -> State) :
  (forall s a, allocates s (step s a)) ->
  (forall s a, covers P (step s a) -> stamped P (world s) ->
               stamped P (world (step s a))) ->
  forall l st, covers P (foldl step st l) -> stamped P (world st) ->
               stamped P (world (foldl step st l)).
Proof.
  intros Hall Hstep l. induction l as [|a rest IH]; intros st Hc Hw; [done|].
  simpl in *. apply IH; [done|]. apply Hstep; [|done].
  eapply covers_back; [|exact Hc]. by apply foldl_allocates.
Qed.

Lemma moveUnits_each_stamped opts st units targets :
  covers P (moveUnits_each hdr opts st units targets) ->
  stamped P (world st) ->
  stamped P (world (moveUnits_each hdr opts st units targets)).
Proof.
  apply foldl_stamped.
  - intros. apply moveUnit_allocates.
  - intros. by apply moveUnit_stamped.
Qed.

Lemma collect_member_stamped opts acc ut :
  stamped P (world acc.1) ->
  stamped P (world (collect_member hdr opts acc ut).1).
Proof.
  destruct acc as [st members], ut as [uid tgt]. simpl. intros Hw.
  destruct (world st !! uid) as [e|] eqn:He; [|done].
  destruct (exit_hold_mode_fields e) as (_ & _ & Hm & _).
  assert (Hkept : forall mv, movement (exit_hold_mode e) = Some mv ->
                             P (pendingRequestId mv)).
  { intros mv Hmv. rewrite Hm in Hmv. by eapply Hw. }
  destruct (transform (exit_hold_mode e)) as [tr|];
    [|by apply put_entity_stamped].
  assert (Hdef : P (pendingRequestId
                      (default (defaultMovement hdr)
                         (movement (exit_hold_mode e))))).
  { destruct (movement (exit_hold_mode e)) as [mv|]; [by apply Hkept|done]. }
  destruct (clearAttackIntent opts); simpl;
    (apply stamped_insert; [done|]); intros mv [= <-]; exact Hdef.
Qed.

Lemma collect_members_stamped opts st units targets :
  stamped P (world st) ->
  stamped P (world (collect_members hdr opts st units targets).1).
Proof.
  unfold collect_members.
  assert (Hgen : forall uts acc, stamped P (world acc.1) ->
            stamped P (world (foldl (collect_member hdr opts) acc uts).1)).
  { induction uts as [|ut rest IH]; intros acc Hw; [done|].
    simpl. apply IH. by apply collect_member_stamped. }
  intros Hw. by apply Hgen.
Qed.

Lemma reset_member_stamped st m :
  stamped P (world st) -> stamped P (world (reset_member st m)).
Proof.
  intros Hw. unfold reset_member.
  apply update_movement_stamped; [by intros mv _|].
  apply clearPendingRequest_stamped.
  by apply update_movement_stamped.
Qed.

Lemma send_directly_stamped st m :
  stamped P (world st) -> stamped P (world (send_directly st m)).
Proof. by apply update_movement_stamped. Qed.

Lemma send_directly_noted_stamped st m :
  stamped P (world st) -> stamped P (world (send_directly_noted st m)).
Proof. by apply update_movement_stamped. Qed.

Lemma mark_pending_stamped rid st m :
  P rid -> stamped P (world st) -> stamped P (world (mark_pending rid st m)).
Proof. intros Hrid. apply update_movement_stamped. by intros mv _. Qed.

(** A loop that only writes to the world. *)
Lemma foldl_world_stamped {A} (step : State -> A -> State) :
  (forall s a, stamped P (world s) -> stamped P (world (step s a))) ->
  forall l st, stamped P (world st) -> stamped P (world (foldl step st l)).
Proof.
  intros Hstep l. induction l as [|a rest IH]; intros st Hw; [done|].
  simpl. by apply IH, Hstep.
Qed.

Lemma register_group_stamped opts st leader members start finish :
  is_Some (s_pathfinder st) ->
  covers P (register_group opts st leader members start finish) ->
  stamped P (world st) ->
  stamped P (world (register_group opts st leader members start finish)).
Proof.
  intros [pf Hpf] Hc Hw.
  destruct (foldl_mark_pending_statics (s_nextRequestId st) members
              (St.set_nextRequestId (next_id (s_nextRequestId st)) st))
    as (Mp & _).
  assert (Hrid : P (s_nextRequestId st)).
  { apply Hc. unfold register_group, fetch_add. cbv zeta.
    fold (next_id (s_nextRequestId st)).
    unfold submitted_ids, submitted_requests.
    cbn [s_pathfinder St.set_pathfinder St.set_entityToRequest
         St.set_pendingRequests].
    rewrite Mp. simpl. rewrite Hpf. simpl. rewrite fmap_app.
    apply elem_of_app. right. by apply list_elem_of_singleton. }
  unfold register_group, fetch_add. cbv zeta.
  cbn [world St.set_pathfinder St.set_entityToRequest St.set_pendingRequests].
  apply foldl_world_stamped; [|done].
  intros s a. by apply mark_pending_stamped.
Qed.

Lemma formation_pathing_stamped opts st members :
  covers P (formation_pathing hdr opts st members) ->
  stamped P (world st) ->
  stamped P (world (formation_pathing hdr opts st members)).
Proof.
  unfold formation_pathing. intros Hc Hw.
  destruct (leader_of members) as [leader|]; [|done].
  assert (Hw1 : stamped P (world (foldl reset_member st members))).
  { apply foldl_world_stamped; [|done]. intros. by apply reset_member_stamped. }
  set (st1 := foldl reset_member st members) in *.
  assert (Hsend : stamped P (world (foldl send_directly st1 members))).
  { apply foldl_world_stamped; [|done]. intros. by apply send_directly_stamped. }
  destruct (s_pathfinder st1) eqn:Hpf; [|exact Hsend].
  destruct (Point_eqb _ _); [exact Hsend|].
  destruct (if negb (allowDirectFallback opts) then false else _).
  - apply foldl_world_stamped; [|done].
    intros. by apply send_directly_noted_stamped.
  - apply register_group_stamped; [by eexists|done|done].
Qed.

Lemma moveGroup_dispatch_stamped opts st members :
  stamped P (world st) ->
  match moveGroup_dispatch hdr opts st members with
  | inl s => covers P s -> stamped P (world s)
  | inr p => covers P p.1 -> stamped P (world p.1)
  end.
Proof.
  intros Hw. unfold moveGroup_dispatch. destruct members as [|m0 rest0];
    [done|].
  cbv zeta. destruct (F32.leb _ _).
  { intros Hc. by apply moveUnits_each_stamped. }
  set (stats := group_stats (m0 :: rest0)).
  set (members' := (fun m => set_distanceToTarget (to_target_of m) m)
                     <$> (m0 :: rest0)).
  set (st1 := match List.filter (should_advance stats) members' with
              | [] => st
              | _ => _
              end).
  assert (H1 : covers P st1 -> stamped P (world st1)).
  { unfold st1. destruct (List.filter (should_advance stats) members');
      [done|]. intros Hc. by apply moveUnits_each_stamped. }
  destruct (List.filter (fun m => negb (should_advance stats m)) members')
    as [|a [|b r]]; simpl; try exact H1.
  intros Hc. apply moveUnits_each_stamped; [done|]. apply H1.
  eapply covers_back; [|exact Hc]. apply moveUnits_each_allocates.
Qed.

Lemma moveGroup_stamped opts st units targets :
  covers P (moveGroup hdr st units targets opts) ->
  stamped P (world st) ->
  stamped P (world (moveGroup hdr st units targets opts)).
Proof.
  unfold moveGroup, moveGroup_prepare. intros Hc Hw.
  pose proof (collect_members_stamped opts st units targets Hw) as Hw1.
  destruct (collect_members hdr opts st units targets) as [st1 members].
  simpl in Hw1.
  destruct members as [|m1 [|m2 rest]]; [done| |].
  { by apply moveUnits_each_stamped. }
  destruct (List.filter (fun m => negb (isEngaged m)) (m1 :: m2 :: rest))
    as [|m0 l]; [done|].
  destruct (match s_pathfinder st1 with
            | Some pf => any_target_invalid st1 pf (m0 :: l)
            | None => false
            end); [done|].
  pose proof (moveGroup_dispatch_stamped opts st1 (m0 :: l) Hw1) as Hd.
  destruct (moveGroup_dispatch hdr opts st1 (m0 :: l)) as [s|[s regroup]];
    simpl in Hd; [by apply Hd|].
  apply formation_pathing_stamped; [done|]. apply Hd.
  eapply covers_back; [|exact Hc]. apply formation_pathing_allocates.
Qed.

Lemma moveUnits_stamped st units targets opts :
  covers P (moveUnits hdr st units targets opts) ->
  stamped P (world st) ->
  stamped P (world (moveUnits hdr st units targets opts)).
Proof.
  unfold moveUnits.
  destruct (negb (length units =? length targets)%nat); [done|].
  destruct (groupMove opts && (1 <? length units)%nat).
  - apply moveGroup_stamped.
  - apply moveUnits_each_stamped.
Qed.

Lemma apply_path_id req waypoints tgt mv :
  pendingRequestId (apply_path req waypoints tgt mv) = 0%N.
Proof.
  unfold apply_path. destruct waypoints; [|done].
  by destruct (allowDirectFallback (options req)).
Qed.

Lemma apply_to_member_stamped rid req pts st member tgt offset :
  stamped P (world st) ->
  stamped P (world (apply_to_member hdr rid req pts st member tgt offset)).
Proof.
  intros Hw. unfold apply_to_member.
  destruct (world st !! member) as [e|]; [|done].
  destruct (movement e) as [mv|]; [|done].
  destruct (transform e) as [tr|]; [|done].
  destruct (negb (pathPending mv) || negb (pendingRequestId mv =? rid)%N);
    apply store_movement_stamped; try done.
  by rewrite apply_path_id.
Qed.

Lemma process_result_stamped st result :
  stamped P (world st) -> stamped P (world (process_result hdr st result)).
Proof.
  intros Hw. unfold process_result.
  destruct (s_pendingRequests st !! request_id result) as [req|]; [|done].
  assert (Hgen : forall entries acc, stamped P (world acc.1) ->
            stamped P (world
              (foldl (add_member hdr (request_id result) req
                        (result_path result)) acc entries).1)).
  { induction entries as [|[id tgt] rest IH]; intros [s processed] Hs;
      [done|].
    simpl. apply IH. destruct (bool_decide (id ∈ processed)); [done|].
    simpl. by apply apply_to_member_stamped. }
  by apply Hgen.
Qed.

Lemma processPathResults_stamped st results :
  stamped P (world st) ->
  stamped P (world (processPathResults hdr st results)).
Proof.
  unfold processPathResults. destruct (s_pathfinder st); [|done].
  apply foldl_world_stamped. intros. by apply process_result_stamped.
Qed.

Lemma attack_unit_stamped target chase st uid :
  covers P (attack_unit hdr target chase st uid) ->
  stamped P (world st) ->
  stamped P (world (attack_unit hdr target chase st uid)).
Proof.
  unfold attack_unit. intros Hc Hw.
  destruct (world st !! uid) as [e|] eqn:He; [|done].
  destruct (exit_hold_mode_fields e) as (_ & _ & Hm & _).
  set (e1 := Ent.set_attackTarget _ _) in *.
  assert (H1 : stamped P (world (put_entity uid e1 st))).
  { apply put_entity_stamped; [|done]. intros mv Hmv.
    unfold e1 in Hmv. simpl in Hmv. rewrite Hm in Hmv. by eapply Hw. }
  destruct (negb chase); [exact H1|].
  destruct (world (put_entity uid e1 st) !! target) as [t|]; [|exact H1].
  destruct (transform t); [|exact H1].
  destruct (transform e1); [|exact H1].
  cbn [world St.set_world]. apply stamped_alter.
  { apply moveUnits_stamped; [|done]. exact Hc. }
  intros e' mv' He' [= <-].
  change (P (pendingRequestId (default (defaultMovement hdr) (movement e')))).
  destruct (movement e') as [mv|] eqn:Hmv; [|done].
  simpl. eapply moveUnits_stamped; [exact Hc|exact H1|exact He'|exact Hmv].
Qed.

Lemma attack_target_stamped st units target chase :
  covers P (attack_target hdr st units target chase) ->
  stamped P (world st) ->
  stamped P (world (attack_target hdr st units target chase)).
Proof.
  unfold attack_target. destruct (target =? 0)%N; [done|].
  apply foldl_stamped.
  - intros. apply attack_unit_allocates.
  - intros. by apply attack_unit_stamped.
Qed.

Lemma run_stamped calls : forall st,
  Forall (stamped P) (world_changes calls) ->
  covers P (run hdr st calls) ->
  stamped P (world st) ->
  stamped P (world (run hdr st calls)).
Proof.
  unfold run. induction calls as [|c rest IH]; intros st Hch Hc Hw; [done|].
  simpl in *.
  assert (Hmid : covers P (call hdr st c)).
  { eapply covers_back; [|exact Hc].
    apply (foldl_allocates (call hdr) (call_allocates hdr)). }
  destruct c; simpl in *.
  - apply IH; [done|done|]. by apply moveUnits_stamped.
  - apply IH; [done|done|]. by apply clearPendingRequest_stamped.
  - apply IH; [done|done|]. by apply processPathResults_stamped.
  - apply IH; [done|done|]. by apply attack_target_stamped.
  - apply Forall_cons in Hch as [Hw' Hch]. by apply IH.
Qed.

End Stamps.
Section EpochIds.
Variable hdr : Header.

Lemma iter_next_id (i : nat) :
  (N.of_nat i < uint64_modulus - 1)%N ->
  Nat.iter i next_id 1%N = (N.of_nat i + 1)%N.
Proof.
  induction i as [|i IH]; intros Hi; [done|].
  simpl. rewrite IH by lia. unfold next_id.
  rewrite N.mod_small by lia. lia.
Qed.

(** C10 (amended).  In an epoch, that is after [initialize] and whatever
    the calls on the service and the changes of the world that follow, as
    long as fewer than [2^64 - 1] ids have been allocated: the ids handed
    to the pathfinding engine are 1, 2, 3, ... in the order of their
    allocation, so each is nonzero (none is the sentinel 0 of
    [pendingRequestId]) and they are pairwise distinct; the counter has
    moved once for each of them; every request of the ledger and every
    entry of the entity map carries one of them; and the service writes
    nothing but 0 or one of them into a [pendingRequestId]: a property
    that holds of 0, of the default component and of the
    [pendingRequestId]s the world had at [initialize] and was given by
    others since holds, in the end, of every [pendingRequestId] that is
    not one of these ids. *)
Theorem C10_ids_of_an_epoch_nonzero_distinct w h st calls :
  let st' := run hdr (initialize hdr w h st) calls in
  let ids := submitted_ids st' in
  (N.of_nat (length ids) < uint64_modulus - 1)%N ->
  ids = (fun i => (N.of_nat i + 1)%N) <$> seq 0 (length ids)
  /\ Forall (fun id => id ≠ 0%N) ids
  /\ NoDup ids
  /\ s_nextRequestId st' = (N.of_nat (length ids) + 1)%N
  /\ (forall rid, is_Some (s_pendingRequests st' !! rid) -> rid ∈ ids)
  /\ (forall e rid, s_entityToRequest st' !! e = Some rid -> rid ∈ ids)
  /\ (forall P : RequestId -> Prop,
        P 0%N -> P (pendingRequestId (defaultMovement hdr)) ->
        stamped P (world st) ->
        Forall (stamped P) (world_changes calls) ->
        stamped (fun rid => P rid \/ rid ∈ ids) (world st')).
Proof.
  intros st' ids.
  assert (Hstamps : forall P : RequestId -> Prop,
            P 0%N -> P (pendingRequestId (defaultMovement hdr)) ->
            stamped P (world st) ->
            Forall (stamped P) (world_changes calls) ->
            stamped (fun rid => P rid \/ rid ∈ ids) (world st')).
  { intros P P0 Pd Hw Hch.
    assert (Hmono : forall w0, stamped P w0 ->
                      stamped (fun rid => P rid \/ rid ∈ ids) w0).
    { intros w0 H0 id e mv Hl Hm. left. by eapply H0. }
    apply run_stamped.
    - by left.
    - by left.
    - eapply Forall_impl; [exact Hch|exact Hmono].
    - intros rid Hin. by right.
    - by apply Hmono. }
  destruct (foldl_allocates (call hdr) (call_allocates hdr) calls
              (initialize hdr w h st)) as (n & A1 & A2 & A3 & A4).
  fold (run hdr (initialize hdr w h st) calls) in A1, A2, A3, A4.
  fold st' in A1, A2, A3, A4. simpl in A1, A2, A3, A4.
  change (submitted_ids st') with ids in A1.
  assert (Hlen : length ids = n)
    by (rewrite A1; unfold ids_from; by rewrite length_fmap, length_seq).
  rewrite Hlen. intros Hn.
  assert (Hids : ids = (fun i => (N.of_nat i + 1)%N) <$> seq 0 n).
  { rewrite A1. unfold ids_from. apply list_fmap_ext. intros k i Hi.
    apply lookup_seq in Hi as [-> Hk]. simpl. apply iter_next_id. lia. }
  split; [exact Hids|]. split.
  { rewrite Hids. apply Forall_fmap, Forall_forall. intros i _. simpl. lia. }
  split.
  { rewrite Hids. apply NoDup_fmap_2; [|apply NoDup_seq].
    intros i j Hij. lia. }
  split; [rewrite A2; by apply iter_next_id|].
  split.
  { intros rid Hr. destruct (A3 rid Hr) as [Hold|Hnew]; [|by rewrite A1].
    rewrite lookup_empty in Hold. by destruct Hold. }
  split; [|exact Hstamps].
  intros e rid He. destruct (A4 e rid He) as [Hold|Hnew]; [|by rewrite A1].
  by rewrite lookup_empty in Hold.
Qed.

End EpochIds.

Lemma C10_witness :
  let calls :=
    [CallMoveUnits [1%N] [vec 10 10] options_async;
     CallProcessPathResults [mkResult 1%N []];
     CallMoveUnits [1%N] [vec 10 (-10)] options_async] in
  let st' := run demo_header (initialize demo_header 50 50 demo_far) calls in
  let ids := submitted_ids st' in
  (N.of_nat (length ids) < uint64_modulus - 1)%N
  /\ ids = [1%N; 2%N]
  /\ (ids = (fun i => (N.of_nat i + 1)%N) <$> seq 0 (length ids)
      /\ Forall (fun id => id ≠ 0%N) ids
      /\ NoDup ids
      /\ s_nextRequestId st' = (N.of_nat (length ids) + 1)%N
      /\ (forall rid, is_Some (s_pendingRequests st' !! rid) -> rid ∈ ids)
      /\ (forall e rid, s_entityToRequest st' !! e = Some rid -> rid ∈ ids)
      /\ (forall P : RequestId -> Prop,
            P 0%N -> P (pendingRequestId (defaultMovement demo_header)) ->
            stamped P (world demo_far) ->
            Forall (stamped P) (world_changes calls) ->
            stamped (fun rid => P rid \/ rid ∈ ids) (world st'))).
Proof.
  intros calls st' ids.
  assert (H1 : (N.of_nat (length ids) < uint64_modulus - 1)%N)
    by (vm_compute; reflexivity).
  assert (H2 : ids = [1%N; 2%N]) by (vm_compute; reflexivity).
  split; [exact H1|]. split; [exact H2|].
  exact (C10_ids_of_an_epoch_nonzero_distinct demo_header 50 50 demo_far calls H1).
Defined.

(** C10, as stated, fails: [initialize] stores 1 in the counter again, so
    that allocations of two epochs yield the same id.  Soldier 1 is
    ordered to a far cell and waits for request 1; the level is initialised
    again; soldier 2 is ordered to a far cell and waits for request 1, too.
    Both allocations returned 1, and both soldiers hold the id 1 for two
    different requests. *)
Lemma C10_counterexample :
  let first := moveUnits demo_header demo_two [1%N] [vec 10 10] options_async in
  let again := initialize demo_header 50 50 first in
  let second := moveUnits demo_header again [2%N] [vec 10 10] options_async in
  submitted_ids first = [1%N]
  /\ s_nextRequestId again = 1%N
  /\ submitted_ids second = [1%N]
  /\ (entity_id <$> s_pendingRequests first !! 1%N) = Some 1%N
  /\ (entity_id <$> s_pendingRequests second !! 1%N) = Some 2%N
  /\ (pendingRequestId <$> movement_of second 1%N) = Some 1%N
  /\ (pendingRequestId <$> movement_of second 2%N) = Some 1%N.
Proof. repeat split; vm_compute; reflexivity. Qed.

(** ** Attack orders with chase *)

Lemma alter_movement_kept (g : Entity -> option MovementComponent) uid
    (w : gmap EntityID Entity) id :
  entity_kept (w !! id) (alter (fun e' => Ent.set_movement (g e') e') uid w !! id).
Proof.
  destruct (decide (id = uid)) as [->|Hne].
  - rewrite lookup_alter_eq. by destruct (w !! uid).
  - rewrite lookup_alter_ne by done. apply entity_kept_refl.
Qed.

Section Chase.
Variable hdr : Header.

Lemma attack_unit_kept target chase st uid id :
  entity_kept (world st !! id) (world (attack_unit hdr target chase st uid) !! id).
Proof.
  unfold attack_unit.
  destruct (world st !! uid) as [e|] eqn:He; [|apply entity_kept_refl].
  destruct (exit_hold_mode_fields e) as (Ha & Htr & Hm & Hat & Hu & Hb).
  set (e1 := Ent.set_attackTarget _ _).
  assert (H1 : entity_kept (world st !! id) (world (put_entity uid e1 st) !! id))
    by (simpl; by apply (insert_entity_kept _ uid e)).
  destruct (negb chase); [exact H1|].
  destruct (world (put_entity uid e1 st) !! target) as [t|]; [|exact H1].
  destruct (transform t); [|exact H1].
  destruct (transform e1); [|exact H1].
  eapply entity_kept_trans; [exact H1|].
  rewrite moveUnits_single. cbn [world St.set_world].
  eapply entity_kept_trans; [apply moveUnit_kept|].
  apply alter_movement_kept.
Qed.

(** One round of the loop for an attacker and a target with transforms. *)
Lemma attack_unit_aims st unit_id target e target_ent t_trans att_trans :
  world st !! unit_id = Some e ->
  world st !! target = Some target_ent ->
  transform e = Some att_trans ->
  transform target_ent = Some t_trans ->
  exists mv',
    movement_of (attack_unit hdr target true st unit_id) unit_id = Some mv'
    /\ aimed_at (desired_position e target_ent t_trans att_trans) mv'.
Proof.
  intros He Ht Hatt Htt. unfold attack_unit. rewrite He.
  destruct (exit_hold_mode_fields e) as (Ha & Htr & Hm & Hat & Hu & Hb).
  set (e1 := Ent.set_attackTarget (Some (mkAttackTarget target true))
               (exit_hold_mode e)).
  simpl negb. cbv iota.
  assert (Htarget : exists t1, world (put_entity unit_id e1 st) !! target = Some t1
                      /\ transform t1 = Some t_trans
                      /\ building t1 = building target_ent).
  { simpl. destruct (decide (unit_id = target)) as [<-|Hne].
    - rewrite lookup_insert_eq. exists e1.
      assert (target_ent = e) by congruence. subst target_ent.
      split; [done|]. simpl. split; congruence.
    - rewrite lookup_insert_ne by done. eauto. }
  destruct Htarget as (t1 & -> & Ht1 & Hb1).
  rewrite Ht1. change (transform e1) with (transform (exit_hold_mode e)).
  rewrite Htr, Hatt.
  rewrite (desired_position_ext e e1 target_ent t1 t_trans att_trans)
    by (try done; simpl; congruence).
  rewrite moveUnits_single.
  set (pos := desired_position e target_ent t_trans att_trans).
  set (opts := mkOptions true false (groupMove (defaultMoveOptions hdr))).
  assert (He1 : world (put_entity unit_id e1 st) !! unit_id = Some e1)
    by (simpl; apply lookup_insert_eq).
  destruct (moveUnit_entity hdr opts (put_entity unit_id e1 st)
              (unit_id, pos) unit_id e1 He1) as (e2 & He2 & _).
  unfold movement_of, St.set_world. cbn [world].
  rewrite lookup_alter_eq, He2. simpl.
  eexists. split; [reflexivity|]. by repeat split.
Qed.

(** The whole order: every listed attacker with a transform ends aimed at
    its desired position, whatever the rounds for the other units do. *)
Lemma attack_target_aims st units unit_id target e target_ent t_trans att_trans :
  target ≠ 0%N ->
  unit_id ∈ units ->
  world st !! unit_id = Some e ->
  world st !! target = Some target_ent ->
  transform e = Some att_trans ->
  transform target_ent = Some t_trans ->
  exists mv',
    movement_of (attack_target hdr st units target true) unit_id = Some mv'
    /\ aimed_at (desired_position e target_ent t_trans att_trans) mv'.
Proof.
  intros Hnz Hin He Ht Hatt Htt. unfold attack_target.
  apply N.eqb_neq in Hnz. rewrite Hnz. clear Hnz.
  set (pos := desired_position e target_ent t_trans att_trans).
  set (known := fun s : State =>
         exists e' t',
           world s !! unit_id = Some e' /\ world s !! target = Some t'
           /\ transform e' = Some att_trans /\ transform t' = Some t_trans
           /\ attack e' = attack e /\ building t' = building target_ent).
  set (aimed := fun s : State =>
         exists mv', movement_of s unit_id = Some mv' /\ aimed_at pos mv').
  assert (Hfold : forall l s, known s -> unit_id ∈ l \/ aimed s ->
            aimed (foldl (attack_unit hdr target true) s l)).
  { induction l as [|u rest IH]; intros s Hs Hor.
    { destruct Hor as [Hnil|Ha]; [by apply elem_of_nil in Hnil|done]. }
    cbn [foldl].
    destruct Hs as (e' & t' & He' & Ht' & Hatt' & Htt' & Hatk & Hbld).
    assert (Hnext : known (attack_unit hdr target true s u)).
    { pose proof (attack_unit_kept target true s u unit_id) as K1.
      pose proof (attack_unit_kept target true s u target) as K2.
      rewrite He' in K1. rewrite Ht' in K2.
      destruct (world (attack_unit hdr target true s u) !! unit_id) as [e2|]
        eqn:He2; [|done].
      destruct (world (attack_unit hdr target true s u) !! target) as [t2|]
        eqn:Ht2; [|done].
      simpl in K1, K2. destruct K1 as (A1 & A2 & _), K2 as (B1 & _ & _ & B4).
      exists e2, t2. unfold known. repeat split; congruence. }
    apply IH; [exact Hnext|].
    destruct (decide (u = unit_id)) as [->|Hne].
    - right.
      destruct (attack_unit_aims s unit_id target e' t' t_trans att_trans
                  He' Ht' Hatt' Htt') as (mv' & Hmv' & Haim).
      exists mv'. split; [done|].
      by rewrite (desired_position_ext e e' target_ent t' t_trans att_trans)
        in Haim.
    - destruct Hor as [Hl|(mv' & Hmv' & Haim)].
      + left. apply elem_of_cons in Hl as [Heq|Hl]; [congruence|done].
      + right. exists mv'. split; [|done].
        unfold movement_of. rewrite attack_unit_other by done. exact Hmv'. }
  apply Hfold; [|by left].
  exists e, target_ent. by repeat split.
Qed.

(** C8 (amended).  In an attack order with [shouldChase], every listed
    attacker whose distance to the target is not more than 0.15 above its
    desired stand-off distance (attacker and target exist and have
    transforms) is issued movement all the same: no stand-off position is
    computed, the desired position is the position of the target itself,
    the move is sent there, and the attacker ends with that position as its
    immediate target and goal, [hasTarget] true and an empty path. *)
Theorem C8_attacker_in_range_is_sent_to_target
    st units unit_id target e target_ent t_trans att_trans :
  target ≠ 0%N ->
  unit_id ∈ units ->
  world st !! unit_id = Some e ->
  world st !! target = Some target_ent ->
  transform e = Some att_trans ->
  transform target_ent = Some t_trans ->
  F32.ltb (desired_distance e target_ent t_trans + F32.lit 15 100)%f32
          (attack_distance t_trans att_trans) = false ->
  let st' := attack_target hdr st units target true in
  desired_position e target_ent t_trans att_trans = ground_position t_trans
  /\ exists mv',
       movement_of st' unit_id = Some mv'
       /\ hasTarget mv' = true
       /\ target_x mv' = vec_x (position t_trans)
       /\ target_y mv' = vec_z (position t_trans)
       /\ goalX mv' = vec_x (position t_trans)
       /\ goalY mv' = vec_z (position t_trans)
       /\ path mv' = [].
Proof.
  intros Hnz Hin He Ht Hatt Htt Hrange st'.
  pose proof (desired_position_in_range e target_ent t_trans att_trans Hrange)
    as Hpos.
  split; [exact Hpos|].
  destruct (attack_target_aims st units unit_id target e target_ent t_trans
              att_trans Hnz Hin He Ht Hatt Htt) as (mv' & Hmv' & Haim).
  rewrite Hpos in Haim. exists mv'. split; [exact Hmv'|exact Haim].
Qed.

(** X22.  In a chasing attack order on an existing target with a
    transform, every listed attacker that exists and has a transform ends
    aimed at the desired position computed from the two transforms,
    whatever the move order issued on the way decided and whatever the
    rounds for the other units did: immediate target and goal are that
    position, [hasTarget] is true and the path is empty. *)
Theorem X22_chasing_attacker_is_aimed
    st units unit_id target e target_ent t_trans att_trans :
  target ≠ 0%N ->
  unit_id ∈ units ->
  world st !! unit_id = Some e ->
  world st !! target = Some target_ent ->
  transform e = Some att_trans ->
  transform target_ent = Some t_trans ->
  let st' := attack_target hdr st units target true in
  let pos := desired_position e target_ent t_trans att_trans in
  exists mv',
    movement_of st' unit_id = Some mv'
    /\ hasTarget mv' = true
    /\ target_x mv' = vec_x pos /\ target_y mv' = vec_z pos
    /\ goalX mv' = vec_x pos /\ goalY mv' = vec_z pos
    /\ path mv' = [].
Proof.
  intros Hnz Hin He Ht Hatt Htt st' pos.
  exact (attack_target_aims st units unit_id target e target_ent t_trans
           att_trans Hnz Hin He Ht Hatt Htt).
Qed.

End Chase.

Lemma C8_witness :
  (2%N ≠ 0%N
   /\ 1%N ∈ [1%N]
   /\ world demo_standoff !! 1%N = Some (idle_soldier 0 0)
   /\ world demo_standoff !! 2%N = Some standoff_target
   /\ transform (idle_soldier 0 0) = Some (demo_transform 0 0)
   /\ transform standoff_target = Some standoff_transform
   /\ F32.ltb
        (desired_distance (idle_soldier 0 0) standoff_target standoff_transform
         + F32.lit 15 100)%f32
        (attack_distance standoff_transform (demo_transform 0 0)) = false)
  /\ let st' := attack_target demo_header demo_standoff [1%N] 2%N true in
     desired_position (idle_soldier 0 0) standoff_target standoff_transform
       (demo_transform 0 0)
     = ground_position standoff_transform
     /\ exists mv',
          movement_of st' 1%N = Some mv'
          /\ hasTarget mv' = true
          /\ target_x mv' = vec_x (position standoff_transform)
          /\ target_y mv' = vec_z (position standoff_transform)
          /\ goalX mv' = vec_x (position standoff_transform)
          /\ goalY mv' = vec_z (position standoff_transform)
          /\ path mv' = [].
Proof.
  assert (H1 : 2%N ≠ 0%N) by lia.
  assert (H2 : 1%N ∈ [1%N]) by (apply elem_of_cons; by left).
  assert (H3 : world demo_standoff !! 1%N = Some (idle_soldier 0 0))
    by (vm_compute; reflexivity).
  assert (H4 : world demo_standoff !! 2%N = Some standoff_target)
    by (vm_compute; reflexivity).
  assert (H5 : transform (idle_soldier 0 0) = Some (demo_transform 0 0))
    by reflexivity.
  assert (H6 : transform standoff_target = Some standoff_transform)
    by reflexivity.
  assert (H7 : F32.ltb
                 (desired_distance (idle_soldier 0 0) standoff_target
                    standoff_transform + F32.lit 15 100)%f32
                 (attack_distance standoff_transform (demo_transform 0 0))
               = false)
    by (vm_compute; reflexivity).
  split; [exact (conj H1 (conj H2 (conj H3 (conj H4 (conj H5 (conj H6 H7))))))|].
  exact (C8_attacker_in_range_is_sent_to_target demo_header demo_standoff [1%N]
           1%N 2%N _ _ _ _ H1 H2 H3 H4 H5 H6 H7).
Defined.

(** C8, as stated, fails: the attacker 1 stands at distance 1.75 from its
    target, which is within 0.15 of its stand-off distance 1.8 (between
    1.65 and 1.95); it is idle before the order, with the target
    coordinate 0, and after the order it has [hasTarget] set and the
    position of the target, 1.75, as its immediate target. *)
Lemma C8_counterexample :
  let desired :=
    desired_distance (idle_soldier 0 0) standoff_target standoff_transform in
  let distance := attack_distance standoff_transform (demo_transform 0 0) in
  world demo_standoff !! 1%N = Some (idle_soldier 0 0)
  /\ world demo_standoff !! 2%N = Some standoff_target
  /\ distance = F32.lit 7 4
  /\ desired = (F32.of_Z 2 - F32.lit 1 5)%f32
  /\ F32.leb (desired - F32.lit 15 100)%f32 distance = true
  /\ F32.leb distance (desired + F32.lit 15 100)%f32 = true
  /\ movement_of demo_standoff 1%N = Some demo_movement
  /\ hasTarget demo_movement = false
  /\ target_x demo_movement = F32.zero
  /\ exists mv',
       movement_of (attack_target demo_header demo_standoff [1%N] 2%N true) 1%N
       = Some mv'
       /\ hasTarget mv' = true
       /\ target_x mv' = F32.lit 7 4
       /\ target_x mv' ≠ target_x demo_movement.
Proof.
  repeat (split; [vm_compute; reflexivity|]).
  eexists. split; [vm_compute; reflexivity|].
  split; [reflexivity|]. split; [vm_compute; reflexivity|].
  vm_compute. intros [=].
Qed.

Lemma X22_witness :
  (2%N ≠ 0%N
   /\ 1%N ∈ [3%N; 1%N]
   /\ world demo_duel !! 1%N = Some (idle_soldier 0 0)
   /\ world demo_duel !! 2%N = Some (soldier 1 0)
   /\ transform (idle_soldier 0 0) = Some (demo_transform 0 0)
   /\ transform (soldier 1 0) = Some (demo_transform 1 0))
  /\ let st' := attack_target demo_header demo_duel [3%N; 1%N] 2%N true in
     let pos := desired_position (idle_soldier 0 0) (soldier 1 0)
                  (demo_transform 1 0) (demo_transform 0 0) in
     exists mv',
       movement_of st' 1%N = Some mv'
       /\ hasTarget mv' = true
       /\ target_x mv' = vec_x pos /\ target_y mv' = vec_z pos
       /\ goalX mv' = vec_x pos /\ goalY mv' = vec_z pos
       /\ path mv' = [].
Proof.
  assert (H1 : 2%N ≠ 0%N) by lia.
  assert (H2 : 1%N ∈ [3%N; 1%N])
    by (apply elem_of_cons; right; apply elem_of_cons; by left).
  assert (H3 : world demo_duel !! 1%N = Some (idle_soldier 0 0))
    by (vm_compute; reflexivity).
  assert (H4 : world demo_duel !! 2%N = Some (soldier 1 0))
    by (vm_compute; reflexivity).
  assert (H5 : transform (idle_soldier 0 0) = Some (demo_transform 0 0))
    by reflexivity.
  assert (H6 : transform (soldier 1 0) = Some (demo_transform 1 0))
    by reflexivity.
  split; [exact (conj H1 (conj H2 (conj H3 (conj H4 (conj H5 H6)))))|].
  exact (X22_chasing_attacker_is_aimed demo_header demo_duel [3%N; 1%N] 1%N 2%N
           _ _ _ _ H1 H2 H3 H4 H5 H6).
Defined.

(** ** The further properties on the examples *)

Lemma ledger_wf_check_sound st : ledger_wf_check st -> ledger_wf st.
Proof.
  intros [HA HB]. split.
  - intros e rid He. specialize (HA e rid He). simpl in HA.
    destruct (s_pendingRequests st !! rid) as [req|]; [|done].
    exists req. split; [done|].
    apply orb_true_iff in HA as [Hin|Hown].
    + left. by apply bool_decide_eq_true in Hin.
    + right. apply andb_true_iff in Hown as [Hnil Hid].
      apply bool_decide_eq_true in Hnil. by apply N.eqb_eq in Hid.
  - intros rid req f Hreq Hf. specialize (HB rid req Hreq). simpl in HB.
    by apply (proj1 (Forall_forall _ _) HB).
Qed.

Lemma demo_grouped_wf : ledger_wf demo_grouped.
Proof.
  apply ledger_wf_check_sound, (bool_decide_unpack _). vm_compute. exact I.
Qed.

Lemma demo_far_requested_wf : ledger_wf demo_far_requested.
Proof.
  apply ledger_wf_check_sound, (bool_decide_unpack _). vm_compute. exact I.
Qed.

Lemma X2_witness :
  (ledger_wf demo_grouped /\ s_entityToRequest demo_grouped !! 2%N = Some 1%N)
  /\ let st' := clearPendingRequest 2%N demo_grouped in
     ledger_wf st'
     /\ s_pendingRequests st' = delete 1%N (s_pendingRequests demo_grouped)
     /\ (forall e, s_entityToRequest st' !! e ≠ Some 1%N)
     /\ (forall e r, r ≠ 1%N -> s_entityToRequest demo_grouped !! e = Some r ->
                     s_entityToRequest st' !! e = Some r)
     /\ world st' = world demo_grouped
     /\ s_pathfinder st' = s_pathfinder demo_grouped
     /\ s_nextRequestId st' = s_nextRequestId demo_grouped.
Proof.
  assert (H1 : ledger_wf demo_grouped) by exact demo_grouped_wf.
  assert (H2 : s_entityToRequest demo_grouped !! 2%N = Some 1%N)
    by (vm_compute; reflexivity).
  split; [by split|].
  exact (X2_cancel_erases_one_request_and_its_entries 2%N demo_grouped 1%N H1 H2).
Defined.

Lemma X4_witness :
  (s_entityToRequest demo_far_requested !! 1%N = Some 1%N
   /\ request_id (mkResult 1%N [(15, 15); (35, 35)]) = 1%N)
  /\ processPathResults demo_header (clearPendingRequest 1%N demo_far_requested)
       [mkResult 1%N [(15, 15); (35, 35)]]
     = clearPendingRequest 1%N demo_far_requested.
Proof.
  assert (H1 : s_entityToRequest demo_far_requested !! 1%N = Some 1%N)
    by (vm_compute; reflexivity).
  assert (H2 : request_id (mkResult 1%N [(15, 15); (35, 35)]) = 1%N)
    by reflexivity.
  split; [by split|].
  exact (X4_result_after_cancel_is_discarded demo_header 1%N demo_far_requested
           1%N _ H1 H2).
Defined.


Lemma X6_witness :
  (resolve_unit demo_header options_default 1%N demo_near_moved
   = (demo_near_moved, Some (demo_transform 0 0, sent_movement 2 0))
   /\ dedup_unit options_default 1%N (vec 2 0) (sent_movement 2 0) demo_near_moved
      = inl (sent_movement 2 0, demo_near_moved))
  /\ let st' := moveUnits demo_header demo_near_moved [1%N] [vec 2 0]
                  options_default in
     movement_of st' 1%N
     = Some (with_goal (vec_x (vec 2 0)) (vec_z (vec 2 0)) (sent_movement 2 0))
     /\ issues_nothing demo_near_moved st'
     /\ forall rid req', s_pendingRequests st' !! rid = Some req' ->
          exists req, s_pendingRequests demo_near_moved !! rid = Some req
                      /\ same_but_options req' req.
Proof.
  assert (H1 : resolve_unit demo_header options_default 1%N demo_near_moved
               = (demo_near_moved, Some (demo_transform 0 0, sent_movement 2 0)))
    by (vm_compute; reflexivity).
  assert (H2 : dedup_unit options_default 1%N (vec 2 0) (sent_movement 2 0)
                 demo_near_moved
               = inl (sent_movement 2 0, demo_near_moved))
    by (vm_compute; reflexivity).
  split; [by split|].
  exact (X6_dropped_order_records_goal_only demo_header options_default
           demo_near_moved 1%N (vec 2 0) _ _ _ _ _ H1 H2).
Defined.

Lemma X7_witness :
  (world demo_near !! 1%N = Some (soldier 0 0)
   /\ melee_locked (soldier 0 0) = false
   /\ transform (soldier 0 0) = Some (demo_transform 0 0))
  /\ exists mv',
       movement_of (moveUnits demo_header demo_near [1%N] [vec 2 0]
                      options_default) 1%N = Some mv'
       /\ goalX mv' = vec_x (vec 2 0) /\ goalY mv' = vec_z (vec 2 0).
Proof.
  assert (H1 : world demo_near !! 1%N = Some (soldier 0 0))
    by (vm_compute; reflexivity).
  assert (H2 : melee_locked (soldier 0 0) = false) by reflexivity.
  assert (H3 : transform (soldier 0 0) = Some (demo_transform 0 0))
    by reflexivity.
  split; [by repeat split|].
  exact (X7_goal_is_last_ordered_destination demo_header options_default
           demo_near 1%N (vec 2 0) _ _ H1 H2 H3).
Defined.

Lemma X8_witness :
  (resolve_unit demo_header options_async 1%N demo_far
   = (demo_far_ready, Some (demo_transform (-10) (-10), demo_movement))
   /\ dedup_unit options_async 1%N (vec 10 10) demo_movement demo_far_ready
      = inr (with_goal (F32.of_Z 10) (F32.of_Z 10) demo_movement, demo_far_ready)
   /\ s_pathfinder demo_far = Some demo_pf
   /\ Point_eqb (15, 15) (35, 35) = false
   /\ (allowDirectFallback options_async = false
       \/ DIRECT_PATH_THRESHOLD demo_header < manhattan (15, 15) (35, 35))
   /\ (supersede_existing options_async 1%N (vec_x (vec 10 10))
         (vec_z (vec 10 10)) demo_far_ready).1 = false)
  /\ let st' := moveUnits demo_header demo_far [1%N] [vec 10 10] options_async in
     let rid := s_nextRequestId demo_far in
     (exists mv',
        movement_of st' 1%N = Some mv'
        /\ pathPending mv' = true /\ pendingRequestId mv' = rid
        /\ hasTarget mv' = false /\ path mv' = []
        /\ goalX mv' = vec_x (vec 10 10) /\ goalY mv' = vec_z (vec 10 10)
        /\ lastGoalX mv' = vec_x (vec 10 10)
        /\ lastGoalY mv' = vec_z (vec 10 10))
     /\ s_pendingRequests st' !! rid
        = Some (mkPending 1%N (vec 10 10) options_async [] [])
     /\ s_entityToRequest st' !! 1%N = Some rid
     /\ (forall r0, s_entityToRequest demo_far !! 1%N = Some r0 -> r0 ≠ rid ->
                    s_pendingRequests st' !! r0 = None)
     /\ s_nextRequestId st' = ((rid + 1) mod uint64_modulus)%N
     /\ submitted_requests st'
        = submitted_requests demo_far ++ [(rid, (15, 15), (35, 35))].
Proof.
  assert (H1 : resolve_unit demo_header options_async 1%N demo_far
               = (demo_far_ready,
                  Some (demo_transform (-10) (-10), demo_movement)))
    by (vm_compute; reflexivity).
  assert (H2 : dedup_unit options_async 1%N (vec 10 10) demo_movement
                 demo_far_ready
               = inr (with_goal (F32.of_Z 10) (F32.of_Z 10) demo_movement,
                      demo_far_ready))
    by (vm_compute; reflexivity).
  assert (H3 : s_pathfinder demo_far = Some demo_pf) by (vm_compute; reflexivity).
  assert (H4 : Point_eqb (15, 15) (35, 35) = false) by reflexivity.
  assert (H5 : allowDirectFallback options_async = false
               \/ DIRECT_PATH_THRESHOLD demo_header < manhattan (15, 15) (35, 35))
    by (left; reflexivity).
  assert (H6 : (supersede_existing options_async 1%N (vec_x (vec 10 10))
                  (vec_z (vec 10 10)) demo_far_ready).1 = false)
    by (vm_compute; reflexivity).
  split; [by repeat split|].
  exact (X8_far_order_issues_one_request demo_header options_async demo_far
           1%N (vec 10 10) _ _ _ _ _ demo_pf H1 H2 H3 H4 H5 H6).
Defined.

Lemma X9_witness :
  s_pathfinder demo_unplaced = None
  /\ issues_nothing demo_unplaced
       (moveUnits demo_header demo_unplaced [1%N; 2%N] [vec 10 10; vec 11 10]
          options_group).
Proof.
  assert (H1 : s_pathfinder demo_unplaced = None) by reflexivity.
  split; [done|].
  exact (X9_no_pathfinder_no_request demo_header demo_unplaced [1%N; 2%N]
           [vec 10 10; vec 11 10] options_group H1).
Defined.

Lemma X11_witness :
  (clearAttackIntent options_keep = false
   /\ collect_members demo_header options_keep demo_engaged [1%N; 2%N; 3%N]
        [vec 10 10; vec 11 10; vec 12 10]
      = (demo_engaged,
         [mkMember 1%N (vec (-10) (-10)) (vec 10 10) true (F32.of_Z 1) Archer
            F32.zero;
          demo_member 2 (-9) (-10) 11 10; demo_member 3 (-8) (-10) 12 10])
   /\ (2 <= length
             [mkMember 1%N (vec (-10) (-10)) (vec 10 10) true (F32.of_Z 1) Archer
                F32.zero;
              demo_member 2 (-9) (-10) 11 10; demo_member 3 (-8) (-10) 12 10])%nat
   /\ world demo_engaged !! 1%N = Some (engaged_soldier (-10) (-10) 9%N)
   /\ is_Some (attackTarget (engaged_soldier (-10) (-10) 9%N)))
  /\ exists e',
       world (moveGroup demo_header demo_engaged [1%N; 2%N; 3%N]
                [vec 10 10; vec 11 10; vec 12 10] options_keep) !! 1%N = Some e'
       /\ attackTarget e' = attackTarget (engaged_soldier (-10) (-10) 9%N)
       /\ transform e' = transform (engaged_soldier (-10) (-10) 9%N)
       /\ (movement e' = movement (engaged_soldier (-10) (-10) 9%N)
           \/ (movement (engaged_soldier (-10) (-10) 9%N) = None
               /\ movement e' = Some (defaultMovement demo_header))).
Proof.
  assert (H1 : clearAttackIntent options_keep = false) by reflexivity.
  assert (H2 : collect_members demo_header options_keep demo_engaged
                 [1%N; 2%N; 3%N] [vec 10 10; vec 11 10; vec 12 10]
               = (demo_engaged,
                  [mkMember 1%N (vec (-10) (-10)) (vec 10 10) true (F32.of_Z 1)
                     Archer F32.zero;
                   demo_member 2 (-9) (-10) 11 10;
                   demo_member 3 (-8) (-10) 12 10]))
    by (vm_compute; reflexivity).
  assert (H3 : (2 <= length
                  [mkMember 1%N (vec (-10) (-10)) (vec 10 10) true (F32.of_Z 1)
                     Archer F32.zero;
                   demo_member 2 (-9) (-10) 11 10;
                   demo_member 3 (-8) (-10) 12 10])%nat) by (simpl; lia).
  assert (H4 : world demo_engaged !! 1%N = Some (engaged_soldier (-10) (-10) 9%N))
    by (vm_compute; reflexivity).
  assert (H5 : is_Some (attackTarget (engaged_soldier (-10) (-10) 9%N)))
    by (by eexists).
  split; [by repeat split|].
  exact (X11_engaged_member_is_not_moved demo_header options_keep demo_engaged
           [1%N; 2%N; 3%N] [vec 10 10; vec 11 10; vec 12 10] _ _ 1%N _
           H1 H2 H3 H4 H5).
Defined.

Lemma X12_witness :
  2%N ≠ 0%N
  /\ let st' := attack_target demo_header demo_duel [1%N] 2%N true in
     (1%N ∈ [1%N] -> is_Some (world demo_duel !! 1%N) ->
        exists e', world st' !! 1%N = Some e'
                   /\ attackTarget e' = Some (mkAttackTarget 2%N true)
                   /\ hold_inactive e')
     /\ (1%N ∉ [1%N] -> world st' !! 1%N = world demo_duel !! 1%N).
Proof.
  assert (H1 : 2%N ≠ 0%N) by lia.
  split; [done|].
  exact (X12_attack_order_records_intent demo_header demo_duel [1%N] 2%N true
           1%N H1).
Defined.

Lemma X13_witness :
  (false = false \/ world demo_duel !! 2%N = None)
  /\ let st' := attack_target demo_header demo_duel [1%N] 2%N false in
     (forall id, movement_of st' id = movement_of demo_duel id)
     /\ s_pathfinder st' = s_pathfinder demo_duel
     /\ s_pendingRequests st' = s_pendingRequests demo_duel
     /\ s_entityToRequest st' = s_entityToRequest demo_duel
     /\ s_nextRequestId st' = s_nextRequestId demo_duel.
Proof.
  assert (H1 : false = false \/ world demo_duel !! 2%N = None) by (by left).
  split; [done|].
  exact (X13_attack_without_chase_moves_nothing demo_header demo_duel [1%N] 2%N
           false H1).
Defined.

Lemma X15_witness :
  (ledger_wf demo_far_requested
   /\ is_Some (s_pathfinder demo_far_requested)
   /\ mkResult 1%N [(15, 15); (35, 35)] ∈ [mkResult 1%N [(15, 15); (35, 35)]])
  /\ let st' := processPathResults demo_header demo_far_requested
                  [mkResult 1%N [(15, 15); (35, 35)]] in
     ledger_wf st'
     /\ s_pendingRequests st' !! request_id (mkResult 1%N [(15, 15); (35, 35)])
        = None
     /\ forall e, s_entityToRequest st' !! e
                  ≠ Some (request_id (mkResult 1%N [(15, 15); (35, 35)])).
Proof.
  assert (H1 : ledger_wf demo_far_requested) by exact demo_far_requested_wf.
  assert (H2 : is_Some (s_pathfinder demo_far_requested))
    by (vm_compute; by eexists).
  assert (H3 : mkResult 1%N [(15, 15); (35, 35)]
                 ∈ [mkResult 1%N [(15, 15); (35, 35)]])
    by (apply elem_of_cons; by left).
  split; [exact (conj H1 (conj H2 H3))|].
  exact (X15_delivered_request_leaves_no_entry demo_header demo_far_requested
           _ _ H1 H2 H3).
Defined.

Lemma X16_witness :
  (is_Some (s_pathfinder demo_far_requested)
   /\ s_pendingRequests demo_far_requested
        !! request_id (mkResult 1%N [(15, 15); (20, 20); (35, 35)])
      = Some (mkPending 1%N (vec 10 10) options_async [] [])
   /\ assigned_target 1%N
        (request_entries (mkPending 1%N (vec 10 10) options_async [] []))
      = Some (vec 10 10)
   /\ world demo_far_requested !! 1%N
      = Some (moving_soldier (-10) (-10) (ordered_movement 1%N 10 10))
   /\ movement (moving_soldier (-10) (-10) (ordered_movement 1%N 10 10))
      = Some (ordered_movement 1%N 10 10)
   /\ transform (moving_soldier (-10) (-10) (ordered_movement 1%N 10 10))
      = Some (demo_transform (-10) (-10))
   /\ pathPending (ordered_movement 1%N 10 10) = true
   /\ pendingRequestId (ordered_movement 1%N 10 10)
      = request_id (mkResult 1%N [(15, 15); (20, 20); (35, 35)])
   /\ remaining_waypoints demo_header demo_far_requested
        (result_path (mkResult 1%N [(15, 15); (20, 20); (35, 35)]))
        (vsub (vec 10 10)
           (target (mkPending 1%N (vec 10 10) options_async [] [])))
        (demo_transform (-10) (-10))
      = (F32.neg (F32.lit 9 2), F32.neg (F32.lit 9 2))
          :: [(F32.lit 21 2, F32.lit 21 2)])
  /\ exists mv',
       movement_of (processPathResults demo_header demo_far_requested
                      [mkResult 1%N [(15, 15); (20, 20); (35, 35)]]) 1%N
       = Some mv'
       /\ path mv' = (F32.neg (F32.lit 9 2), F32.neg (F32.lit 9 2))
                       :: [(F32.lit 21 2, F32.lit 21 2)]
       /\ hasTarget mv' = true
       /\ target_x mv' = (F32.neg (F32.lit 9 2), F32.neg (F32.lit 9 2)).1
       /\ target_y mv' = (F32.neg (F32.lit 9 2), F32.neg (F32.lit 9 2)).2
       /\ goalX mv' = vec_x (vec 10 10) /\ goalY mv' = vec_z (vec 10 10)
       /\ vx mv' = F32.zero /\ vz mv' = F32.zero
       /\ pathPending mv' = false /\ pendingRequestId mv' = 0%N.
Proof.
  assert (H1 : is_Some (s_pathfinder demo_far_requested))
    by (vm_compute; by eexists).
  assert (H2 : s_pendingRequests demo_far_requested
                 !! request_id (mkResult 1%N [(15, 15); (20, 20); (35, 35)])
               = Some (mkPending 1%N (vec 10 10) options_async [] []))
    by (vm_compute; reflexivity).
  assert (H3 : assigned_target 1%N
                 (request_entries (mkPending 1%N (vec 10 10) options_async [] []))
               = Some (vec 10 10)) by reflexivity.
  assert (H4 : world demo_far_requested !! 1%N
               = Some (moving_soldier (-10) (-10) (ordered_movement 1%N 10 10)))
    by (vm_compute; reflexivity).
  assert (H5 : movement (moving_soldier (-10) (-10) (ordered_movement 1%N 10 10))
               = Some (ordered_movement 1%N 10 10)) by reflexivity.
  assert (H6 : transform (moving_soldier (-10) (-10) (ordered_movement 1%N 10 10))
               = Some (demo_transform (-10) (-10))) by reflexivity.
  assert (H7 : pathPending (ordered_movement 1%N 10 10) = true) by reflexivity.
  assert (H8 : pendingRequestId (ordered_movement 1%N 10 10)
               = request_id (mkResult 1%N [(15, 15); (20, 20); (35, 35)]))
    by reflexivity.
  assert (H9 : remaining_waypoints demo_header demo_far_requested
                 (result_path (mkResult 1%N [(15, 15); (20, 20); (35, 35)]))
                 (vsub (vec 10 10)
                    (target (mkPending 1%N (vec 10 10) options_async [] [])))
                 (demo_transform (-10) (-10))
               = (F32.neg (F32.lit 9 2), F32.neg (F32.lit 9 2))
                   :: [(F32.lit 21 2, F32.lit 21 2)])
    by (vm_compute; reflexivity).
  split; [by repeat split|].
  exact (X16_waiting_member_receives_path demo_header demo_far_requested _ _
           1%N _ _ _ _ _ _ H1 H2 H3 H4 H5 H6 H7 H8 H9).
Defined.

Lemma X17_witness :
  (resolve_unit demo_header options_async 1%N demo_far
   = (demo_far_ready, Some (demo_transform (-10) (-10), demo_movement))
   /\ dedup_unit options_async 1%N (vec 10 10) demo_movement demo_far_ready
      = inr (with_goal (F32.of_Z 10) (F32.of_Z 10) demo_movement, demo_far_ready)
   /\ s_pathfinder demo_far = Some demo_pf
   /\ Point_eqb (15, 15) (35, 35) = false
   /\ (allowDirectFallback options_async = false
       \/ DIRECT_PATH_THRESHOLD demo_header < manhattan (15, 15) (35, 35))
   /\ (supersede_existing options_async 1%N (vec_x (vec 10 10))
         (vec_z (vec 10 10)) demo_far_ready).1 = false
   /\ remaining_waypoints demo_header
        (moveUnits demo_header demo_far [1%N] [vec 10 10] options_async)
        [(15, 15); (20, 20); (35, 35)] (vsub (vec 10 10) (vec 10 10))
        (demo_transform (-10) (-10))
      = (F32.neg (F32.lit 9 2), F32.neg (F32.lit 9 2))
          :: [(F32.lit 21 2, F32.lit 21 2)])
  /\ let ordered :=
       moveUnits demo_header demo_far [1%N] [vec 10 10] options_async in
     let rid := s_nextRequestId demo_far in
     let st' := processPathResults demo_header ordered
                  [mkResult rid [(15, 15); (20, 20); (35, 35)]] in
     (exists mv',
        movement_of st' 1%N = Some mv'
        /\ path mv' = (F32.neg (F32.lit 9 2), F32.neg (F32.lit 9 2))
                        :: [(F32.lit 21 2, F32.lit 21 2)]
        /\ hasTarget mv' = true
        /\ target_x mv' = (F32.neg (F32.lit 9 2), F32.neg (F32.lit 9 2)).1
        /\ target_y mv' = (F32.neg (F32.lit 9 2), F32.neg (F32.lit 9 2)).2
        /\ goalX mv' = vec_x (vec 10 10) /\ goalY mv' = vec_z (vec 10 10)
        /\ pathPending mv' = false /\ pendingRequestId mv' = 0%N)
     /\ s_pendingRequests st' !! rid = None
     /\ s_entityToRequest st' !! 1%N = None.
Proof.
  assert (H1 : resolve_unit demo_header options_async 1%N demo_far
               = (demo_far_ready,
                  Some (demo_transform (-10) (-10), demo_movement)))
    by (vm_compute; reflexivity).
  assert (H2 : dedup_unit options_async 1%N (vec 10 10) demo_movement
                 demo_far_ready
               = inr (with_goal (F32.of_Z 10) (F32.of_Z 10) demo_movement,
                      demo_far_ready))
    by (vm_compute; reflexivity).
  assert (H3 : s_pathfinder demo_far = Some demo_pf) by (vm_compute; reflexivity).
  assert (H4 : Point_eqb (15, 15) (35, 35) = false) by reflexivity.
  assert (H5 : allowDirectFallback options_async = false
               \/ DIRECT_PATH_THRESHOLD demo_header < manhattan (15, 15) (35, 35))
    by (left; reflexivity).
  assert (H6 : (supersede_existing options_async 1%N (vec_x (vec 10 10))
                  (vec_z (vec 10 10)) demo_far_ready).1 = false)
    by (vm_compute; reflexivity).
  assert (H7 : remaining_waypoints demo_header
                 (moveUnits demo_header demo_far [1%N] [vec 10 10] options_async)
                 [(15, 15); (20, 20); (35, 35)] (vsub (vec 10 10) (vec 10 10))
                 (demo_transform (-10) (-10))
               = (F32.neg (F32.lit 9 2), F32.neg (F32.lit 9 2))
                   :: [(F32.lit 21 2, F32.lit 21 2)])
    by (vm_compute; reflexivity).
  split; [by repeat split|].
  exact (X17_issued_request_is_delivered_to_the_unit demo_header options_async
           demo_far 1%N (vec 10 10) _ _ _ _ _ demo_pf _ _ _
           H1 H2 H3 H4 H5 H6 H7).
Defined.

Lemma X18_witness :
  [demo_member 1 (-10) (-10) 10 10; demo_member 2 (-9) (-10) 11 10] ≠ []
  /\ (leader_index_of
        [demo_member 1 (-10) (-10) 10 10; demo_member 2 (-9) (-10) 11 10]
      < length
          [demo_member 1 (-10) (-10) 10 10; demo_member 2 (-9) (-10) 11 10])%nat.
Proof.
  assert (H1 : [demo_member 1 (-10) (-10) 10 10; demo_member 2 (-9) (-10) 11 10]
               ≠ []) by (intros H; inversion H).
  split; [done|].
  exact (X18_leader_index_in_range _ H1).
Defined.

Lemma X19_witness :
  (moveGroup_prepare demo_header options_group demo_unplaced [1%N; 2%N]
     [vec 10 10; vec 11 10]
   = inr (demo_unplaced_ready,
          [demo_measured 1 (-10) (-10) 10 10; demo_measured 2 (-9) (-10) 11 10])
   /\ leader_of [demo_measured 1 (-10) (-10) 10 10;
                 demo_measured 2 (-9) (-10) 11 10]
      = Some (demo_measured 1 (-10) (-10) 10 10)
   /\ NoDup (member_id <$> [demo_measured 1 (-10) (-10) 10 10;
                            demo_measured 2 (-9) (-10) 11 10])
   /\ (s_pathfinder demo_unplaced_ready = None
       \/ Point_eqb
            (worldToGrid demo_unplaced_ready
               (vec_x (member_position (demo_measured 1 (-10) (-10) 10 10)))
               (vec_z (member_position (demo_measured 1 (-10) (-10) 10 10))))
            (worldToGrid demo_unplaced_ready
               (vec_x (member_target (demo_measured 1 (-10) (-10) 10 10)))
               (vec_z (member_target (demo_measured 1 (-10) (-10) 10 10))))
          = true
       \/ (allowDirectFallback options_group = true
           /\ manhattan
                (worldToGrid demo_unplaced_ready
                   (vec_x (member_position (demo_measured 1 (-10) (-10) 10 10)))
                   (vec_z (member_position (demo_measured 1 (-10) (-10) 10 10))))
                (worldToGrid demo_unplaced_ready
                   (vec_x (member_target (demo_measured 1 (-10) (-10) 10 10)))
                   (vec_z (member_target (demo_measured 1 (-10) (-10) 10 10))))
              <= DIRECT_PATH_THRESHOLD demo_header))
   /\ demo_measured 2 (-9) (-10) 11 10
        ∈ [demo_measured 1 (-10) (-10) 10 10; demo_measured 2 (-9) (-10) 11 10])
  /\ let st' := moveGroup demo_header demo_unplaced [1%N; 2%N]
                  [vec 10 10; vec 11 10] options_group in
     let m := demo_measured 2 (-9) (-10) 11 10 in
     (exists mv,
        movement_of st' (member_id m) = Some mv
        /\ hasTarget mv = true
        /\ target_x mv = vec_x (member_target m)
        /\ target_y mv = vec_z (member_target m)
        /\ goalX mv = vec_x (member_target m)
        /\ goalY mv = vec_z (member_target m)
        /\ path mv = [] /\ pathPending mv = false /\ pendingRequestId mv = 0%N)
     /\ s_entityToRequest st' !! member_id m = None
     /\ issues_nothing demo_unplaced_ready st'.
Proof.
  assert (H1 : moveGroup_prepare demo_header options_group demo_unplaced
                 [1%N; 2%N] [vec 10 10; vec 11 10]
               = inr (demo_unplaced_ready,
                      [demo_measured 1 (-10) (-10) 10 10;
                       demo_measured 2 (-9) (-10) 11 10]))
    by (vm_compute; reflexivity).
  assert (H2 : leader_of [demo_measured 1 (-10) (-10) 10 10;
                          demo_measured 2 (-9) (-10) 11 10]
               = Some (demo_measured 1 (-10) (-10) 10 10))
    by (vm_compute; reflexivity).
  assert (H3 : NoDup (member_id <$> [demo_measured 1 (-10) (-10) 10 10;
                                     demo_measured 2 (-9) (-10) 11 10]))
    by (apply (bool_decide_unpack _); vm_compute; exact I).
  assert (H4 : s_pathfinder demo_unplaced_ready = None
       \/ Point_eqb
            (worldToGrid demo_unplaced_ready
               (vec_x (member_position (demo_measured 1 (-10) (-10) 10 10)))
               (vec_z (member_position (demo_measured 1 (-10) (-10) 10 10))))
            (worldToGrid demo_unplaced_ready
               (vec_x (member_target (demo_measured 1 (-10) (-10) 10 10)))
               (vec_z (member_target (demo_measured 1 (-10) (-10) 10 10))))
          = true
       \/ (allowDirectFallback options_group = true
           /\ manhattan
                (worldToGrid demo_unplaced_ready
                   (vec_x (member_position (demo_measured 1 (-10) (-10) 10 10)))
                   (vec_z (member_position (demo_measured 1 (-10) (-10) 10 10))))
                (worldToGrid demo_unplaced_ready
                   (vec_x (member_target (demo_measured 1 (-10) (-10) 10 10)))
                   (vec_z (member_target (demo_measured 1 (-10) (-10) 10 10))))
              <= DIRECT_PATH_THRESHOLD demo_header))
    by (left; reflexivity).
  assert (H5 : demo_measured 2 (-9) (-10) 11 10
                 ∈ [demo_measured 1 (-10) (-10) 10 10;
                    demo_measured 2 (-9) (-10) 11 10])
    by (apply elem_of_cons; right; apply elem_of_cons; by left).
  split; [exact (conj H1 (conj H2 (conj H3 (conj H4 H5))))|].
  exact (X19_formation_without_route_sends_directly demo_header options_group
           demo_unplaced [1%N; 2%N] [vec 10 10; vec 11 10] demo_unplaced_ready
           _ _ _ H1 H2 H3 H4 H5).
Defined.

Lemma X21_witness :
  (world demo_far_requested !! 1%N
   = Some (moving_soldier (-10) (-10) (ordered_movement 1%N 10 10))
   /\ melee_locked (moving_soldier (-10) (-10) (ordered_movement 1%N 10 10))
      = false
   /\ transform (moving_soldier (-10) (-10) (ordered_movement 1%N 10 10))
      = Some (demo_transform (-10) (-10))
   /\ movement (moving_soldier (-10) (-10) (ordered_movement 1%N 10 10))
      = Some (ordered_movement 1%N 10 10)
   /\ pathPending (ordered_movement 1%N 10 10) = true
   /\ s_entityToRequest demo_far_requested !! 1%N = Some 1%N
   /\ s_pendingRequests demo_far_requested !! 1%N
      = Some (mkPending 1%N (vec 10 10) options_async [] [])
   /\ within_same_target
        (vec_x (target (mkPending 1%N (vec 10 10) options_async [] [])))
        (vec_z (target (mkPending 1%N (vec 10 10) options_async [] [])))
        (vec_x (vec 10 10)) (vec_z (vec 10 10)) = true)
  /\ let st' := moveUnits demo_header demo_far_requested [1%N] [vec 10 10]
                  options_default in
     let req := mkPending 1%N (vec 10 10) options_async [] [] in
     movement_of st' 1%N
     = Some (with_goal (vec_x (vec 10 10)) (vec_z (vec 10 10))
               (ordered_movement 1%N 10 10))
     /\ s_pendingRequests st'
        = <[1%N := mkPending (entity_id req) (target req) options_default
                     (groupMembers req) (groupTargets req)]>
            (s_pendingRequests demo_far_requested)
     /\ s_entityToRequest st' = s_entityToRequest demo_far_requested
     /\ s_nextRequestId st' = s_nextRequestId demo_far_requested
     /\ s_pathfinder st' = s_pathfinder demo_far_requested.
Proof.
  assert (H1 : world demo_far_requested !! 1%N
               = Some (moving_soldier (-10) (-10) (ordered_movement 1%N 10 10)))
    by (vm_compute; reflexivity).
  assert (H2 : melee_locked
                 (moving_soldier (-10) (-10) (ordered_movement 1%N 10 10))
               = false) by reflexivity.
  assert (H3 : transform (moving_soldier (-10) (-10) (ordered_movement 1%N 10 10))
               = Some (demo_transform (-10) (-10))) by reflexivity.
  assert (H4 : movement (moving_soldier (-10) (-10) (ordered_movement 1%N 10 10))
               = Some (ordered_movement 1%N 10 10)) by reflexivity.
  assert (H5 : pathPending (ordered_movement 1%N 10 10) = true) by reflexivity.
  assert (H6 : s_entityToRequest demo_far_requested !! 1%N = Some 1%N)
    by (vm_compute; reflexivity).
  assert (H7 : s_pendingRequests demo_far_requested !! 1%N
               = Some (mkPending 1%N (vec 10 10) options_async [] []))
    by (vm_compute; reflexivity).
  assert (H8 : within_same_target
                 (vec_x (target (mkPending 1%N (vec 10 10) options_async [] [])))
                 (vec_z (target (mkPending 1%N (vec 10 10) options_async [] [])))
                 (vec_x (vec 10 10)) (vec_z (vec 10 10)) = true)
    by (vm_compute; reflexivity).
  split; [by repeat split|].
  exact (X21_repeated_order_reuses_request demo_header options_default
           demo_far_requested 1%N (vec 10 10) _ _ _ 1%N _
           H1 H2 H3 H4 H5 H6 H7 H8).
Defined.

Lemma X23_witness :
  (resolve_unit demo_header options_async 1%N demo_near
   = (demo_idle, Some (demo_transform 0 0, demo_movement))
   /\ dedup_unit options_async 1%N (vec 0 0) demo_movement demo_idle
      = inr (with_goal (F32.of_Z 0) (F32.of_Z 0) demo_movement, demo_idle)
   /\ (s_pathfinder demo_near = None
       \/ Point_eqb
            (worldToGrid demo_near (vec_x (position (demo_transform 0 0)))
               (vec_z (position (demo_transform 0 0))))
            (worldToGrid demo_near (vec_x (vec 0 0)) (vec_z (vec 0 0))) = true))
  /\ let st' := moveUnits demo_header demo_near [1%N] [vec 0 0] options_async in
     (exists mv',
        movement_of st' 1%N = Some mv'
        /\ hasTarget mv' = true
        /\ target_x mv' = vec_x (vec 0 0) /\ target_y mv' = vec_z (vec 0 0)
        /\ goalX mv' = vec_x (vec 0 0) /\ goalY mv' = vec_z (vec 0 0)
        /\ path mv' = [] /\ pathPending mv' = false
        /\ pendingRequestId mv' = 0%N)
     /\ s_entityToRequest st' !! 1%N = None
     /\ issues_nothing demo_near st'.
Proof.
  assert (H1 : resolve_unit demo_header options_async 1%N demo_near
               = (demo_idle, Some (demo_transform 0 0, demo_movement)))
    by (vm_compute; reflexivity).
  assert (H2 : dedup_unit options_async 1%N (vec 0 0) demo_movement demo_idle
               = inr (with_goal (F32.of_Z 0) (F32.of_Z 0) demo_movement,
                      demo_idle))
    by (vm_compute; reflexivity).
  assert (H3 : s_pathfinder demo_near = None
       \/ Point_eqb
            (worldToGrid demo_near (vec_x (position (demo_transform 0 0)))
               (vec_z (position (demo_transform 0 0))))
            (worldToGrid demo_near (vec_x (vec 0 0)) (vec_z (vec 0 0))) = true)
    by (right; vm_compute; reflexivity).
  split; [by repeat split|].
  exact (X23_no_route_needed_sends_directly demo_header options_async demo_near
           1%N (vec 0 0) _ _ _ _ _ H1 H2 H3).
Defined.

(** * The owner registry *)

Section OwnerRegistryFacts.
Import Owners.

Lemma clear_wf : registry_wf clear.
Proof.
  split; [|split]; simpl.
  - intros id index H. by rewrite lookup_empty in H.
  - intros index info H. by rewrite lookup_nil in H.
  - intros id [x H]. by rewrite lookup_empty in H.
Qed.

Lemma wf_fresh r id :
  registry_wf r -> m_nextOwnerId r <= id -> m_owner_idToIndex r !! id = None.
Proof.
  intros (_ & _ & H3) Hle.
  destruct (m_owner_idToIndex r !! id) eqn:Hl; [|done].
  assert (id < m_nextOwnerId r) by (apply H3; by eexists). lia.
Qed.

(** Appending a record for an id the map does not hold. *)
Lemma push_owner_wf r info next :
  registry_wf r ->
  m_owner_idToIndex r !! owner_id info = None ->
  owner_id info < next ->
  m_nextOwnerId r <= next ->
  registry_wf
    (mkRegistry (m_owners r ++ [info])
       (<[owner_id info := length (m_owners r)]> (m_owner_idToIndex r))
       next (m_localPlayerId r)).
Proof.
  intros (H1 & H2 & H3) Hnew Hlt Hle. split; [|split]; simpl.
  - intros id index Hid. destruct (decide (id = owner_id info)) as [->|Hne].
    + rewrite lookup_insert_eq in Hid. injection Hid as <-.
      exists info. split; [|done]. by apply list_lookup_middle.
    + rewrite lookup_insert_ne in Hid by done.
      destruct (H1 id index Hid) as (info' & Hl & Ho).
      exists info'. split; [|done]. by apply lookup_app_l_Some.
  - intros index info' Hl.
    apply lookup_app_Some in Hl as [Hl|[Hge Hl]].
    + pose proof (H2 index info' Hl) as Hm.
      rewrite lookup_insert_ne; [done|]. intros Heq. congruence.
    + apply list_lookup_singleton_Some in Hl as [Hz ->].
      rewrite lookup_insert_eq. f_equal. lia.
  - intros id Hid. destruct (decide (id = owner_id info)) as [->|Hne]; [done|].
    rewrite lookup_insert_ne in Hid by done.
    specialize (H3 id Hid). lia.
Qed.

Lemma wrap_int_small z : int_min <= z <= int_max -> wrap_int z = z.
Proof.
  unfold int_min, int_max, wrap_int. intros Hz.
  rewrite Z.mod_small by lia. lia.
Qed.

Lemma registerOwner_wf d t n r :
  registry_wf r ->
  1 <= m_nextOwnerId r < int_max ->
  registry_wf (registerOwner d t n r).2
  /\ 1 <= m_nextOwnerId (registerOwner d t n r).2 <= int_max.
Proof.
  intros Hwf Hnext. unfold registerOwner. simpl.
  rewrite wrap_int_small by (unfold int_min, int_max in *; lia).
  split; [|lia].
  apply (push_owner_wf r (new_owner d (m_nextOwnerId r) t n)); simpl;
    [done| |lia|lia].
  by apply wf_fresh.
Qed.

Lemma registerOwnerWithId_wf d id t n r :
  registry_wf r ->
  1 <= m_nextOwnerId r <= int_max ->
  int_min <= id < int_max ->
  registry_wf (registerOwnerWithId d id t n r)
  /\ 1 <= m_nextOwnerId (registerOwnerWithId d id t n r) <= int_max.
Proof.
  intros Hwf Hnext Hid. unfold registerOwnerWithId.
  destruct (m_owner_idToIndex r !! id) eqn:Hl; [done|]. simpl.
  rewrite wrap_int_small by (unfold int_min, int_max in *; lia).
  split; [|destruct (Z.leb_spec (m_nextOwnerId r) id); lia].
  apply (push_owner_wf r (new_owner d id t n)); simpl; [done|done| |];
    destruct (Z.leb_spec (m_nextOwnerId r) id); lia.
Qed.

Lemma update_owner_wf f id r :
  (forall o, owner_id (f o) = owner_id o) ->
  registry_wf r -> registry_wf (update_owner f id r).
Proof.
  intros Hf (H1 & H2 & H3). unfold update_owner.
  destruct (m_owner_idToIndex r !! id) as [index|] eqn:Hid; [|done].
  split; [|split]; simpl; [| |done].
  - intros id' index' Hid'. destruct (H1 id' index' Hid') as (info & Hl & Ho).
    destruct (decide (index' = index)) as [->|Hne].
    + exists (f info). rewrite list_lookup_alter_eq, Hl. by rewrite Hf.
    + exists info. by rewrite list_lookup_alter_ne by done.
  - intros index' info' Hl. destruct (decide (index' = index)) as [->|Hne].
    + rewrite list_lookup_alter_eq in Hl.
      destruct (m_owners r !! index) as [info|] eqn:Hl0; [|done].
      simpl in Hl. injection Hl as <-. rewrite Hf. by apply H2.
    + rewrite list_lookup_alter_ne in Hl by done. by apply H2.
Qed.

(** X24.  Every registry the public functions produce from the cleared
    one, as long as no id reaches [INT_MAX], is well formed: each id of
    the map points to a record of the vector that carries that id (so
    [m_owners[it->second]] never reads out of range), each record is found
    under its id, every registered id is below [m_nextOwnerId], and
    [m_nextOwnerId] stays between 1 and [INT_MAX]. *)
Theorem X24_registry_stays_well_formed d r :
  reachable d r -> registry_wf r /\ 1 <= m_nextOwnerId r <= int_max.
Proof.
  induction 1 as [|r t n _ IH Hnext|r id t n _ IH Hid|r id _ IH|r id team _ IH
                  |r id red g b _ IH].
  - split; [apply clear_wf|]. unfold int_max. simpl. lia.
  - destruct IH as [Hwf Hc]. apply registerOwner_wf; [done|lia].
  - destruct IH as [Hwf Hc]. by apply registerOwnerWithId_wf.
  - exact IH.
  - destruct IH as [Hwf Hc]. split; [by apply update_owner_wf|].
    unfold setOwnerTeam, update_owner.
    by destruct (m_owner_idToIndex r !! id).
  - destruct IH as [Hwf Hc]. split; [by apply update_owner_wf|].
    unfold setOwnerColor, update_owner.
    by destruct (m_owner_idToIndex r !! id).
Qed.

Lemma wf_find_owner r x info :
  registry_wf r ->
  find_owner r x = Some info <-> info ∈ m_owners r /\ owner_id info = x.
Proof.
  intros (H1 & H2 & _). unfold find_owner. split.
  - destruct (m_owner_idToIndex r !! x) as [index|] eqn:Hx; [|done].
    intros Hl. destruct (H1 x index Hx) as (info' & Hl' & Ho).
    assert (info' = info) by congruence. subst info'.
    split; [|done]. by eapply list_elem_of_lookup_2.
  - intros [Hin <-]. apply list_elem_of_lookup in Hin as [index Hl].
    by rewrite (H2 index info Hl).
Qed.

(** X25.  On a well-formed registry [registerOwner] hands out an id that
    was not registered, namely [m_nextOwnerId]; afterwards that id has the
    type given, the name given (or "Owner" followed by the id for an empty
    name), the team a fresh record has and the colour of its id, and every
    other id is found as before. *)
Theorem X25_registered_owner_is_found d t n r :
  registry_wf r ->
  let id := (registerOwner d t n r).1 in
  let r' := (registerOwner d t n r).2 in
  id = m_nextOwnerId r
  /\ find_owner r id = None
  /\ getOwnerType r' id = t
  /\ isPlayer r' id = bool_decide (t = Player)
  /\ isAI r' id = bool_decide (t = AI)
  /\ getOwnerName r' id = name_of id n
  /\ getOwnerTeam r' id = d
  /\ getOwnerColor r' id = color_of_id id
  /\ forall id', id' ≠ id -> find_owner r' id' = find_owner r id'.
Proof.
  intros Hwf id r'. subst id r'. simpl.
  split; [done|].
  pose proof (wf_fresh r (m_nextOwnerId r) Hwf (Z.le_refl _)) as Hnew.
  split; [unfold find_owner; by rewrite Hnew|].
  assert (Hfound : find_owner (registerOwner d t n r).2 (m_nextOwnerId r)
                   = Some (new_owner d (m_nextOwnerId r) t n)).
  { unfold find_owner. simpl. rewrite lookup_insert_eq.
    by apply list_lookup_middle. }
  simpl in Hfound.
  unfold getOwnerType, isPlayer, isAI, getOwnerName, getOwnerTeam, getOwnerColor.
  rewrite Hfound. simpl. repeat (split; [done|]).
  intros id' Hne. unfold find_owner. simpl.
  rewrite lookup_insert_ne by done.
  destruct (m_owner_idToIndex r !! id') as [index|] eqn:Hid'; [|done].
  destruct Hwf as (H1 & _). destruct (H1 id' index Hid') as (info & Hl & _).
  rewrite Hl. by apply lookup_app_l_Some.
Qed.

(** X26.  Alliance is reflexive and symmetric, enmity is exactly its
    complement (so it is irreflexive and symmetric), and two owners without
    a team of their own (unknown to the registry, team 0) count as
    allies. *)
Theorem X26_allies_and_enemies r a b :
  areAllies r a a = true
  /\ areAllies r a b = areAllies r b a
  /\ areEnemies r a b = negb (areAllies r a b)
  /\ areEnemies r a b = areEnemies r b a
  /\ (find_owner r a = None -> find_owner r b = None -> areAllies r a b = true).
Proof.
  assert (Hsym : forall x y, areAllies r x y = areAllies r y x).
  { intros x y. unfold areAllies. rewrite (Z.eqb_sym x y).
    destruct (y =? x); [done|]. apply Z.eqb_sym. }
  assert (Hneg : forall x y, areEnemies r x y = negb (areAllies r x y)).
  { intros x y. unfold areEnemies, areAllies.
    destruct (x =? y); [done|]. by destruct (_ =? _). }
  split; [unfold areAllies; by rewrite Z.eqb_refl|].
  split; [apply Hsym|]. split; [apply Hneg|].
  split; [by rewrite !Hneg, Hsym|].
  intros Ha Hb. unfold areAllies, getOwnerTeam. rewrite Ha, Hb.
  by destruct (a =? b).
Qed.

(** X27.  On a well-formed registry [setOwnerTeam] for a registered owner
    is read back by [getOwnerTeam], changes nothing else of that owner and
    nothing of any other owner, and keeps the registry well formed; for an
    unknown owner it does nothing. *)
Theorem X27_team_is_read_back r id team :
  registry_wf r ->
  let r' := setOwnerTeam id team r in
  registry_wf r'
  /\ (forall info, find_owner r id = Some info ->
        find_owner r' id = Some (set_team_id team info)
        /\ getOwnerTeam r' id = team
        /\ getOwnerType r' id = getOwnerType r id)
  /\ (forall id', id' ≠ id -> find_owner r' id' = find_owner r id')
  /\ (find_owner r id = None -> r' = r).
Proof.
  intros Hwf r'. subst r'.
  split; [by apply update_owner_wf|].
  destruct Hwf as (H1 & H2 & H3).
  unfold setOwnerTeam, update_owner, find_owner.
  destruct (m_owner_idToIndex r !! id) as [index|] eqn:Hid.
  - destruct (H1 id index Hid) as (info0 & Hl0 & Ho0).
    split; [|split].
    + intros info Hl. simpl.
      assert (Hf : find_owner
                (mkRegistry (alter (set_team_id team) index (m_owners r))
                   (m_owner_idToIndex r) (m_nextOwnerId r) (m_localPlayerId r))
                id = Some (set_team_id team info)).
      { unfold find_owner. simpl. by rewrite Hid, list_lookup_alter_eq, Hl. }
      unfold getOwnerTeam, getOwnerType. rewrite Hf. simpl.
      unfold find_owner. rewrite Hid, Hl.
      unfold find_owner in Hf. simpl in Hf. rewrite Hid in Hf. by rewrite Hf.
    + intros id' Hne. simpl.
      destruct (m_owner_idToIndex r !! id') as [index'|] eqn:Hid'; [|done].
      rewrite list_lookup_alter_ne; [done|]. intros <-.
      destruct (H1 id' index Hid') as (info1 & Hl1 & Ho1). congruence.
    + rewrite Hl0. done.
  - split; [done|]. split; [|done].
    intros id' Hne. done.
Qed.

(** X28.  On a well-formed registry the lists are what the predicates
    say: [getEnemiesOf] holds exactly the registered owners that
    [areEnemies] calls enemies (never the owner itself), [getPlayerOwnerIds]
    and [getAIOwnerIds] hold exactly the ids for which [isPlayer] and
    [isAI] answer true, and every id of [getAlliesOf] is another owner that
    [areAllies] calls an ally. *)
Theorem X28_lists_agree_with_predicates r id x :
  registry_wf r ->
  (x ∈ getEnemiesOf r id <->
     is_Some (find_owner r x) /\ areEnemies r id x = true)
  /\ (id ∉ getEnemiesOf r id)
  /\ (x ∈ getPlayerOwnerIds r <-> isPlayer r x = true)
  /\ (x ∈ getAIOwnerIds r <-> isAI r x = true)
  /\ (x ∈ getAlliesOf r id -> x ≠ id /\ areAllies r id x = true).
Proof.
  intros Hwf.
  assert (Hmem : forall (P : OwnerInfo -> bool) y,
            y ∈ owner_id <$> List.filter P (m_owners r)
            <-> exists info, find_owner r y = Some info /\ P info = true).
  { intros P y. rewrite list_elem_of_fmap. split.
    - intros (info & -> & Hin). apply list_elem_of_In, filter_In in Hin as [Hin HP].
      exists info. split; [|done].
      apply wf_find_owner; [done|]. split; [|done]. by apply list_elem_of_In.
    - intros (info & Hf & HP). apply wf_find_owner in Hf as [Hin Ho]; [|done].
      exists info. split; [done|].
      apply list_elem_of_In, filter_In. split; [|done]. by apply list_elem_of_In. }
  assert (Hen : forall y, y ∈ getEnemiesOf r id <->
                  is_Some (find_owner r y) /\ areEnemies r id y = true).
  { intros y. unfold getEnemiesOf. rewrite Hmem. split.
    - intros (info & Hf & HP). split; [by eexists|].
      apply wf_find_owner in Hf as [_ <-]; done.
    - intros [[info Hf] HP]. exists info. split; [done|].
      apply wf_find_owner in Hf as [_ ->]; done. }
  split; [apply Hen|]. split.
  { intros Hin. apply Hen in Hin as [_ He].
    unfold areEnemies in He. by rewrite Z.eqb_refl in He. }
  split.
  { unfold getPlayerOwnerIds, isPlayer. rewrite Hmem. split.
    - by intros (info & -> & HP).
    - destruct (find_owner r x) as [info|]; [|done]. intros HP. by exists info. }
  split.
  { unfold getAIOwnerIds, isAI. rewrite Hmem. split.
    - by intros (info & -> & HP).
    - destruct (find_owner r x) as [info|]; [|done]. intros HP. by exists info. }
  unfold getAlliesOf. destruct (getOwnerTeam r id =? 0) eqn:Hteam.
  { intros Hin. by apply elem_of_nil in Hin. }
  rewrite Hmem. intros (info & Hf & HP).
  apply andb_true_iff in HP as [Hne Hsame].
  pose proof Hf as Hf'. apply wf_find_owner in Hf' as [_ Ho]; [|done].
  rewrite Ho in Hne. apply negb_true_iff, Z.eqb_neq in Hne.
  split; [done|]. unfold areAllies.
  destruct (id =? x); [done|].
  unfold getOwnerTeam at 2. rewrite Hf.
  apply Z.eqb_eq in Hsame. rewrite Hsame. apply Z.eqb_refl.
Qed.

Lemma demo_registry_wf : registry_wf demo_registry.
Proof.
  apply registerOwner_wf; [|by vm_compute].
  apply registerOwner_wf; [apply clear_wf|by vm_compute].
Qed.

Lemma X24_witness :
  reachable 0 demo_registry
  /\ (registry_wf demo_registry /\ 1 <= m_nextOwnerId demo_registry <= int_max).
Proof.
  assert (H1 : reachable 0 demo_registry).
  { apply (reach_register 0 _ AI ""); [|by vm_compute].
    apply (reach_register 0 _ Player "Hero"); [|by vm_compute].
    apply reach_clear. }
  split; [exact H1|].
  exact (X24_registry_stays_well_formed 0 demo_registry H1).
Defined.

Lemma X25_witness :
  registry_wf demo_registry
  /\ let id := (registerOwner 0 AI "" demo_registry).1 in
     let r' := (registerOwner 0 AI "" demo_registry).2 in
     id = m_nextOwnerId demo_registry
     /\ find_owner demo_registry id = None
     /\ getOwnerType r' id = AI
     /\ isPlayer r' id = bool_decide (AI = Player)
     /\ isAI r' id = bool_decide (AI = AI)
     /\ getOwnerName r' id = name_of id ""
     /\ getOwnerTeam r' id = 0
     /\ getOwnerColor r' id = color_of_id id
     /\ forall id', id' ≠ id -> find_owner r' id' = find_owner demo_registry id'.
Proof.
  assert (H1 : registry_wf demo_registry) by exact demo_registry_wf.
  split; [done|].
  exact (X25_registered_owner_is_found 0 AI "" demo_registry H1).
Defined.

Lemma X27_witness :
  registry_wf demo_registry
  /\ let r' := setOwnerTeam 1 5 demo_registry in
     registry_wf r'
     /\ (forall info, find_owner demo_registry 1 = Some info ->
           find_owner r' 1 = Some (set_team_id 5 info)
           /\ getOwnerTeam r' 1 = 5
           /\ getOwnerType r' 1 = getOwnerType demo_registry 1)
     /\ (forall id', id' ≠ 1 -> find_owner r' id' = find_owner demo_registry id')
     /\ (find_owner demo_registry 1 = None -> r' = demo_registry).
Proof.
  assert (H1 : registry_wf demo_registry) by exact demo_registry_wf.
  split; [done|].
  exact (X27_team_is_read_back demo_registry 1 5 H1).
Defined.

Lemma X28_witness :
  registry_wf demo_registry
  /\ (2 ∈ getEnemiesOf demo_registry 1 <->
        is_Some (find_owner demo_registry 2)
        /\ areEnemies demo_registry 1 2 = true)
     /\ (1 ∉ getEnemiesOf demo_registry 1)
     /\ (2 ∈ getPlayerOwnerIds demo_registry <-> isPlayer demo_registry 2 = true)
     /\ (2 ∈ getAIOwnerIds demo_registry <-> isAI demo_registry 2 = true)
     /\ (2 ∈ getAlliesOf demo_registry 1 ->
         2 ≠ 1 /\ areAllies demo_registry 1 2 = true).
Proof.
  assert (H1 : registry_wf demo_registry) by exact demo_registry_wf.
  split; [done|].
  exact (X28_lists_agree_with_predicates demo_registry 1 2 H1).
Defined.

End OwnerRegistryFacts.

(** * The visibility job *)

Section VisibilityJob.
Import Visibility.

Lemma index_in_range x z w h :
  inBoundsStatic x z w h = true -> 0 <= indexStatic x z w < w * h.
Proof.
  unfold inBoundsStatic, indexStatic. intros H.
  apply andb_true_iff in H as [H Hz2]. apply andb_true_iff in H as [H Hz1].
  apply andb_true_iff in H as [Hx1 Hx2].
  apply Z.leb_le in Hx1, Hz1. apply Z.ltb_lt in Hx2, Hz2. nia.
Qed.

Lemma elem_of_offsets r d : d ∈ offsets r -> - r <= d <= r.
Proof. unfold offsets. rewrite elem_of_seqZ. lia. Qed.

Lemma mark_cell_within p source dz cv dx (within : nat -> Prop) :
  (forall i, in_square p source i -> within i) ->
  - cell_radius source <= dz <= cell_radius source ->
  inBoundsStatic (center_x source) (center_z source + dz) (width p) (height p)
  = true ->
  dx ∈ offsets (cell_radius source) ->
  marks_within within cv ->
  marks_within within
    (mark_cell p source (center_z source + dz) (F32.of_Z dz * tile_size p)%f32
       cv dx).
Proof.
  intros Hsq Hdz Hrow Hdx Hcv. unfold mark_cell.
  destruct (inBoundsStatic (center_x source + dx) (center_z source + dz)
              (width p) (height p)) eqn:Hin; [|done].
  simpl. destruct (F32.leb _ _); [|done].
  intros i x Hi Hx.
  destruct (decide (i = Z.to_nat (indexStatic (center_x source + dx)
                                    (center_z source + dz) (width p))))
    as [->|Hne].
  - apply Hsq. exists dx, dz. split; [by apply elem_of_offsets|]. by split.
  - rewrite list_lookup_insert_ne in Hi by done. by apply (Hcv i x).
Qed.

Lemma mark_row_within p source cv dz (within : nat -> Prop) :
  (forall i, in_square p source i -> within i) ->
  dz ∈ offsets (cell_radius source) ->
  marks_within within cv ->
  marks_within within (mark_row p source cv dz).
Proof.
  intros Hsq Hdz Hcv. unfold mark_row.
  destruct (inBoundsStatic (center_x source) (center_z source + dz)
              (width p) (height p)) eqn:Hrow; [|done].
  simpl. apply elem_of_offsets in Hdz.
  assert (Hfold : forall l cv0,
            (forall dx, dx ∈ l -> dx ∈ offsets (cell_radius source)) ->
            marks_within within cv0 ->
            marks_within within
              (foldl (mark_cell p source (center_z source + dz)
                        (F32.of_Z dz * tile_size p)%f32) cv0 l)).
  { induction l as [|dx l IH]; intros cv0 Hl Hcv0; [done|].
    cbn [foldl]. apply IH.
    - intros d Hd. apply Hl. by apply elem_of_cons; right.
    - apply mark_cell_within; auto. apply Hl. by apply elem_of_cons; left. }
  by apply Hfold.
Qed.

Lemma mark_source_within p source cv (within : nat -> Prop) :
  (forall i, in_square p source i -> within i) ->
  marks_within within cv ->
  marks_within within (mark_source p cv source).
Proof.
  intros Hsq Hcv. unfold mark_source.
  assert (Hfold : forall l cv0,
            (forall dz, dz ∈ l -> dz ∈ offsets (cell_radius source)) ->
            marks_within within cv0 ->
            marks_within within (foldl (mark_row p source) cv0 l)).
  { induction l as [|dz l IH]; intros cv0 Hl Hcv0; [done|].
    cbn [foldl]. apply IH.
    - intros d Hd. apply Hl. by apply elem_of_cons; right.
    - apply mark_row_within; auto. apply Hl. by apply elem_of_cons; left. }
  by apply Hfold.
Qed.

Lemma visible_now_within p :
  marks_within
    (fun i => exists source, source ∈ sources p /\ in_square p source i)
    (visible_now p).
Proof.
  unfold visible_now.
  assert (Hfold : forall l cv0 (within : nat -> Prop),
            (forall source i, source ∈ l -> in_square p source i -> within i) ->
            marks_within within cv0 ->
            marks_within within (foldl (mark_source p) cv0 l)).
  { induction l as [|s l IH]; intros cv0 within Hl Hcv0; [done|].
    cbn [foldl]. apply IH.
    - intros source i Hs. apply Hl. by apply elem_of_cons; right.
    - apply mark_source_within; [|done].
      intros i. apply Hl. by apply elem_of_cons; left. }
  apply Hfold.
  - intros source i Hs Hsq. by exists source.
  - intros i x Hi Hx. apply lookup_replicate in Hi as [-> _]. done.
Qed.

Section Settle.
Variable visible_val explored_val : Z.
Variable current_visible : list Z.
Variable cells0 : list Z.

Local Abbreviation settle_at i c :=
  (settled visible_val explored_val (now_at current_visible i) c).

(** The second loop after the rounds for the indices below [k]. *)
Lemma settle_prefix (k : nat) :
  (k <= length cells0)%nat ->
  let r := foldl (settle_cell visible_val explored_val current_visible)
             (cells0, false) (seq 0 k) in
  length r.1 = length cells0
  /\ (forall i c, cells0 !! i = Some c ->
        r.1 !! i = Some (if (i <? k)%nat
                         then settle_at i c
                         else c))
  /\ (r.2 = false ->
      forall i c, (i < k)%nat -> cells0 !! i = Some c ->
        settle_at i c = c)
  /\ (r.2 = true ->
      exists i c, (i < k)%nat /\ cells0 !! i = Some c
        /\ (visible_val ≠ explored_val ->
            settle_at i c ≠ c)).
Proof.
  induction k as [|k IH]; intros Hk.
  { simpl. split; [done|]. split; [by intros i c ->|].
    split; [intros _ i c Hi; lia|done]. }
  rewrite seq_S, foldl_app. cbn [foldl Nat.add].
  destruct IH as (Hlen & Hcells & Hfalse & Htrue); [lia|].
  destruct (foldl (settle_cell visible_val explored_val current_visible)
              (cells0, false) (seq 0 k)) as [cs ch].
  simpl in Hlen, Hcells, Hfalse, Htrue.
  destruct (lookup_lt_is_Some_2 cells0 k) as [ck Hck]; [lia|].
  pose proof (Hcells k ck Hck) as Hk0. rewrite Nat.ltb_irrefl in Hk0.
  unfold settle_cell. rewrite Hk0. fold (now_at current_visible k).
  assert (Hstep : forall v ch',
            (v = settle_at k ck) ->
            (ch' = false -> ch = false /\ v = ck) ->
            (ch' = true -> ch = true \/ (visible_val ≠ explored_val -> v ≠ ck)) ->
            length (<[k := v]> cs) = length cells0
            /\ (forall i c, cells0 !! i = Some c ->
                  <[k := v]> cs !! i
                  = Some (if (i <? S k)%nat
                          then settle_at i c
                          else c))
            /\ (ch' = false ->
                forall i c, (i < S k)%nat -> cells0 !! i = Some c ->
                  settle_at i c = c)
            /\ (ch' = true ->
                exists i c, (i < S k)%nat /\ cells0 !! i = Some c
                  /\ (visible_val ≠ explored_val ->
                      settle_at i c ≠ c))).
  { intros v ch' Hv Hf Ht. split; [by rewrite length_insert|]. split; [|split].
    - intros i c Hi. destruct (decide (i = k)) as [->|Hne].
      + rewrite list_lookup_insert_eq by lia.
        assert (c = ck) by congruence. subst c.
        rewrite (proj2 (Nat.ltb_lt k (S k))) by lia. by rewrite Hv.
      + rewrite list_lookup_insert_ne by done. rewrite (Hcells i c Hi).
        destruct (Nat.ltb_spec i k), (Nat.ltb_spec i (S k)); try done; lia.
    - intros Hch' i c Hi Hc. destruct (Hf Hch') as [Hch Hvk].
      destruct (decide (i = k)) as [->|Hne].
      + assert (c = ck) by congruence. subst c. congruence.
      + apply Hfalse; [done|lia|done].
    - intros Hch'. destruct (Ht Hch') as [Hch|Hdiff].
      + destruct (Htrue Hch) as (i & c & Hi & Hc & Hd).
        exists i, c. split; [lia|]. by split.
      + exists k, ck. split; [lia|]. split; [done|].
        intros Hne. rewrite <- Hv. by apply Hdiff. }
  assert (Hsame : <[k := ck]> cs = cs) by by apply list_insert_id.
  unfold settled in Hstep.
  destruct (negb (now_at current_visible k =? 0)) eqn:Hnow.
  - destruct (ck =? visible_val) eqn:Hvis; simpl.
    + apply Z.eqb_eq in Hvis. rewrite <- Hsame.
      apply (Hstep ck ch); [done| |]; intros ->; auto.
    + apply Z.eqb_neq in Hvis.
      apply (Hstep visible_val true); [done|done|].
      intros _. right. intros _. congruence.
  - destruct (ck =? visible_val) eqn:Hvis; simpl.
    + apply Z.eqb_eq in Hvis.
      apply (Hstep explored_val true); [done|done|].
      intros _. right. intros Hne. congruence.
    + rewrite <- Hsame. apply (Hstep ck ch); [done| |]; intros ->; auto.
Qed.

End Settle.

(** X29.  On a payload whose cell vector has [width * height] cells, the
    job returns as many cells and the generation it was given, and settles
    every cell on its own: a cell seen now is [Visible], a cell that was
    [Visible] and is not seen any more is [Explored], every other cell
    keeps its byte, so that nothing explored is forgotten; and, the two
    bytes being different, [changed] is set exactly when the cells
    returned differ from the cells given. *)
Theorem X29_job_settles_every_cell visible_val explored_val p :
  length (cells p) = Z.to_nat (width p * height p) ->
  let r := executeJob visible_val explored_val p in
  length (result_cells r) = length (cells p)
  /\ result_generation r = generation p
  /\ (forall i c, cells p !! i = Some c ->
        result_cells r !! i
        = Some (settled visible_val explored_val
                  (default 0 (visible_now p !! i)) c))
  /\ (visible_val ≠ explored_val ->
      (changed r = true <-> result_cells r ≠ cells p)).
Proof.
  intros Hlen r. subst r. unfold executeJob.
  pose proof (settle_prefix visible_val explored_val (visible_now p) (cells p)
                (Z.to_nat (width p * height p))) as H.
  destruct H as (H1 & H2 & H3 & H4); [lia|].
  destruct (foldl (settle_cell visible_val explored_val (visible_now p))
              (cells p, false) (seq 0 (Z.to_nat (width p * height p))))
    as [cs ch].
  simpl in H1, H2, H3, H4. simpl.
  assert (Hcell : forall i c, cells p !! i = Some c ->
            cs !! i = Some (settled visible_val explored_val
                              (default 0 (visible_now p !! i)) c)).
  { intros i c Hi. rewrite (H2 i c Hi).
    rewrite (proj2 (Nat.ltb_lt i _)); [done|].
    rewrite <- Hlen. by eapply lookup_lt_Some. }
  split; [done|]. split; [done|]. split; [exact Hcell|].
  intros Hne. split.
  - intros Hch. destruct (H4 Hch) as (i & c & _ & Hi & Hd).
    intros Heq. rewrite Heq in Hcell. specialize (Hcell i c Hi).
    rewrite Hi in Hcell. injection Hcell as Hc. by apply (Hd Hne).
  - intros Hdiff. destruct ch; [done|]. exfalso. apply Hdiff.
    apply list_eq. intros i.
    destruct (cells p !! i) as [c|] eqn:Hi.
    + rewrite (Hcell i c Hi). f_equal. unfold now_at in H3.
      apply (H3 eq_refl i c); [|done].
      rewrite <- Hlen. by eapply lookup_lt_Some.
    + apply lookup_ge_None. rewrite H1. by apply lookup_ge_None.
Qed.

(** X30.  The job writes [current_visible] only at indices inside the
    vector, and it reveals only what a source can see: a cell that was not
    [Visible] and is [Visible] in the result lies in the square of radius
    [cell_radius] around the centre of one of the sources, inside the
    grid. *)
Theorem X30_job_reveals_only_squares visible_val explored_val p :
  length (cells p) = Z.to_nat (width p * height p) ->
  (forall x z, inBoundsStatic x z (width p) (height p) = true ->
     0 <= indexStatic x z (width p) < width p * height p)
  /\ forall i c,
       cells p !! i = Some c ->
       c ≠ visible_val ->
       result_cells (executeJob visible_val explored_val p) !! i
       = Some visible_val ->
       exists source, source ∈ sources p /\ in_square p source i.
Proof.
  intros Hlen. split; [intros x z; apply index_in_range|].
  intros i c Hi Hc Hres.
  unfold executeJob in Hres.
  pose proof (settle_prefix visible_val explored_val (visible_now p) (cells p)
                (Z.to_nat (width p * height p))) as H.
  destruct H as (_ & H2 & _); [lia|].
  destruct (foldl (settle_cell visible_val explored_val (visible_now p))
              (cells p, false) (seq 0 (Z.to_nat (width p * height p))))
    as [cs ch].
  simpl in H2, Hres. rewrite (H2 i c Hi) in Hres.
  rewrite (proj2 (Nat.ltb_lt i _)) in Hres
    by (rewrite <- Hlen; by eapply lookup_lt_Some).
  injection Hres as Hres. unfold settled, now_at in Hres.
  destruct (visible_now p !! i) as [x|] eqn:Hx; simpl in Hres.
  - destruct (Z.eqb_spec x 0) as [->|Hx0]; simpl in Hres.
    + destruct (Z.eqb_spec c visible_val); congruence.
    + by apply (visible_now_within p i x).
  - destruct (Z.eqb_spec c visible_val); congruence.
Qed.

Lemma X29_witness :
  length (cells demo_payload)
  = Z.to_nat (width demo_payload * height demo_payload)
  /\ let r := executeJob 2 1 demo_payload in
     length (result_cells r) = length (cells demo_payload)
     /\ result_generation r = generation demo_payload
     /\ (forall i c, cells demo_payload !! i = Some c ->
           result_cells r !! i
           = Some (settled 2 1 (default 0 (visible_now demo_payload !! i)) c))
     /\ (2 ≠ 1 -> (changed r = true <-> result_cells r ≠ cells demo_payload)).
Proof.
  assert (H1 : length (cells demo_payload)
               = Z.to_nat (width demo_payload * height demo_payload))
    by reflexivity.
  split; [done|].
  exact (X29_job_settles_every_cell 2 1 demo_payload H1).
Defined.

Lemma X30_witness :
  length (cells demo_payload)
  = Z.to_nat (width demo_payload * height demo_payload)
  /\ (forall x z,
        inBoundsStatic x z (width demo_payload) (height demo_payload) = true ->
        0 <= indexStatic x z (width demo_payload)
        < width demo_payload * height demo_payload)
     /\ forall i c,
          cells demo_payload !! i = Some c ->
          c ≠ 2 ->
          result_cells (executeJob 2 1 demo_payload) !! i = Some 2 ->
          exists source,
            source ∈ sources demo_payload /\ in_square demo_payload source i.
Proof.
  assert (H1 : length (cells demo_payload)
               = Z.to_nat (width demo_payload * height demo_payload))
    by reflexivity.
  split; [done|].
  exact (X30_job_reveals_only_squares 2 1 demo_payload H1).
Defined.

(** The job on the example: the source on (1,0) sees its own cell and the
    three next to it; the cell (2,1), which was visible, is explored now. *)
Example job_scenario :
  executeJob 2 1 demo_payload = mkJobResult [2; 2; 2; 0; 2; 1] 7%N true.
Proof. vm_compute. reflexivity. Qed.

End VisibilityJob.
